(** * PAWS client (main.js): account session and quest-completion engine

    A shallow embedding of [src/main.js].  JSON data is kept untyped, as the
    JavaScript has it; the runtime's library functions ([axios],
    [JSON.parse], [Buffer.from], [decodeURIComponent], the clock, the file
    system) are fields of an environment record; the engine itself is
    written in a small state-and-exception monad whose state carries the
    token object and the trace of observable effects. *)

From Stdlib Require Import ZArith Ascii String.
From stdpp Require Import base option list strings gmap pretty.

Local Open Scope Z_scope.
Local Open Scope string_scope.
Local Open Scope list_scope.

#[local] Set Warnings "-register-all".

(** ** JavaScript values *)

Inductive JsVal : Type :=
| JUndefined
| JNull
| JBool (b : bool)
| JNum (n : Z)
| JStr (s : string)
| JArr (items : list JsVal)
| JObj (fields : list (string * JsVal)).

(** An [Error] object; only its [message] is ever read. *)
Record JsError : Type := mkError { message : string }.

(** ToBoolean. *)
Definition truthy (v : JsVal) : bool :=
  match v with
  | JUndefined | JNull => false
  | JBool b => b
  | JNum n => negb (Z.eqb n 0)
  | JStr s => negb (String.eqb s "")
  | JArr _ | JObj _ => true
  end.

(** [v == null], the test behind [?.] and [??]. *)
Definition nullish (v : JsVal) : bool :=
  match v with
  | JUndefined | JNull => true
  | _ => false
  end.

Fixpoint assoc (k : string) (fields : list (string * JsVal)) : JsVal :=
  match fields with
  | [] => JUndefined
  | (k', v) :: rest => if String.eqb k k' then v else assoc k rest
  end.

(** [v.k] for the property names the program reads (none of them is a
    prototype member).  [None] is the TypeError raised on [undefined] and
    [null]. *)
Definition getProp (v : JsVal) (k : string) : option JsVal :=
  match v with
  | JUndefined | JNull => None
  | JObj fields => Some (assoc k fields)
  | _ => Some JUndefined
  end.

(** [v?.k] *)
Definition getPropOpt (v : JsVal) (k : string) : JsVal :=
  match getProp v k with
  | Some x => x
  | None => JUndefined
  end.

(** [a ?? b] *)
Definition coalesce (a b : JsVal) : JsVal :=
  if nullish a then b else a.

(** [v[0]] *)
Definition getIndex0 (v : JsVal) : option JsVal :=
  match v with
  | JUndefined | JNull => None
  | JArr [] => Some JUndefined
  | JArr (x :: _) => Some x
  | JStr EmptyString => Some JUndefined
  | JStr (String c _) => Some (JStr (String c EmptyString))
  | JObj fields => Some (assoc "0" fields)
  | _ => Some JUndefined
  end.

(** [a === true] and [a === false] *)
Definition isTrue (v : JsVal) : bool :=
  match v with JBool true => true | _ => false end.

Definition isFalse (v : JsVal) : bool :=
  match v with JBool false => true | _ => false end.

(** ** Strings *)

Fixpoint isPrefix (p s : string) : bool :=
  match p, s with
  | EmptyString, _ => true
  | String a p', String b s' => if Ascii.eqb a b then isPrefix p' s' else false
  | String _ _, EmptyString => false
  end.

(** [s.split(sep)] for a non-empty separator.  [skip] counts the characters
    of a matched separator still to be dropped, [cur] is the piece being
    read. *)
Fixpoint splitGo (sep : string) (skip : nat) (cur s : string) : list string :=
  match s with
  | EmptyString => [cur]
  | String c s' =>
      match skip with
      | S k => splitGo sep k cur s'
      | O =>
          if isPrefix sep s
          then cur :: splitGo sep (String.length sep - 1) "" s'
          else splitGo sep O (cur ++ String c "") s'
      end
  end.

Definition split (sep s : string) : list string := splitGo sep O "" s.

(** [s.replace(/\r/g, "")] *)
Fixpoint removeCR (s : string) : string :=
  match s with
  | EmptyString => EmptyString
  | String c s' =>
      if Ascii.eqb c "013"%char then removeCR s' else String c (removeCR s')
  end.

Definition nonEmpty (s : string) : bool := negb (String.eqb s "").

(** [content.replace(/\r/g, "").split("\n").filter(Boolean)] *)
Definition fileLines (content : string) : list string :=
  filter (fun s => nonEmpty s = true) (split (String "010"%char "") (removeCR content)).

(** [n.toString().padStart(2, "0")] *)
Definition pad2 (n : Z) : string :=
  let s := pretty n in
  if (String.length s <? 2)%nat then "0" ++ s else s.

(** [formatTime], on whole non-negative seconds. *)
Definition formatTime (seconds : Z) : string :=
  let hours := seconds / 3600 in
  let minutes := (seconds mod 3600) / 60 in
  let remainingSeconds := seconds mod 60 in
  pad2 hours ++ ":" ++ pad2 minutes ++ ":" ++ pad2 remainingSeconds.

(** ** Requests, responses and observable effects *)

Record AxiosConfig : Type := mkConfig {
  cfg_method : string;
  cfg_url : string;
  cfg_data : JsVal;              (* [data], [JUndefined] when the call has none *)
  cfg_bearer : option JsVal      (* [None]: the fixed headers; [Some t]: getAuthHeaders(t) *)
}.

Record Response : Type := mkResponse {
  status : Z;
  data : JsVal
}.

Inductive Level : Type := Info | Warn | Error.

(** A template literal: text and interpolated values. *)
Inductive Piece : Type :=
| Lit (s : string)
| Val (v : JsVal)
| Ratio (num den : Z)          (* the number [num / den] *)
| LocaleDate (v : JsVal)       (* [new Date(v).toLocaleString()] *)
| LocalTime (seconds : Z).     (* [DateTime.fromSeconds(seconds).toLocal().toFormat(...)] *)

Inductive Event : Type :=
| ELog (lvl : Level) (msg : list Piece)
| ECall (fn : string) (args : list JsVal)   (* entry of a method of the engine *)
| EHttp (cfg : AxiosConfig)                 (* one [axios(config)] attempt *)
| ESleep (ms : Z)                           (* [setTimeout] awaited *)
| EWriteTokens (m : gmap string JsVal)      (* [fs.writeFileSync(tokenFile, ...)] *)
| ECursorTo0
| EClearLine
| EStdout (s : string)
| EBanner.

(** A file as [fs] shows it. *)
Inductive FileState : Type :=
| Missing                      (* [existsSync] is false, reading throws *)
| Unreadable (e : JsError)     (* exists, reading throws *)
| Content (s : string).

(** What the program does not contain: the runtime and the outside world.
    The answers of the network, the clock and the disk may depend on
    everything that has happened so far. *)
Record Env : Type := mkEnv {
  axios : list Event -> AxiosConfig -> JsError + Response;
  clock : list Event -> Z;                        (* Math.floor(DateTime.now().toSeconds()) *)
  writeFileSync : list Event -> option JsError;   (* [Some e]: the write throws [e] *)
  base64_toString : string -> string;             (* Buffer.from(s, "base64").toString() *)
  JSON_parse : string -> JsError + JsVal;
  decodeURIComponent : string -> JsError + string;
  toPropertyKey : JsVal -> string;                (* the key [tokens[userId]] uses *)
  dataTxt : FileState;
  walletTxt : FileState;
  inherited : JsVal -> string -> JsVal
    (* [o[k]] for an object [o] without own property [k] whose prototype an
       assignment has replaced by this value, an object or an array *)
}.

(** ** The token object

    [this.tokens] is what [loadTokens] returned: the object [{}], or what
    [JSON.parse] made of token.json.  The state covers a plain object and
    [null]; a token.json that holds an array or a bare number, string or
    boolean has no state here. *)

(** The property names that a plain object inherits from
    [Object.prototype]. *)
Definition objectPrototype : list string :=
  ["constructor"; "__defineGetter__"; "__defineSetter__"; "hasOwnProperty";
   "__lookupGetter__"; "__lookupSetter__"; "isPrototypeOf"; "propertyIsEnumerable";
   "toString"; "valueOf"; "__proto__"; "toLocaleString"].

(** What reading one of them gives: a function, or the prototype itself.
    The program tests such a value for truthiness and calls [split] on it,
    no more; an empty object stands for it. *)
Definition inheritedMember : JsVal := JObj [].

Definition hasName (k : string) (names : list string) : bool :=
  existsb (String.eqb k) names.

(** The prototype of the token object: [Object.prototype], until an
    assignment to [__proto__] replaces it by [null], an object or an
    array. *)
Inductive Proto : Type :=
| ObjectPrototype
| Reparented (proto : JsVal).

Inductive Store : Type :=
| NullStore                                            (* token.json held [null] *)
| ObjectStore (own : gmap string JsVal) (proto : Proto).

(** The own properties of the token object: the token map. *)
Definition ownProperties (s : Store) : gmap string JsVal :=
  match s with
  | ObjectStore own _ => own
  | NullStore => ∅
  end.

(** [store[key]]; [None] is the TypeError raised on [null]. *)
Definition readProperty (lookup : JsVal -> string -> JsVal) (s : Store) (key : string)
  : option JsVal :=
  match s with
  | NullStore => None
  | ObjectStore own proto =>
      Some match own !! key with
           | Some v => v
           | None =>
               match proto with
               | ObjectPrototype =>
                   if hasName key objectPrototype then inheritedMember else JUndefined
               | Reparented JNull => JUndefined
               | Reparented p => lookup p key
               end
           end
  end.

(** Whether an assignment to [__proto__] on an object without that own
    property reaches the setter of [Object.prototype]: not when the chain
    ends before it, nor when an object on the chain has a data property of
    that name, as [JSON.parse] creates them. *)
Definition reachesSetter (proto : Proto) : bool :=
  match proto with
  | ObjectPrototype => true
  | Reparented JNull => false
  | Reparented (JObj fields) => negb (hasName "__proto__" (map fst fields))
  | Reparented _ => true
  end.

(** [store[key] = token] in strict mode; [None] is the TypeError raised on
    [null].  The setter of [__proto__] replaces the prototype by an object,
    an array or [null] and ignores every other value; any other assignment
    creates or overwrites an own property. *)
Definition writeProperty (s : Store) (key : string) (token : JsVal) : option Store :=
  match s with
  | NullStore => None
  | ObjectStore own proto =>
      Some (if String.eqb key "__proto__" && negb (bool_decide (is_Some (own !! key)))
               && reachesSetter proto
            then match token with
                 | JNull | JObj _ | JArr _ => ObjectStore own (Reparented token)
                 | _ => ObjectStore own proto
                 end
            else ObjectStore (<[key := token]> own) proto)
  end.

(** ** The monad *)

Record State : Type := mkState {
  trace : list Event;                  (* oldest first *)
  store : Store;                       (* TokenManager.tokens *)
  disk : option (gmap string JsVal)    (* token.json as last written in this run *)
}.

Definition tokens (st : State) : gmap string JsVal := ownProperties (store st).

Inductive Outcome (A : Type) : Type :=
| Ret (a : A)
| Throw (e : JsError)
| Exit (code : Z)          (* process.exit(code) *)
| Pending.                 (* the cycle budget of [main] ran out: still running *)

Arguments Ret {A} a.
Arguments Throw {A} e.
Arguments Exit {A} code.
Arguments Pending {A}.

Definition M (A : Type) : Type := State -> Outcome A * State.

Definition ret {A} (a : A) : M A := fun st => (Ret a, st).

Definition bind {A B} (m : M A) (k : A -> M B) : M B :=
  fun st =>
    match m st with
    | (Ret a, st') => k a st'
    | (Throw e, st') => (Throw e, st')
    | (Exit c, st') => (Exit c, st')
    | (Pending, st') => (Pending, st')
    end.

Definition throw {A} (e : JsError) : M A := fun st => (Throw e, st).

Definition exit {A} (code : Z) : M A := fun st => (Exit code, st).

(** [try { body } catch (error) { handler }] *)
Definition tryCatch {A} (body : M A) (handler : JsError -> M A) : M A :=
  fun st =>
    match body st with
    | (Throw e, st') => handler e st'
    | r => r
    end.

Declare Scope js_scope.
Delimit Scope js_scope with js.
Notation "x ← y ; z" := (bind y (fun x => z))
  (at level 20, y at level 100, z at level 200, only parsing) : js_scope.
Notation "' x ← y ; z" := (bind y (fun x => z))
  (at level 20, x pattern, y at level 100, z at level 200, only parsing) : js_scope.
Notation "x ;; z" := (bind x (fun _ => z))
  (at level 100, z at level 200, only parsing, right associativity) : js_scope.
Local Open Scope js_scope.

Definition emit (e : Event) : M unit :=
  fun st => (Ret tt, mkState (trace st ++ [e]) (store st) (disk st)).

Definition log (lvl : Level) (msg : list Piece) : M unit := emit (ELog lvl msg).

Definition sleep (ms : Z) : M unit := emit (ESleep ms).

Definition called (fn : string) (args : list JsVal) : M unit := emit (ECall fn args).

(** A TypeError of the runtime, when [o] is [None]. *)
Definition orTypeError {A} (o : option A) (msg : string) : M A :=
  match o with
  | Some a => ret a
  | None => throw (mkError msg)
  end.

Definition orThrow {A} (r : JsError + A) : M A :=
  match r with
  | inr a => ret a
  | inl e => throw e
  end.

(** [v.k]; the message of the TypeError is the one for [undefined]. *)
Definition prop (v : JsVal) (k : string) : M JsVal :=
  orTypeError (getProp v k) ("Cannot read properties of undefined (reading '" ++ k ++ "')").

Definition run {A} (m : M A) (st : State) : Outcome A * State := m st.

(** ** Results of the engine's methods *)

(** [{ success: true, ... }] or [{ success: false, error }]. *)
Inductive Result (A : Type) : Type :=
| Success (a : A)
| Failure (error : string).

Arguments Success {A} a.
Arguments Failure {A} error.

(** What [completeQuest] reports on success: [{ success: true, data }] or
    [{ success: true, needsClaim: true }]. *)
Inductive Completion : Type :=
| Completed (payload : JsVal)
| NeedsClaim.

Record ClaimStreak : Type := mkClaimStreak {
  lastClaimDate : JsVal;
  currentStreak : JsVal
}.

Record Allocation : Type := mkAllocation {
  hamster : JsVal;
  telegram : JsVal;
  paws : JsVal;
  dogs : JsVal;
  notcoin : JsVal;
  total : JsVal
}.

Record UserData : Type := mkUserData {
  balance : JsVal;
  username : JsVal;
  firstname : JsVal;
  wallet : JsVal;
  claimStreak : ClaimStreak;
  allocation : Allocation
}.

Record LinkResult : Type := mkLinkResult {
  link_success : JsVal;
  link_error : JsVal
}.

(** ** Constants and configuration *)

Module API_CONFIG.
Definition BASE_URL : string := "https://api.paws.community/v1".
Definition AUTH : string := "/user/auth".
Definition USER_INFO : string := "/user".
Definition WALLET : string := "/user/wallet".
Definition QUESTS_LIST : string := "/quests/list".
Definition QUEST_COMPLETE : string := "/quests/completed".
Definition QUEST_CLAIM : string := "/quests/claim".
End API_CONFIG.

Definition defaultMaxRetries : Z := 3.
Definition defaultRetryDelay : Z := 5000.

(** The zero-value structures of [extractUserData]. *)
Definition hamster0 : JsVal := JObj [("initial", JNum 0); ("converted", JNum 0)].
Definition telegram0 : JsVal :=
  JObj [("premium", JBool false); ("age", JNum 0); ("year", JNum 0); ("converted", JNum 0)].
Definition paws0 : JsVal := JObj [("converted", JNum 0)].
Definition dogs0 : JsVal := JObj [("initial", JNum 0); ("converted", JNum 0); ("percent", JNum 0)].
Definition notcoin0 : JsVal := JObj [("initial", JNum 0); ("converted", JNum 0); ("createAt", JNull)].
Definition total0 : JsVal := JNum 0.

(** [extractUserData]; [None] is the TypeError of reading a property of
    [undefined] or [null]. *)
Definition extractUserData (userData : JsVal) : option UserData :=
  match getProp userData "gameData", getProp userData "userData" with
  | Some gameData, Some userInfo =>
      match getProp gameData "balance",
            getProp userInfo "username",
            getProp userInfo "firstname",
            getProp userInfo "wallet" with
      | Some balance, Some username, Some firstname, Some wallet =>
          let claimStreakData := getPropOpt userData "claimStreakData" in
          let allocationData := getPropOpt userData "allocationData" in
          Some {|
            balance := balance;
            username := username;
            firstname := firstname;
            wallet := wallet;
            claimStreak := {|
              lastClaimDate := getPropOpt claimStreakData "lastClaimDate";
              currentStreak := getPropOpt claimStreakData "claimStreak"
            |};
            allocation := {|
              hamster := coalesce (getPropOpt allocationData "hamster") hamster0;
              telegram := coalesce (getPropOpt allocationData "telegram") telegram0;
              paws := coalesce (getPropOpt allocationData "paws") paws0;
              dogs := coalesce (getPropOpt allocationData "dogs") dogs0;
              notcoin := coalesce (getPropOpt allocationData "notcoin") notcoin0;
              total := coalesce (getPropOpt allocationData "total") total0
            |}
          |}
      | _, _, _, _ => None
      end
  | _, _ => None
  end.

(** [const [a, b] = v]: arrays and strings are iterable. *)
Definition destructure2 (v : JsVal) : option (JsVal * JsVal) :=
  match v with
  | JArr items => Some (default JUndefined (items !! 0%nat), default JUndefined (items !! 1%nat))
  | JStr s =>
      Some (match s with
            | EmptyString => (JUndefined, JUndefined)
            | String a EmptyString => (JStr (String a ""), JUndefined)
            | String a (String b _) => (JStr (String a ""), JStr (String b ""))
            end)
  | _ => None
  end.

(** The callback of [getQuestsList]'s filter: [!quest.progress.claimed]. *)
Definition unclaimed (quest : JsVal) : option bool :=
  match getProp quest "progress" with
  | Some progress =>
      match getProp progress "claimed" with
      | Some claimed => Some (negb (truthy claimed))
      | None => None
      end
  | None => None
  end.

(** [quests.filter((quest) => !quest.progress.claimed)] on the elements of
    an array. *)
Fixpoint filterUnclaimed (quests : list JsVal) : option (list JsVal) :=
  match quests with
  | [] => Some []
  | quest :: rest =>
      match unclaimed quest with
      | None => None
      | Some keep =>
          match filterUnclaimed rest with
          | None => None
          | Some rest' => Some (if keep then quest :: rest' else rest')
          end
      end
  end.

Definition ok2xx (status : Z) : bool := Z.eqb status 200 || Z.eqb status 201.

(** ** The engine *)

Section Engine.

Context (env : Env).

(** [await axios(config)] *)
Definition axiosCall (config : AxiosConfig) : M (JsError + Response) :=
  fun st =>
    (Ret (axios env (trace st) config),
     mkState (trace st ++ [EHttp config]) (store st) (disk st)).

Definition getNow : M Z := fun st => (Ret (clock env (trace st)), st).

(** [fs.readFileSync(file, "utf8")] *)
Definition readFileSync (file : FileState) : M string :=
  match file with
  | Content s => ret s
  | Unreadable e => throw e
  | Missing => throw (mkError "ENOENT: no such file or directory")
  end.

(** *** ApiService *)

(** The [while] loop of [makeRequest]; [fuel] bounds its iterations. *)
Fixpoint makeRequestLoop (fuel : nat) (config : AxiosConfig)
    (attempt maxRetries retryDelay : Z) : M (option Response) :=
  match fuel with
  | O => ret None
  | S fuel' =>
      if Z.leb attempt maxRetries then
        r ← axiosCall config;
        match r with
        | inr response => ret (Some response)
        | inl error =>
            if Z.eqb attempt maxRetries then throw error
            else
              log Warn [Lit "Attempt "; Val (JNum attempt); Lit "/"; Val (JNum maxRetries);
                        Lit " failed: "; Lit (message error);
                        Lit ". Retrying in "; Ratio retryDelay 1000; Lit "s..."];;
              sleep retryDelay;;
              makeRequestLoop fuel' config (attempt + 1) maxRetries retryDelay
        end
      else ret None   (* the loop ends and the function returns undefined *)
  end.

Definition makeRequest (config : AxiosConfig) (maxRetries retryDelay : Z)
  : M (option Response) :=
  makeRequestLoop (S (Z.to_nat maxRetries)) config 1 maxRetries retryDelay.

(** [response.status], [response.data]: a TypeError when [response] is
    [undefined]. *)
Definition defined (response : option Response) : M Response :=
  orTypeError response "Cannot read properties of undefined".

(** [response.status === code && response.data.success] *)
Definition statusAndSuccess (response : Response) (code : Z) : M JsVal :=
  if Z.eqb (status response) code
  then prop (data response) "success"
  else ret (JBool false).

Definition authenticate (initData : string) : M (Result (JsVal * UserData)) :=
  called "authenticate" [JStr initData];;
  let payload := JObj [("data", JStr initData); ("referralCode", JStr "vuY5ILO1")] in
  tryCatch
    (response ← makeRequest
        (mkConfig "post" (API_CONFIG.BASE_URL ++ API_CONFIG.AUTH) payload None)
        defaultMaxRetries defaultRetryDelay;
     response ← defined response;
     ok ← statusAndSuccess response 201;
     if truthy ok then
       pair ← prop (data response) "data";
       '(token, userData) ← orTypeError (destructure2 pair) "response.data.data is not iterable";
       user ← orTypeError (extractUserData userData) "Cannot read properties of undefined";
       ret (Success (token, user))
     else ret (Failure "Authentication failed"))
    (fun error => ret (Failure (message error))).

Definition getUserInfo (token : JsVal) : M (Result UserData) :=
  called "getUserInfo" [token];;
  tryCatch
    (response ← makeRequest
        (mkConfig "get" (API_CONFIG.BASE_URL ++ API_CONFIG.USER_INFO) JUndefined (Some token))
        defaultMaxRetries defaultRetryDelay;
     response ← defined response;
     ok ← statusAndSuccess response 200;
     if truthy ok then
       raw ← prop (data response) "data";
       user ← orTypeError (extractUserData raw) "Cannot read properties of undefined";
       ret (Success user)
     else ret (Failure "Failed to get user info"))
    (fun error => ret (Failure (message error))).

Definition linkWallet (token wallet : JsVal) : M LinkResult :=
  called "linkWallet" [token; wallet];;
  tryCatch
    (response ← makeRequest
        (mkConfig "post" (API_CONFIG.BASE_URL ++ API_CONFIG.WALLET)
                  (JObj [("wallet", wallet)]) (Some token))
        defaultMaxRetries defaultRetryDelay;
     response ← defined response;
     ok ← statusAndSuccess response 201;
     ret (mkLinkResult ok
            (if Z.eqb (status response) 201 then JNull else JStr "Failed to link wallet")))
    (fun error => ret (mkLinkResult (JBool false) (JStr (message error)))).

(** *** TokenManager *)

(** [this.tokens[userId]] *)
Definition getToken (userId : JsVal) : M JsVal :=
  fun st =>
    let key := toPropertyKey env userId in
    match readProperty (inherited env) (store st) key with
    | Some v => (Ret v, st)
    | None =>
        (Throw (mkError ("Cannot read properties of null (reading '" ++ key ++ "')")), st)
    end.

(** [this.tokens[userId] = token] *)
Definition setToken (userId token : JsVal) : M unit :=
  fun st =>
    let key := toPropertyKey env userId in
    match writeProperty (store st) key token with
    | Some s => (Ret tt, mkState (trace st) s (disk st))
    | None =>
        (Throw (mkError ("Cannot set properties of null (setting '" ++ key ++ "')")), st)
    end.

(** [fs.writeFileSync(this.tokenFile, JSON.stringify(this.tokens, null, 2))],
    which [saveToken] reaches with a token object only: the own properties
    are what is written. *)
Definition writeTokens : M unit :=
  fun st =>
    let st' := mkState (trace st ++ [EWriteTokens (tokens st)]) (store st) (disk st) in
    match writeFileSync env (trace st) with
    | Some e => (Throw e, st')
    | None => (Ret tt, mkState (trace st') (store st) (Some (tokens st)))
    end.

Definition saveToken (userId token : JsVal) : M unit :=
  tryCatch
    (setToken userId token;;
     writeTokens;;
     log Info [Lit "Token saved for user "; Val userId])
    (fun error => log Error [Lit "Error saving token: "; Lit (message error)]).

(** [token.split(".")] *)
Definition splitToken (token : JsVal) : M (list string) :=
  match token with
  | JStr s => ret (split "." s)
  | _ => throw (mkError "token.split is not a function")
  end.

(** [DateTime.fromSeconds(exp)]: luxon demands a number. *)
Definition fromSeconds (exp : JsVal) : M Z :=
  match exp with
  | JNum n => ret n
  | _ => throw (mkError "fromSeconds requires a numerical input")
  end.

Definition isExpired (token : JsVal) : M bool :=
  tryCatch
    (parts ← splitToken token;
     payload ← orTypeError (parts !! 1%nat)
       "The first argument must be of type string or an instance of Buffer";
     decodedPayload ← orThrow (JSON_parse env (base64_toString env payload));
     now ← getNow;
     exp ← prop decodedPayload "exp";
     if truthy exp then
       expirationDate ← fromSeconds exp;
       log Info [Lit "Token expires on: "; LocalTime expirationDate];;
       ret (Z.ltb expirationDate now)        (* now > decodedPayload.exp *)
     else
       log Warn [Lit "Perpetual token, expiration time not readable"];;
       ret false)
    (fun error =>
       log Error [Lit "Error checking token expiration: "; Lit (message error)];;
       ret true).

(** *** QuestManager *)

Definition getQuestsList (token : JsVal) : M (Result (list JsVal)) :=
  called "getQuestsList" [token];;
  tryCatch
    (response ← makeRequest
        (mkConfig "get" (API_CONFIG.BASE_URL ++ API_CONFIG.QUESTS_LIST) JUndefined (Some token))
        defaultMaxRetries defaultRetryDelay;
     response ← defined response;
     ok ← statusAndSuccess response 200;
     if truthy ok then
       list ← prop (data response) "data";
       match list with
       | JArr quests =>
           kept ← orTypeError (filterUnclaimed quests) "Cannot read properties of undefined";
           ret (Success kept)
       | _ => throw (mkError "response.data.data.filter is not a function")
       end
     else ret (Failure "Failed to get quests list"))
    (fun error => ret (Failure (message error))).

Definition completeQuest (token questId : JsVal) : M (Result Completion) :=
  called "completeQuest" [token; questId];;
  tryCatch
    (response ← makeRequest
        (mkConfig "post" (API_CONFIG.BASE_URL ++ API_CONFIG.QUEST_COMPLETE)
                  (JObj [("questId", questId)]) (Some token))
        defaultMaxRetries defaultRetryDelay;
     response ← defined response;
     success ← prop (data response) "success";
     payload ← prop (data response) "data";
     if ok2xx (status response) && truthy success then
       ret (Success (Completed payload))
     else if ok2xx (status response) && isTrue payload then
       log Info [Lit "Quest "; Val questId; Lit " not completed, proceeding to claim..."];;
       ret (Success NeedsClaim)
     else
       (if isFalse payload
        then log Warn [Lit "Requirements not met to complete quest "; Val questId]
        else ret tt);;
       ret (Failure "Failed to complete quest"))
    (fun error => ret (Failure (message error))).

Definition claimQuest (token questId questData : JsVal) : M (Result unit) :=
  called "claimQuest" [token; questId; questData];;
  tryCatch
    (response ← makeRequest
        (mkConfig "post" (API_CONFIG.BASE_URL ++ API_CONFIG.QUEST_CLAIM)
                  (JObj [("questId", questId)]) (Some token))
        defaultMaxRetries defaultRetryDelay;
     match response with
     | Some _ =>
         rewards ← prop questData "rewards";
         first ← orTypeError (getIndex0 rewards) "Cannot read properties of undefined (reading '0')";
         reward ← prop first "amount";
         title ← prop questData "title";
         log Info [Lit "Successfully completed "; Val title; Lit " | Reward: "; Val reward];;
         ret (Success tt)
     | None => ret (Failure "Failed to claim quest reward")
     end)
    (fun error => ret (Failure (message error))).

Definition processQuest (token quest : JsVal) : M unit :=
  called "processQuest" [token; quest];;
  questId ← prop quest "_id";
  completeResult ← completeQuest token questId;
  match completeResult with
  | Failure error =>
      title ← prop quest "title";
      log Error [Lit "Error completing quest "; Val title; Lit ": "; Lit error]
  | Success (Completed _) => ret tt
  | Success NeedsClaim =>
      claimResult ← claimQuest token questId quest;
      match claimResult with
      | Failure error =>
          title ← prop quest "title";
          log Error [Lit "Error claiming quest reward "; Val title; Lit ": "; Lit error]
      | Success _ => ret tt
      end
  end.

(** The [for ... of] loop of [processQuests]. *)
Fixpoint forQuests (token : JsVal) (quests : list JsVal) : M unit :=
  match quests with
  | [] => ret tt
  | quest :: rest =>
      title ← prop quest "title";
      log Info [Lit "Processing quest: "; Val title];;
      processQuest token quest;;
      sleep 2000;;
      forQuests token rest
  end.

Definition processQuests (token : JsVal) : M unit :=
  tryCatch
    (questsResult ← getQuestsList token;
     match questsResult with
     | Failure error => log Error [Lit "Error getting quests list: "; Lit error]
     | Success quests => forQuests token quests
     end)
    (fun error => log Error [Lit "Error processing quests: "; Lit (message error)]).

(** *** PawsClient *)

(** [loadWallets], run by the constructor. *)
Definition loadWallets : M (list string) :=
  tryCatch
    (match walletTxt env with
     | Missing => ret []
     | file => content ← readFileSync file; ret (fileLines content)
     end)
    (fun error => log Error [Lit "Error reading wallet file: "; Lit (message error)];; ret []).

Definition validateWalletFile (wallets : list string) : M bool :=
  content ← readFileSync (dataTxt env);
  let data := fileLines content in
  if negb (Nat.eqb (length wallets) (length data)) then
    log Error [Lit "Mismatch between number of wallets ("; Val (JNum (Z.of_nat (length wallets)));
               Lit ") and data entries ("; Val (JNum (Z.of_nat (length data))); Lit ")"];;
    ret false
  else ret true.

Definition ensureWalletLinked (token walletAddress : JsVal) : M unit :=
  linkResult ← linkWallet token walletAddress;
  if truthy (link_success linkResult)
  then log Info [Lit "Successfully linked wallet: "; Val walletAddress]
  else log Error [Lit "Error linking wallet: "; Val (link_error linkResult)].

Definition ensureValidToken (userId : JsVal) (accountData : string) : M JsVal :=
  userToken ← getToken userId;
  refresh ← (if negb (truthy userToken) then ret true else isExpired userToken);
  if refresh : bool then
    log Warn [Lit "New token needed for user "; Val userId];;
    authResult ← authenticate accountData;
    match authResult with
    | Failure error =>
        log Error [Lit "Login failed! "; Lit error];;
        ret JNull
    | Success (token, _) =>
        saveToken userId token;;
        ret token
    end
  else ret userToken.

(** The credential blob: [JSON.parse(decodeURIComponent(
    accountData.split("user=")[1].split("&")[0]))]. *)
Definition parseAccountData (accountData : string) : JsError + JsVal :=
  match split "user=" accountData !! 1%nat with
  | None => inl (mkError "Cannot read properties of undefined (reading 'split')")
  | Some afterUser =>
      let encoded := default "" (split "&" afterUser !! 0%nat) in
      match decodeURIComponent env encoded with
      | inl error => inl error
      | inr decoded => JSON_parse env decoded
      end
  end.

(** The report of a fetched profile in [processAccount]. *)
Definition logUserInfo (userInfo : UserData) : M unit :=
  log Info [Lit "=== Account Information ==="];;
  log Info [Lit "Username: "; Val (username userInfo)];;
  log Info [Lit "Balance: "; Val (balance userInfo)];;
  log Info [Lit "=== Claim Streak Information ==="];;
  log Info [Lit "Current Streak: "; Val (currentStreak (claimStreak userInfo))];;
  log Info [Lit "Last Claim: "; LocaleDate (lastClaimDate (claimStreak userInfo))];;
  log Info [Lit "=== Allocation Information ==="];;
  log Info [Lit "Hamster:"];;
  v ← prop (hamster (allocation userInfo)) "initial";
  log Info [Lit "  > Initial: "; Val v];;
  v ← prop (hamster (allocation userInfo)) "converted";
  log Info [Lit "  > Converted: "; Val v];;
  log Info [Lit "Telegram:"];;
  v ← prop (telegram (allocation userInfo)) "premium";
  log Info [Lit "  > Premium: "; Val v];;
  v ← prop (telegram (allocation userInfo)) "age";
  log Info [Lit "  > Age: "; Val v; Lit " days"];;
  v ← prop (telegram (allocation userInfo)) "year";
  log Info [Lit "  > Year: "; Val v];;
  v ← prop (telegram (allocation userInfo)) "converted";
  log Info [Lit "  > Converted: "; Val v];;
  log Info [Lit "Paws:"];;
  v ← prop (paws (allocation userInfo)) "converted";
  log Info [Lit "  > Converted: "; Val v];;
  log Info [Lit "Dogs:"];;
  v ← prop (dogs (allocation userInfo)) "initial";
  log Info [Lit "  > Initial: "; Val v];;
  v ← prop (dogs (allocation userInfo)) "converted";
  log Info [Lit "  > Converted: "; Val v];;
  v ← prop (dogs (allocation userInfo)) "percent";
  log Info [Lit "  > Percent: "; Val v; Lit "%"];;
  log Info [Lit "Notcoin:"];;
  v ← prop (notcoin (allocation userInfo)) "initial";
  log Info [Lit "  > Initial: "; Val v];;
  v ← prop (notcoin (allocation userInfo)) "converted";
  log Info [Lit "  > Converted: "; Val v];;
  v ← prop (notcoin (allocation userInfo)) "createAt";
  log Info [Lit "  > Created At: "; Val (if truthy v then v else JStr "N/A")];;
  log Info [Lit "Total Allocation: "; Val (total (allocation userInfo))].

Definition processAccount (accountData : string) (walletAddress : JsVal) : M unit :=
  called "processAccount" [JStr accountData; walletAddress];;
  userData ← orThrow (parseAccountData accountData);
  userId ← prop userData "id";
  firstName ← prop userData "first_name";
  log Info [Lit "=== Processing account for "; Val firstName; Lit " ==="];;
  token ← ensureValidToken userId accountData;
  if negb (truthy token) then ret tt
  else
    userInfo ← getUserInfo token;
    match userInfo with
    | Success userInfo =>
        logUserInfo userInfo;;
        log Info [Lit "=== Wallet Information ==="];;
        if negb (truthy (wallet userInfo)) then
          log Warn [Lit "Account not linked to wallet. Starting linking process..."];;
          ensureWalletLinked token walletAddress
        else log Info [Lit "Wallet Address: "; Val (wallet userInfo)]
    | Failure error => log Error [Lit "Error getting user info: "; Lit error]
    end;;
    log Info [Lit "=== Processing Quests ==="];;
    processQuests token.

(** The [while] loop of [countdown]; [fuel] bounds its iterations. *)
Fixpoint countdownLoop (fuel : nat) (remainingTime : Z) : M unit :=
  match fuel with
  | O => ret tt
  | S fuel' =>
      if Z.leb 0 remainingTime then
        emit ECursorTo0;;
        emit (EStdout ("Next cycle in: " ++ formatTime remainingTime));;
        sleep 1000;;
        countdownLoop fuel' (remainingTime - 1)
      else ret tt
  end.

Definition countdown (seconds : Z) : M unit :=
  countdownLoop (S (Z.to_nat (seconds + 1))) seconds;;
  emit ECursorTo0;;
  emit EClearLine.

(** [this.wallets[i]] *)
Definition walletAt (wallets : list string) (i : nat) : JsVal :=
  match wallets !! i with
  | Some w => JStr w
  | None => JUndefined
  end.

(** The [for] loop of [main] from index [i] on; [rest] is [data] from [i]
    and [n] is [data.length]. *)
Fixpoint forAccounts (wallets : list string) (n i : nat) (rest : list string) : M unit :=
  match rest with
  | [] => ret tt
  | accountData :: rest' =>
      processAccount accountData (walletAt wallets i);;
      (if Z.ltb (Z.of_nat i) (Z.of_nat n - 1) then sleep 1000 else ret tt);;
      forAccounts wallets n (S i) rest'
  end.

Definition pending {A} : M A := fun st => (Pending, st).

(** The [while (true)] loop of [main], for at most [cycles] cycles. *)
Fixpoint mainLoop (cycles : nat) (wallets data : list string) : M unit :=
  match cycles with
  | O => pending
  | S cycles' =>
      log Info [Lit "=== Starting New Cycle ==="];;
      forAccounts wallets (length data) 0 data;;
      log Info [Lit "=== Cycle Completed ==="];;
      countdown (1440 * 60);;
      mainLoop cycles' wallets data
  end.

Definition main (cycles : nat) (wallets : list string) : M unit :=
  emit EBanner;;
  valid ← validateWalletFile wallets;
  (if negb valid then exit 1 else ret tt);;
  content ← readFileSync (dataTxt env);
  let data := fileLines content in
  mainLoop cycles wallets data.

(** [const client = new PawsClient(); client.main().catch(...)], the token
    object of the state being the one the constructor got from
    [loadTokens]. *)
Definition start (cycles : nat) : M unit :=
  wallets ← loadWallets;
  tryCatch (main cycles wallets)
    (fun err => log Error [Lit (message err)];; exit 1).

End Engine.

(** * The vocabulary of the statements *)

(** [st] with the events [evs] appended to its trace. *)
Definition after (st : State) (evs : list Event) : State :=
  mkState (trace st ++ evs) (store st) (disk st).

(** The arguments of the calls to [fn] recorded in a trace, in order. *)
Definition callsTo (fn : string) (t : list Event) : list (list JsVal) :=
  omap (fun e => match e with
                 | ECall f args => if String.eqb f fn then Some args else None
                 | _ => None
                 end) t.

(** The requests handed to [axios] in a trace, in order. *)
Definition requests (t : list Event) : list AxiosConfig :=
  omap (fun e => match e with EHttp cfg => Some cfg | _ => None end) t.

(** An event that stays within the methods [fns] and, unless [http],
    off the network. *)
Definition allowed (fns : list string) (http : bool) (e : Event) : bool :=
  match e with
  | ECall f _ => existsb (String.eqb f) fns
  | EHttp _ => http
  | _ => true
  end.

(** Outcomes: a value satisfying [R]; the same or an exception. *)
Definition returning {A} (R : A -> Prop) (o : Outcome A) : Prop :=
  match o with
  | Ret a => R a
  | _ => False
  end.

Definition settling {A} (R : A -> Prop) (o : Outcome A) : Prop :=
  match o with
  | Ret a => R a
  | Throw _ => True
  | _ => False
  end.

(** From every state, [m] ends in an outcome in [Q] and has only appended
    events allowed by [fns] and [http]. *)
Definition does {A} (m : M A) (fns : list string) (http : bool)
    (Q : Outcome A -> Prop) : Prop :=
  forall st, exists new,
    trace (snd (run m st)) = trace st ++ new /\
    Forall (fun e => allowed fns http e = true) new /\
    Q (fst (run m st)).

Definition anything {A} (_ : A) : Prop := True.

(** The warning logged after failed attempt [n] of [maxRetries]. *)
Definition retryWarning (n maxRetries retryDelay : Z) (error : JsError) : Event :=
  ELog Warn [Lit "Attempt "; Val (JNum n); Lit "/"; Val (JNum maxRetries);
             Lit " failed: "; Lit (message error);
             Lit ". Retrying in "; Ratio retryDelay 1000; Lit "s..."].

(** What a failed attempt that is not the last leaves in the trace. *)
Definition failedAttempt (config : AxiosConfig) (n : Z) (error : JsError) : list Event :=
  [EHttp config; retryWarning n defaultMaxRetries defaultRetryDelay error;
   ESleep defaultRetryDelay].

(** Every entry of the allocation aggregate is present. *)
Definition populated (a : Allocation) : Prop :=
  nullish (hamster a) = false /\ nullish (telegram a) = false /\
  nullish (paws a) = false /\ nullish (dogs a) = false /\
  nullish (notcoin a) = false /\ nullish (total a) = false.

(** A profile that [getUserInfo] reports comes out of [extractUserData]. *)
Definition extracted (r : Result UserData) : Prop :=
  match r with
  | Success u => exists raw, extractUserData raw = Some u
  | Failure _ => True
  end.

(** A list that [getQuestsList] reports was cut by [filterUnclaimed] out
    of some array. *)
Definition listed (r : Result (list JsVal)) : Prop :=
  match r with
  | Success kept => exists quests, filterUnclaimed quests = Some kept
  | Failure _ => True
  end.

(** Why the credential blob of an account cannot be read, if it cannot:
    the exception [processAccount] raises before it logs anything. *)
Definition credentialError (env : Env) (accountData : string) : option JsError :=
  match parseAccountData env accountData with
  | inl error => Some error
  | inr userData =>
      if nullish userData
      then Some (mkError "Cannot read properties of undefined (reading 'id')")
      else None
  end.

(** [this.wallets] as the constructor leaves it. *)
Definition loadedWallets (env : Env) : list string :=
  match walletTxt env with
  | Content s => fileLines s
  | _ => []
  end.

(** The arguments of the successive calls to [processAccount] for the
    accounts [blobs], the first of which has index [i]. *)
Fixpoint accountCalls (wallets : list string) (i : nat) (blobs : list string)
  : list (list JsVal) :=
  match blobs with
  | [] => []
  | blob :: rest => [JStr blob; walletAt wallets i] :: accountCalls wallets (S i) rest
  end.

(** The methods [processAccount] relies on. *)
Definition accountMethods : list string :=
  ["authenticate"; "getUserInfo"; "linkWallet"; "getQuestsList";
   "processQuest"; "completeQuest"; "claimQuest"].

(** What the constructor logs when wallet.txt cannot be read. *)
Definition walletWarnings (env : Env) : list Event :=
  match walletTxt env with
  | Unreadable e => [ELog Error [Lit "Error reading wallet file: "; Lit (message e)]]
  | _ => []
  end.

(** The complaint of [validateWalletFile]. *)
Definition mismatchLog (wallets data : nat) : Event :=
  ELog Error [Lit "Mismatch between number of wallets ("; Val (JNum (Z.of_nat wallets));
              Lit ") and data entries ("; Val (JNum (Z.of_nat data)); Lit ")"].

(** An event of the retry loop on [config]: an attempt, the warning after a
    failed one, or the pause before the next. *)
Definition transportEvent (config : AxiosConfig) (e : Event) : Prop :=
  match e with
  | EHttp c => c = config
  | ELog Warn _ => True
  | ESleep ms => ms = defaultRetryDelay
  | _ => False
  end.

Definition completeConfig (token questId : JsVal) : AxiosConfig :=
  mkConfig "post" (API_CONFIG.BASE_URL ++ API_CONFIG.QUEST_COMPLETE)
           (JObj [("questId", questId)]) (Some token).

Definition claimConfig (token questId : JsVal) : AxiosConfig :=
  mkConfig "post" (API_CONFIG.BASE_URL ++ API_CONFIG.QUEST_CLAIM)
           (JObj [("questId", questId)]) (Some token).

(** [questData.rewards[0].amount]; [None] when reading it throws. *)
Definition questReward (questData : JsVal) : option JsVal :=
  match getProp questData "rewards" with
  | Some rewards =>
      match getIndex0 rewards with
      | Some first => getProp first "amount"
      | None => None
      end
  | None => None
  end.

(** The line [claimQuest] logs for a claimed quest: the only mark of a
    quest that is done. *)
Definition doneLog (title reward : JsVal) : Event :=
  ELog Info [Lit "Successfully completed "; Val title; Lit " | Reward: "; Val reward].

Definition markedDone (new : list Event) : Prop :=
  exists title reward, In (doneLog title reward) new.

(** The line [completeQuest] logs when the quest is still to be claimed. *)
Definition needsClaimLog (questId : JsVal) : Event :=
  ELog Info [Lit "Quest "; Val questId; Lit " not completed, proceeding to claim..."].

Definition claimErrorLog (title : JsVal) (error : string) : Event :=
  ELog Error [Lit "Error claiming quest reward "; Val title; Lit ": "; Lit error].

Definition listConfig (token : JsVal) : AxiosConfig :=
  mkConfig "get" (API_CONFIG.BASE_URL ++ API_CONFIG.QUESTS_LIST) JUndefined (Some token).

(** [quest.progress.claimed]; [None] when reading it throws. *)
Definition claimedOf (quest : JsVal) : option JsVal :=
  match getProp quest "progress" with
  | Some progress => getProp progress "claimed"
  | None => None
  end.

(** [quest._id] *)
Definition questIdOf (quest : JsVal) : JsVal := getPropOpt quest "_id".

(** The test of [getQuestsList]'s filter, as a boolean. *)
Definition unclaimedb (quest : JsVal) : bool :=
  match unclaimed quest with
  | Some true => true
  | _ => false
  end.

(** The middle segment of a token, decoded:
    [JSON.parse(Buffer.from(token.split(".")[1], "base64").toString())];
    [None] when any step throws. *)
Definition tokenPayload (env : Env) (token : JsVal) : option JsVal :=
  match token with
  | JStr s =>
      match split "." s !! 1%nat with
      | Some segment =>
          match JSON_parse env (base64_toString env segment) with
          | inr payload => Some payload
          | inl _ => None
          end
      | None => None
      end
  | _ => None
  end.

(** What [isExpired] answers at time [now]. *)
Definition expiryVerdict (env : Env) (token : JsVal) (now : Z) : bool :=
  match tokenPayload env token with
  | None => true
  | Some payload =>
      match getProp payload "exp" with
      | None => true
      | Some exp =>
          if truthy exp
          then match exp with
               | JNum n => Z.ltb n now
               | _ => true
               end
          else false
      end
  end.

(** The entries of the allocation aggregate: name in the payload, field of
    the profile, zero-value structure. *)
Definition allocationFields : list (string * (Allocation -> JsVal) * JsVal) :=
  [("hamster", hamster, hamster0); ("telegram", telegram, telegram0);
   ("paws", paws, paws0); ("dogs", dogs, dogs0);
   ("notcoin", notcoin, notcoin0); ("total", total, total0)].

(** [ensureValidToken] has to authenticate: what it reads under the key of
    [userId] in [st] is falsy ([undefined] when nothing is cached), or is
    judged expired, which leaves the state [st1]. *)
Inductive needsRefresh (env : Env) (userId : JsVal) (st : State) : State -> Prop :=
| refresh_falsy token :
    readProperty (inherited env) (store st) (toPropertyKey env userId) = Some token ->
    truthy token = false ->
    needsRefresh env userId st st
| refresh_expired token st1 :
    readProperty (inherited env) (store st) (toPropertyKey env userId) = Some token ->
    truthy token = true ->
    run (isExpired env token) st = (Ret true, st1) ->
    needsRefresh env userId st st1.

Definition newTokenLog (userId : JsVal) : Event :=
  ELog Warn [Lit "New token needed for user "; Val userId].

Definition loginFailedLog (error : string) : Event :=
  ELog Error [Lit "Login failed! "; Lit error].

(** * A sample installation

    Concrete files, tokens and service answers on which the statements
    below are run.  The decoders are given by their values on the sample
    inputs. *)

Module Sample.

(** The double quote. *)
Definition dq : string := String "034"%char "".

(** [{"exp":N}] *)
Definition jsonExp (digits : string) : string :=
  "{" ++ dq ++ "exp" ++ dq ++ ":" ++ digits ++ "}".

(** [{"id":N,"first_name":"NAME"}] *)
Definition jsonUser (id name : string) : string :=
  "{" ++ dq ++ "id" ++ dq ++ ":" ++ id ++ "," ++ dq ++ "first_name" ++ dq ++ ":"
      ++ dq ++ name ++ dq ++ "}".

Definition segmentExp0 : string := "eyJleHAiOjB9".                       (* {"exp":0} *)
Definition segmentExp200 : string := "eyJleHAiOjIwMH0".                  (* {"exp":200} *)
Definition segmentExp2e9 : string := "eyJleHAiOjIwMDAwMDAwMDB9".          (* {"exp":2000000000} *)
Definition segmentEmpty : string := "e30".                               (* {} *)
Definition segmentNull : string := "bnVsbA".                             (* null *)

Definition header : string := "eyJhbGciOiJIUzI1NiJ9".
Definition tokenOf (segment : string) : JsVal := JStr (header ++ "." ++ segment ++ ".c2ln").

Definition tokenExp0 : JsVal := tokenOf segmentExp0.
Definition tokenExp200 : JsVal := tokenOf segmentExp200.
Definition tokenFresh : JsVal := tokenOf segmentExp2e9.
Definition tokenPerpetual : JsVal := tokenOf segmentEmpty.
Definition tokenNull : JsVal := tokenOf segmentNull.
Definition tokenBroken : JsVal := JStr "not-a-token".

Definition base64 (s : string) : string :=
  if String.eqb s segmentExp0 then jsonExp "0"
  else if String.eqb s segmentExp200 then jsonExp "200"
  else if String.eqb s segmentExp2e9 then jsonExp "2000000000"
  else if String.eqb s segmentEmpty then "{}"
  else if String.eqb s segmentNull then "null"
  else "".

Definition parse (s : string) : JsError + JsVal :=
  if String.eqb s (jsonExp "0") then inr (JObj [("exp", JNum 0)])
  else if String.eqb s (jsonExp "200") then inr (JObj [("exp", JNum 200)])
  else if String.eqb s (jsonExp "2000000000") then inr (JObj [("exp", JNum 2000000000)])
  else if String.eqb s "{}" then inr (JObj [])
  else if String.eqb s "null" then inr JNull
  else if String.eqb s (jsonUser "1" "Ann")
       then inr (JObj [("id", JNum 1); ("first_name", JStr "Ann")])
  else if String.eqb s (jsonUser "2" "Bob")
       then inr (JObj [("id", JNum 2); ("first_name", JStr "Bob")])
  else inl (mkError "Unexpected token in JSON").

Definition encodedAnn : string := "%7B%22id%22%3A1%2C%22first_name%22%3A%22Ann%22%7D".
Definition encodedBob : string := "%7B%22id%22%3A2%2C%22first_name%22%3A%22Bob%22%7D".

Definition decode (s : string) : JsError + string :=
  if String.eqb s encodedAnn then inr (jsonUser "1" "Ann")
  else if String.eqb s encodedBob then inr (jsonUser "2" "Bob")
  else inl (mkError "URI malformed").

Definition key (v : JsVal) : string :=
  match v with
  | JUndefined => "undefined"
  | JNull => "null"
  | JBool true => "true"
  | JBool false => "false"
  | JNum n => pretty n
  | JStr s => s
  | JArr _ => ""
  | JObj _ => "[object Object]"
  end.

Definition blobAnn : string := "query_id=AAA&user=" ++ encodedAnn ++ "&auth_date=1".
Definition blobBad : string := "query_id=BBB&auth_date=2".
Definition blobBob : string := "query_id=CCC&user=" ++ encodedBob ++ "&auth_date=3".

Definition newline : string := String "010"%char "".

Definition threeAccounts : string :=
  blobAnn ++ newline ++ blobBad ++ newline ++ blobBob ++ newline.
Definition threeWallets : string := "UQA1" ++ newline ++ "UQB2" ++ newline ++ "UQC3".
Definition twoWallets : string := "UQA1" ++ newline ++ "UQB2".

(** A profile payload without claimStreakData and allocationData. *)
Definition rawBare : JsVal :=
  JObj [("gameData", JObj [("balance", JNum 10)]);
        ("userData", JObj [("username", JStr "ann")])].

(** A profile payload with an allocation that lacks dogs. *)
Definition rawNoDogs : JsVal :=
  JObj [("gameData", JObj [("balance", JNum 10)]);
        ("userData", JObj [("username", JStr "ann"); ("firstname", JStr "Ann");
                           ("wallet", JNull)]);
        ("claimStreakData", JObj [("claimStreak", JNum 3); ("lastClaimDate", JStr "2024-11-01")]);
        ("allocationData", JObj [("hamster", JObj [("initial", JNum 7); ("converted", JNum 1)]);
                                 ("total", JNum 8)])].

Definition quest (id title : string) (rewards : list JsVal) (claimed : bool) : JsVal :=
  JObj [("_id", JStr id); ("title", JStr title); ("rewards", JArr rewards);
        ("progress", JObj [("claimed", JBool claimed)])].

Definition questA : JsVal := quest "q1" "Follow" [JObj [("amount", JNum 500)]] false.
Definition questB : JsVal := quest "q2" "Boost" [] false.
Definition questC : JsVal := quest "q3" "Invite" [JObj [("amount", JNum 100)]] true.

Definition endsWith (suffix url : string) : bool :=
  String.eqb url (API_CONFIG.BASE_URL ++ suffix).

Definition ok (code : Z) (payload : JsVal) : JsError + Response :=
  inr (mkResponse code (JObj [("success", JBool true); ("data", payload)])).

(** The service: every request is answered at once. *)
Definition service (t : list Event) (config : AxiosConfig) : JsError + Response :=
  let url := cfg_url config in
  if endsWith API_CONFIG.AUTH url then ok 201 (JArr [tokenFresh; rawBare])
  else if endsWith API_CONFIG.USER_INFO url then ok 200 rawBare
  else if endsWith API_CONFIG.WALLET url then ok 201 JNull
  else if endsWith API_CONFIG.QUESTS_LIST url then ok 200 (JArr [questA; questB; questC])
  else if endsWith API_CONFIG.QUEST_COMPLETE url
       then inr (mkResponse 200 (JObj [("success", JBool false); ("data", JBool true)]))
  else if endsWith API_CONFIG.QUEST_CLAIM url
       then inr (mkResponse 200 (JObj [("success", JBool true)]))
  else inl (mkError "Request failed with status code 404").

(** The same service with the claim endpoint out of reach. *)
Definition serviceClaimDown (t : list Event) (config : AxiosConfig) : JsError + Response :=
  if endsWith API_CONFIG.QUEST_CLAIM (cfg_url config)
  then inl (mkError "connect ETIMEDOUT")
  else service t config.

(** The same service behind a network that drops the first two attempts. *)
Definition serviceFlaky (t : list Event) (config : AxiosConfig) : JsError + Response :=
  if (length (requests t) <? 2)%nat
  then inl (mkError "socket hang up")
  else service t config.

(** What a read finds by way of a replaced prototype: its fields. *)
Definition viaPrototype (proto : JsVal) (k : string) : JsVal :=
  match proto with
  | JObj fields => assoc k fields
  | _ => JUndefined
  end.

Definition env : Env := {|
  axios := service;
  clock := fun _ => 1700000000;
  writeFileSync := fun _ => None;
  base64_toString := base64;
  JSON_parse := parse;
  decodeURIComponent := decode;
  toPropertyKey := key;
  dataTxt := Content threeAccounts;
  walletTxt := Content threeWallets;
  inherited := viaPrototype
|}.

Definition withAxios (net : list Event -> AxiosConfig -> JsError + Response) : Env :=
  mkEnv net (clock env) (writeFileSync env) base64 parse decode key
        (dataTxt env) (walletTxt env) viaPrototype.

(** The disk refuses every write. *)
Definition envReadOnly : Env :=
  mkEnv service (clock env) (fun _ => Some (mkError "EACCES: permission denied"))
        base64 parse decode key (dataTxt env) (walletTxt env) viaPrototype.

(** One wallet address short. *)
Definition envTwoWallets : Env :=
  mkEnv service (clock env) (writeFileSync env) base64 parse decode key
        (dataTxt env) (Content twoWallets) viaPrototype.

(** The profile that [extractUserData] makes of [rawBare]. *)
Definition userBare : UserData :=
  mkUserData (JNum 10) (JStr "ann") JUndefined JUndefined
             (mkClaimStreak JUndefined JUndefined)
             (mkAllocation hamster0 telegram0 paws0 dogs0 notcoin0 total0).

Definition st0 : State := mkState [] (ObjectStore ∅ ObjectPrototype) None.

(** Ann's token is cached and fresh. *)
Definition stCached : State :=
  mkState [] (ObjectStore {[ "1" := tokenFresh ]} ObjectPrototype) None.

End Sample.

(** * More of the program, and the vocabulary of its properties *)

(** [loadTokens], run by the constructor of TokenManager on token.json. *)
Definition loadTokens (env : Env) (tokenFile : FileState) : M JsVal :=
  tryCatch
    (match tokenFile with
     | Missing => ret (JObj [])
     | file => content ← readFileSync file; orThrow (JSON_parse env content)
     end)
    (fun error =>
       log Error [Lit "Error reading token file: "; Lit (message error)];;
       ret (JObj [])).

(** The token object that the constructor of TokenManager gets from
    [loadTokens]: the own properties of a JSON object, with
    [Object.prototype] behind them, or [null].  [None]: an array or a bare
    number, string or boolean, for which there is no state. *)
Definition storeOf (loaded : JsVal) : option Store :=
  match loaded with
  | JObj fields => Some (ObjectStore (list_to_map fields) ObjectPrototype)
  | JNull => Some NullStore
  | _ => None
  end.

(** [s] contains the character [c]. *)
Fixpoint hasChar (c : ascii) (s : string) : bool :=
  match s with
  | EmptyString => false
  | String a s' => Ascii.eqb a c || hasChar c s'
  end.

Definition CR : ascii := "013"%char.
Definition LF : ascii := "010"%char.

(** A line as the input files are meant to hold them: not empty, without
    carriage return or line feed. *)
Definition cleanLine (l : string) : Prop :=
  l <> "" /\ hasChar CR l = false /\ hasChar LF l = false.

(** The lines [ls] written to a file, each ended by [eol]. *)
Fixpoint writeLines (eol : string) (ls : list string) : string :=
  match ls with
  | [] => ""
  | l :: rest => l ++ eol ++ writeLines eol rest
  end.

(** The decimal digit [n], and a number below 100 on two digits. *)
Definition digit (n : Z) : ascii := ascii_of_nat (48 + Z.to_nat n).

Definition twoDigits (n : Z) : string :=
  String (digit (n / 10)) (String (digit (n mod 10)) "").

(** What a trace shows on the terminal, and the pauses it holds. *)
Definition stdouts (t : list Event) : list string :=
  omap (fun e => match e with EStdout s => Some s | _ => None end) t.

Definition sleeps (t : list Event) : list Z :=
  omap (fun e => match e with ESleep ms => Some ms | _ => None end) t.

(** The values [countdown] displays: from [seconds] down to 0. *)
Fixpoint countdownFrom (n : nat) : list Z :=
  match n with
  | O => [0]
  | S k => Z.of_nat (S k) :: countdownFrom k
  end.

(** From every state, [m] leaves the token object and token.json as they
    are and appends only events that satisfy [P]. *)
Definition preserves {A} (P : Event -> Prop) (m : M A) : Prop :=
  forall st, exists new, snd (run m st) = after st new /\ Forall P new.

(** An event of a session under [token]: a request bears [token] and goes
    to an endpoint of the service; token.json is not written. *)
Definition authorized (token : JsVal) (e : Event) : Prop :=
  match e with
  | EHttp c => cfg_bearer c = Some token /\ isPrefix API_CONFIG.BASE_URL (cfg_url c) = true
  | EWriteTokens _ => False
  | _ => True
  end.

(** An event of authentication: the request is the POST of the blob with
    the referral code, without bearer; token.json is not written. *)
Definition authEvent (initData : string) (e : Event) : Prop :=
  match e with
  | EHttp c =>
      c = mkConfig "post" (API_CONFIG.BASE_URL ++ API_CONFIG.AUTH)
                   (JObj [("data", JStr initData); ("referralCode", JStr "vuY5ILO1")]) None
  | EWriteTokens _ => False
  | _ => True
  end.

(** An event that is neither a request, nor a write of token.json, nor
    the entry of a method of the engine. *)
Definition offline (e : Event) : Prop :=
  match e with
  | EHttp _ | EWriteTokens _ | ECall _ _ => False
  | _ => True
  end.

(** What one turn of [countdown] adds to the trace, and all its turns
    from [n] seconds down to 0. *)
Definition countdownTick (k : Z) : list Event :=
  [ECursorTo0; EStdout ("Next cycle in: " ++ formatTime k); ESleep 1000].

Definition countdownTicks (n : nat) : list Event :=
  flat_map countdownTick (countdownFrom n).

Definition walletConfig (token wallet : JsVal) : AxiosConfig :=
  mkConfig "post" (API_CONFIG.BASE_URL ++ API_CONFIG.WALLET)
           (JObj [("wallet", wallet)]) (Some token).

(** The line [ensureWalletLinked] logs on an answer with this status and
    this success flag. *)
Definition linkReport (wallet : JsVal) (status : Z) (ok : JsVal) : Event :=
  if Z.eqb status 201 then
    if truthy ok then ELog Info [Lit "Successfully linked wallet: "; Val wallet]
    else ELog Error [Lit "Error linking wallet: "; Val JNull]
  else ELog Error [Lit "Error linking wallet: "; Val (JStr "Failed to link wallet")].

(** The calls to [processAccount] of [cycles] full cycles. *)
Definition cycleCalls (wallets data : list string) (cycles : nat) : list (list JsVal) :=
  concat (replicate cycles (accountCalls wallets 0 data)).

(** The calls to [linkWallet] that [processAccount] makes once the profile
    fetch has answered [profile]. *)
Definition linkCalls (token walletAddress : JsVal) (profile : Result UserData)
  : list (list JsVal) :=
  match profile with
  | Success user => if truthy (wallet user) then [] else [[token; walletAddress]]
  | Failure _ => []
  end.

(** An event other than a write of token.json. *)
Definition noWrite (e : Event) : Prop :=
  match e with
  | EWriteTokens _ => False
  | _ => True
  end.

(** The line [loadTokens] logs when token.json cannot be used. *)
Definition tokenFileLog (error : JsError) : Event :=
  ELog Error [Lit "Error reading token file: "; Lit (message error)].

(** What [ensureValidToken] can do to the token object: nothing, or the
    one assignment of [saveToken]. *)
Definition assigned (key : string) (before after : Store) : Prop :=
  after = before \/ exists token, writeProperty before key token = Some after.

(** ** Further sample data *)

(** A quest whose [progress] does not say whether it is claimed, and a
    service that lists it. *)
Definition questUnmarked : JsVal :=
  JObj [("_id", JStr "q8"); ("title", JStr "Unmarked");
        ("rewards", JArr [JObj [("amount", JNum 50)]]); ("progress", JObj [])].

Definition serviceUnmarked (t : list Event) (config : AxiosConfig) : JsError + Response :=
  if Sample.endsWith API_CONFIG.QUESTS_LIST (cfg_url config)
  then Sample.ok 200 (JArr [questUnmarked])
  else Sample.service t config.

(** token.json held [null]. *)
Definition stNull : State := mkState [] NullStore None.

(** An installation with two well-formed accounts and their two wallets,
    and one without data.txt. *)
Definition twoAccounts : string :=
  Sample.blobAnn ++ Sample.newline ++ Sample.blobBob ++ Sample.newline.

Definition envHealthy : Env :=
  mkEnv Sample.service (clock Sample.env) (writeFileSync Sample.env)
        Sample.base64 Sample.parse Sample.decode Sample.key
        (Content twoAccounts) (Content Sample.twoWallets) Sample.viaPrototype.

Definition envNoData : Env :=
  mkEnv Sample.service (clock Sample.env) (writeFileSync Sample.env)
        Sample.base64 Sample.parse Sample.decode Sample.key
        Missing (Content Sample.twoWallets) Sample.viaPrototype.

(** A quest without [progress], a service that lists it, and a service
    that refuses every login. *)
Definition questBare : JsVal := JObj [("_id", JStr "q9"); ("title", JStr "Bare")].

Definition serviceBareQuest (t : list Event) (config : AxiosConfig) : JsError + Response :=
  if Sample.endsWith API_CONFIG.QUESTS_LIST (cfg_url config)
  then Sample.ok 200 (JArr [Sample.questA; questBare])
  else Sample.service t config.

Definition serviceNoLogin (t : list Event) (config : AxiosConfig) : JsError + Response :=
  if Sample.endsWith API_CONFIG.AUTH (cfg_url config)
  then inl (mkError "Request failed with status code 401")
  else Sample.service t config.

(** A wallet.txt written with CR LF line ends, a service that answers the
    wallet request with 201 and a false success flag, and a token map that
    holds Bob's token only. *)
Definition envCRLF : Env :=
  mkEnv Sample.service (clock Sample.env) (writeFileSync Sample.env)
        Sample.base64 Sample.parse Sample.decode Sample.key
        (dataTxt Sample.env)
        (Content (writeLines (String CR (String LF "")) ["UQA1"; "UQB2"]))
        Sample.viaPrototype.

Definition serviceLinkRefused (t : list Event) (config : AxiosConfig) : JsError + Response :=
  if Sample.endsWith API_CONFIG.WALLET (cfg_url config)
  then inr (mkResponse 201 (JObj [("success", JBool false)]))
  else Sample.service t config.

Definition stBob : State :=
  mkState [] (ObjectStore {[ "2" := Sample.tokenExp200 ]} ObjectPrototype) None.

(** * Reasoning about runs *)

Section Runs.

Context {A B : Type}.

Lemma run_ret (a : A) st : run (ret a) st = (Ret a, st).
Proof. reflexivity. Qed.

Lemma run_bind (m : M A) (k : A -> M B) st :
  run (bind m k) st =
  match run m st with
  | (Ret a, st') => run (k a) st'
  | (Throw e, st') => (Throw e, st')
  | (Exit c, st') => (Exit c, st')
  | (Pending, st') => (Pending, st')
  end.
Proof. reflexivity. Qed.

Lemma run_bind_ret (m : M A) (k : A -> M B) st a st' :
  run m st = (Ret a, st') -> run (bind m k) st = run (k a) st'.
Proof. intros H. rewrite run_bind, H. reflexivity. Qed.

Lemma run_bind_throw (m : M A) (k : A -> M B) st e st' :
  run m st = (Throw e, st') -> run (bind m k) st = (Throw e, st').
Proof. intros H. rewrite run_bind, H. reflexivity. Qed.

Lemma run_tryCatch (body : M A) (handler : JsError -> M A) st :
  run (tryCatch body handler) st =
  match run body st with
  | (Throw e, st') => run (handler e) st'
  | r => r
  end.
Proof. reflexivity. Qed.

End Runs.

Lemma run_emit e st : run (emit e) st = (Ret tt, after st [e]).
Proof. reflexivity. Qed.

Lemma after_after st xs ys : after (after st xs) ys = after st (xs ++ ys).
Proof. unfold after. simpl. rewrite <- app_assoc. reflexivity. Qed.

Lemma after_nil st : after st [] = st.
Proof. destruct st. unfold after. simpl. rewrite app_nil_r. reflexivity. Qed.

Lemma callsTo_app fn t1 t2 : callsTo fn (t1 ++ t2) = callsTo fn t1 ++ callsTo fn t2.
Proof. apply omap_app. Qed.

Lemma requests_app t1 t2 : requests (t1 ++ t2) = requests t1 ++ requests t2.
Proof. apply omap_app. Qed.

(** Events that stay clear of [fn] contribute no call to it. *)
Lemma callsTo_allowed fn fns http new :
  existsb (String.eqb fn) fns = false ->
  Forall (fun e => allowed fns http e = true) new ->
  callsTo fn new = [].
Proof.
  intros Hfn. induction 1 as [|e new He _ IH]; [reflexivity|].
  change (callsTo fn (e :: new)) with (callsTo fn ([e] ++ new)).
  rewrite callsTo_app, IH, app_nil_r.
  destruct e; try reflexivity. simpl in *.
  destruct (String.eqb_spec fn0 fn) as [->|]; [|reflexivity].
  congruence.
Qed.

Lemma requests_allowed fns new :
  Forall (fun e => allowed fns false e = true) new -> requests new = [].
Proof.
  induction 1 as [|e new He _ IH]; [reflexivity|].
  change (requests (e :: new)) with (requests ([e] ++ new)).
  rewrite requests_app, IH, app_nil_r.
  destruct e; try reflexivity. discriminate.
Qed.

Section Does.

Context {A B : Type}.

Lemma does_ret (a : A) fns http (Q : Outcome A -> Prop) :
  Q (Ret a) -> does (ret a) fns http Q.
Proof.
  intros HQ st. exists []. simpl. rewrite app_nil_r. auto.
Qed.

Lemma does_throw (e : JsError) fns http (Q : Outcome A -> Prop) :
  Q (Throw e) -> does (throw e) fns http Q.
Proof.
  intros HQ st. exists []. simpl. rewrite app_nil_r. auto.
Qed.

Lemma does_post (m : M A) fns http (Q Q' : Outcome A -> Prop) :
  does m fns http Q -> (forall o, Q o -> Q' o) -> does m fns http Q'.
Proof.
  intros Hm HQ st. destruct (Hm st) as (new & Ht & Hall & Ho).
  exists new. auto.
Qed.

Lemma returning_settling (R : A -> Prop) o : returning R o -> settling R o.
Proof. destruct o; simpl; tauto. Qed.

Lemma does_bind_settling (m : M A) (k : A -> M B) fns http
    (R1 : A -> Prop) (R2 : B -> Prop) :
  does m fns http (settling R1) ->
  (forall a, R1 a -> does (k a) fns http (settling R2)) ->
  does (bind m k) fns http (settling R2).
Proof.
  intros Hm Hk st. destruct (Hm st) as (new1 & Ht1 & Hall1 & Ho1).
  rewrite run_bind. destruct (run m st) as [o st1]. simpl in *.
  destruct o as [a|e|c|]; simpl in Ho1; try contradiction.
  - destruct (Hk a Ho1 st1) as (new2 & Ht2 & Hall2 & Ho2).
    exists (new1 ++ new2). rewrite Ht2, Ht1, app_assoc.
    repeat split; auto. apply Forall_app; auto.
  - exists new1. simpl. auto.
Qed.

Lemma does_bind_returning (m : M A) (k : A -> M B) fns http
    (R1 : A -> Prop) (R2 : B -> Prop) :
  does m fns http (returning R1) ->
  (forall a, R1 a -> does (k a) fns http (returning R2)) ->
  does (bind m k) fns http (returning R2).
Proof.
  intros Hm Hk st. destruct (Hm st) as (new1 & Ht1 & Hall1 & Ho1).
  rewrite run_bind. destruct (run m st) as [o st1]. simpl in *.
  destruct o as [a|e|c|]; simpl in Ho1; try contradiction.
  destruct (Hk a Ho1 st1) as (new2 & Ht2 & Hall2 & Ho2).
  exists (new1 ++ new2). rewrite Ht2, Ht1, app_assoc.
  repeat split; auto. apply Forall_app; auto.
Qed.

End Does.

Lemma does_tryCatch {A} (body : M A) handler fns http (R : A -> Prop) :
  does body fns http (settling R) ->
  (forall e, does (handler e) fns http (returning R)) ->
  does (tryCatch body handler) fns http (returning R).
Proof.
  intros Hb Hh st. destruct (Hb st) as (new1 & Ht1 & Hall1 & Ho1).
  rewrite run_tryCatch. destruct (run body st) as [o st1]. simpl in *.
  destruct o as [a|e|c|]; simpl in Ho1; try contradiction.
  - exists new1. simpl. auto.
  - destruct (Hh e st1) as (new2 & Ht2 & Hall2 & Ho2).
    exists (new1 ++ new2). rewrite Ht2, Ht1, app_assoc.
    repeat split; auto. apply Forall_app; auto.
Qed.

Lemma does_emit e fns http (Q : Outcome unit -> Prop) :
  allowed fns http e = true -> Q (Ret tt) -> does (emit e) fns http Q.
Proof.
  intros He HQ st. exists [e]. simpl. repeat split; auto.
Qed.

Lemma does_orTypeError {A} (o : option A) msg fns http (R : A -> Prop) :
  (forall a, o = Some a -> R a) -> does (orTypeError o msg) fns http (settling R).
Proof.
  intros H. destruct o; simpl.
  - apply does_ret. simpl. auto.
  - apply does_throw. exact I.
Qed.

Lemma does_orThrow {A} (r : JsError + A) fns http (R : A -> Prop) :
  (forall a, r = inr a -> R a) -> does (orThrow r) fns http (settling R).
Proof.
  intros H. destruct r; simpl.
  - apply does_throw. exact I.
  - apply does_ret. simpl. auto.
Qed.

Lemma does_prop v k fns http :
  does (prop v k) fns http (settling (fun x => getProp v k = Some x)).
Proof. unfold prop. apply does_orTypeError. auto. Qed.

(** Reading a property of a value that is neither [undefined] nor [null]
    succeeds. *)
Lemma getProp_defined v k : nullish v = false -> exists x, getProp v k = Some x.
Proof. destruct v; simpl; try discriminate; eauto. Qed.

Lemma getProp_nullish v k x : getProp v k = Some x -> nullish v = false.
Proof. destruct v; simpl; try discriminate; auto. Qed.

Lemma does_prop_defined v k fns http :
  nullish v = false ->
  does (prop v k) fns http (returning (fun x => getProp v k = Some x)).
Proof.
  intros Hv. destruct (getProp_defined v k Hv) as [x Hx].
  unfold prop. rewrite Hx. simpl. apply does_ret. reflexivity.
Qed.

(** * Transport: the retry loop *)

Section Transport.

Context (env : Env).

(** One turn of the retry loop. *)
Lemma makeRequestLoop_step fuel config attempt maxRetries retryDelay st :
  run (makeRequestLoop env (S fuel) config attempt maxRetries retryDelay) st =
  if Z.leb attempt maxRetries then
    match axios env (trace st) config with
    | inr response => (Ret (Some response), after st [EHttp config])
    | inl error =>
        if Z.eqb attempt maxRetries then (Throw error, after st [EHttp config])
        else run (makeRequestLoop env fuel config (attempt + 1) maxRetries retryDelay)
                 (after st [EHttp config; retryWarning attempt maxRetries retryDelay error;
                            ESleep retryDelay])
    end
  else (Ret None, st).
Proof.
  unfold run at 1. simpl. destruct (Z.leb attempt maxRetries); [|reflexivity].
  unfold bind at 1, axiosCall at 1.
  destruct (axios env (trace st) config) as [error|response]; [|reflexivity].
  destruct (Z.eqb attempt maxRetries); [reflexivity|].
  unfold run, bind, log, sleep, emit, after, retryWarning. simpl.
  rewrite <- !List.app_assoc. reflexivity.
Qed.

(** The four ways a request with the default policy can go. *)
Lemma makeRequest_cases config st :
  match axios env (trace st) config with
  | inr r1 =>
      run (makeRequest env config defaultMaxRetries defaultRetryDelay) st
      = (Ret (Some r1), after st [EHttp config])
  | inl e1 =>
      match axios env (trace st ++ failedAttempt config 1 e1) config with
      | inr r2 =>
          run (makeRequest env config defaultMaxRetries defaultRetryDelay) st
          = (Ret (Some r2), after st (failedAttempt config 1 e1 ++ [EHttp config]))
      | inl e2 =>
          match axios env (trace st ++ failedAttempt config 1 e1
                                    ++ failedAttempt config 2 e2) config with
          | inr r3 =>
              run (makeRequest env config defaultMaxRetries defaultRetryDelay) st
              = (Ret (Some r3),
                 after st (failedAttempt config 1 e1 ++ failedAttempt config 2 e2
                           ++ [EHttp config]))
          | inl e3 =>
              run (makeRequest env config defaultMaxRetries defaultRetryDelay) st
              = (Throw e3,
                 after st (failedAttempt config 1 e1 ++ failedAttempt config 2 e2
                           ++ [EHttp config]))
          end
      end
  end.
Proof.
  unfold makeRequest.
  change (Z.to_nat defaultMaxRetries) with 3%nat.
  rewrite makeRequestLoop_step.
  change (Z.leb 1 defaultMaxRetries) with true. cbv iota.
  destruct (axios env (trace st) config) as [e1|r1]; [|reflexivity].
  change (Z.eqb 1 defaultMaxRetries) with false. cbv iota.
  rewrite makeRequestLoop_step.
  change (Z.leb (1 + 1) defaultMaxRetries) with true. cbv iota.
  change (trace (after st ?x)) with (trace st ++ x).
  fold (failedAttempt config 1 e1).
  destruct (axios env (trace st ++ failedAttempt config 1 e1) config) as [e2|r2];
    [|rewrite after_after; reflexivity].
  change (Z.eqb (1 + 1) defaultMaxRetries) with false. cbv iota.
  rewrite makeRequestLoop_step.
  change (Z.leb (1 + 1 + 1) defaultMaxRetries) with true. cbv iota.
  rewrite !after_after.
  change (trace (after st ?x)) with (trace st ++ x).
  fold (failedAttempt config (1 + 1) e2).
  change (1 + 1) with 2.
  destruct (axios env _ config) as [e3|r3].
  - change (Z.eqb (2 + 1) defaultMaxRetries) with true. cbv iota.
    rewrite <- List.app_assoc. reflexivity.
  - rewrite <- List.app_assoc. reflexivity.
Qed.

(** A request with the default policy answers or throws, and only talks
    to the network. *)
Lemma makeRequest_does config fns :
  does (makeRequest env config defaultMaxRetries defaultRetryDelay) fns true
       (settling (fun r => exists response, r = Some response)).
Proof.
  intros st. pose proof (makeRequest_cases config st) as H.
  destruct (axios env (trace st) config) as [e1|r1].
  2:{ rewrite H; eexists; simpl; repeat split; eauto; repeat constructor. }
  destruct (axios env (trace st ++ failedAttempt config 1 e1) config) as [e2|r2].
  2:{ rewrite H; eexists; simpl; repeat split; eauto; repeat constructor. }
  destruct (axios env _ config) as [e3|r3];
    rewrite H; eexists; simpl; repeat split; eauto; repeat constructor.
Qed.

End Transport.

(** ** Frames of the primitive steps *)

Lemma does_settle {A} (m : M A) fns http (R : A -> Prop) :
  does m fns http (returning R) -> does m fns http (settling R).
Proof.
  intros H st. destruct (H st) as (new & ? & ? & ?).
  exists new. repeat split; auto using returning_settling.
Qed.

Lemma does_log lvl msg fns http : does (log lvl msg) fns http (returning anything).
Proof. apply does_emit; [reflexivity | exact I]. Qed.

Lemma does_sleep ms fns http : does (sleep ms) fns http (returning anything).
Proof. apply does_emit; [reflexivity | exact I]. Qed.

Lemma does_called fn args fns http :
  existsb (String.eqb fn) fns = true ->
  does (called fn args) fns http (returning anything).
Proof. intros H. apply does_emit; [exact H | exact I]. Qed.

(** Chaining: [bind_r] after a step that returns, [bind_s] after one that
    may throw. *)
Tactic Notation "bind_r" tactic3(tac) :=
  eapply does_bind_returning; [ tac | intros ? ? ].
Tactic Notation "bind_s" tactic3(tac) :=
  eapply does_bind_settling; [ tac | intros ? ? ].
Tactic Notation "bind_rs" tactic3(tac) :=
  eapply does_bind_settling; [ apply does_settle; tac | intros ? ? ].
Tactic Notation "bind_r" tactic3(tac) "as" ident(x) ident(H) :=
  eapply does_bind_returning; [ tac | intros x H ].
Tactic Notation "bind_s" tactic3(tac) "as" ident(x) ident(H) :=
  eapply does_bind_settling; [ tac | intros x H ].
Tactic Notation "bind_rs" tactic3(tac) "as" ident(x) ident(H) :=
  eapply does_bind_settling; [ apply does_settle; tac | intros x H ].
Ltac done_r := apply does_ret; exact I.

Lemma does_run {A} (m : M A) fns http (R : A -> Prop) st :
  does m fns http (returning R) ->
  exists a st' new,
    run m st = (Ret a, st') /\ trace st' = trace st ++ new /\
    Forall (fun e => allowed fns http e = true) new /\ R a.
Proof.
  intros Hm. destruct (Hm st) as (new & Ht & Hall & Hret).
  destruct (run m st) as [o st'] eqn:Hrun. simpl in Ht, Hret.
  destruct o as [a| | |]; try contradiction.
  exists a, st', new. auto.
Qed.

(** * Profile normalization *)

Lemma coalesce_defined a b : nullish b = false -> nullish (coalesce a b) = false.
Proof. unfold coalesce. destruct (nullish a) eqn:E; auto. Qed.

Lemma coalesce_absent a b : nullish a = true -> coalesce a b = b.
Proof. unfold coalesce. intros ->. reflexivity. Qed.

Lemma coalesce_present a b : nullish a = false -> coalesce a b = a.
Proof. unfold coalesce. intros ->. reflexivity. Qed.

(** What [extractUserData] returns, when it returns. *)
Lemma extractUserData_inv raw u :
  extractUserData raw = Some u ->
  exists gameData userInfo,
    getProp raw "gameData" = Some gameData /\
    getProp raw "userData" = Some userInfo /\
    getProp gameData "balance" = Some (balance u) /\
    getProp userInfo "username" = Some (username u) /\
    getProp userInfo "firstname" = Some (firstname u) /\
    getProp userInfo "wallet" = Some (wallet u) /\
    claimStreak u =
      mkClaimStreak (getPropOpt (getPropOpt raw "claimStreakData") "lastClaimDate")
                    (getPropOpt (getPropOpt raw "claimStreakData") "claimStreak") /\
    allocation u =
      let allocationData := getPropOpt raw "allocationData" in
      mkAllocation (coalesce (getPropOpt allocationData "hamster") hamster0)
                   (coalesce (getPropOpt allocationData "telegram") telegram0)
                   (coalesce (getPropOpt allocationData "paws") paws0)
                   (coalesce (getPropOpt allocationData "dogs") dogs0)
                   (coalesce (getPropOpt allocationData "notcoin") notcoin0)
                   (coalesce (getPropOpt allocationData "total") total0).
Proof.
  unfold extractUserData.
  destruct (getProp raw "gameData") as [gameData|] eqn:Hg; [|discriminate].
  destruct (getProp raw "userData") as [userInfo|] eqn:Hu; [|discriminate].
  destruct (getProp gameData "balance") as [b|] eqn:Hb; [|discriminate].
  destruct (getProp userInfo "username") as [n|] eqn:Hn; [|discriminate].
  destruct (getProp userInfo "firstname") as [f|] eqn:Hf; [|discriminate].
  destruct (getProp userInfo "wallet") as [w|] eqn:Hw; [|discriminate].
  intros [= <-]. exists gameData, userInfo. simpl. repeat split; auto.
Qed.

Lemma extractUserData_populated raw u :
  extractUserData raw = Some u -> populated (allocation u).
Proof.
  intros H. apply extractUserData_inv in H.
  destruct H as (? & ? & _ & _ & _ & _ & _ & _ & _ & ->).
  repeat split; simpl; apply coalesce_defined; reflexivity.
Qed.

(** * Frames of the engine's methods

    Which methods return normally whatever the network answers, and which
    events they can add to the trace. *)

Section Frames.

Context (env : Env).

Lemma defined_does response fns http :
  does (defined response) fns http (settling anything).
Proof. unfold defined. apply does_orTypeError. intros; exact I. Qed.

Lemma statusAndSuccess_does response code fns http :
  does (statusAndSuccess response code) fns http (settling anything).
Proof.
  unfold statusAndSuccess. destruct (Z.eqb _ _).
  - eapply does_post; [apply does_prop|]. intros []; simpl; auto. intros; exact I.
  - apply does_ret. exact I.
Qed.

Lemma authenticate_does initData fns :
  existsb (String.eqb "authenticate") fns = true ->
  does (authenticate env initData) fns true (returning anything).
Proof.
  intros Hfn. unfold authenticate.
  bind_r (apply does_called; exact Hfn).
  apply does_tryCatch; [|intros; done_r].
  bind_s (apply makeRequest_does).
  bind_s (apply defined_does).
  bind_s (apply statusAndSuccess_does).
  destruct (truthy _); [|done_r].
  bind_s (apply does_prop).
  bind_s (apply does_orTypeError; intros; exact I) as tu Htu.
  destruct tu as [token userData].
  bind_s (apply does_orTypeError; intros; exact I).
  done_r.
Qed.

Lemma getUserInfo_does token fns :
  existsb (String.eqb "getUserInfo") fns = true ->
  does (getUserInfo env token) fns true (returning extracted).
Proof.
  intros Hfn. unfold getUserInfo.
  bind_r (apply does_called; exact Hfn).
  apply does_tryCatch; [|intros; apply does_ret; exact I].
  bind_s (apply makeRequest_does).
  bind_s (apply defined_does).
  bind_s (apply statusAndSuccess_does).
  destruct (truthy _); [|apply does_ret; exact I].
  bind_s (apply does_prop) as raw Hraw.
  eapply does_bind_settling
    with (R1 := fun u => extractUserData raw = Some u);
    [apply does_orTypeError; auto | intros u Hu].
  apply does_ret. simpl. eauto.
Qed.

Lemma linkWallet_does token wallet fns :
  existsb (String.eqb "linkWallet") fns = true ->
  does (linkWallet env token wallet) fns true (returning anything).
Proof.
  intros Hfn. unfold linkWallet.
  bind_r (apply does_called; exact Hfn).
  apply does_tryCatch; [|intros; done_r].
  bind_s (apply makeRequest_does).
  bind_s (apply defined_does).
  bind_s (apply statusAndSuccess_does).
  done_r.
Qed.

(** *** TokenManager *)

Lemma getToken_does userId fns http :
  does (getToken env userId) fns http (settling anything).
Proof.
  intros st. exists []. unfold run, getToken.
  destruct (readProperty _ _ _); simpl; rewrite app_nil_r;
    (split; [reflexivity|]; split; [constructor | exact I]).
Qed.

Lemma getNow_does fns http : does (getNow env) fns http (returning anything).
Proof.
  intros st. exists []. simpl. rewrite app_nil_r.
  split; [reflexivity|]. split; [constructor | exact I].
Qed.

Lemma setToken_does userId token fns http :
  does (setToken env userId token) fns http (settling anything).
Proof.
  intros st. exists []. unfold run, setToken.
  destruct (writeProperty _ _ _); simpl; rewrite app_nil_r;
    (split; [reflexivity|]; split; [constructor | exact I]).
Qed.

Lemma writeTokens_does fns http : does (writeTokens env) fns http (settling anything).
Proof.
  intros st. exists [EWriteTokens (tokens st)]. unfold run, writeTokens.
  destruct (writeFileSync env (trace st)); simpl;
    (split; [reflexivity|]; split; [repeat constructor | exact I]).
Qed.

Lemma saveToken_does userId token fns http :
  does (saveToken env userId token) fns http (returning anything).
Proof.
  unfold saveToken. apply does_tryCatch; [|intros; apply does_log].
  bind_s (apply setToken_does).
  bind_s (apply writeTokens_does).
  apply does_settle, does_log.
Qed.

Lemma splitToken_does token fns http :
  does (splitToken token) fns http (settling anything).
Proof. destruct token; simpl; first [apply does_ret | apply does_throw]; exact I. Qed.

Lemma fromSeconds_does exp fns http :
  does (fromSeconds exp) fns http (settling anything).
Proof. destruct exp; simpl; first [apply does_ret | apply does_throw]; exact I. Qed.

Lemma isExpired_does token fns http :
  does (isExpired env token) fns http (returning anything).
Proof.
  unfold isExpired. apply does_tryCatch.
  2:{ intros. bind_r (apply does_log). done_r. }
  bind_s (apply splitToken_does).
  bind_s (apply does_orTypeError; intros; exact I).
  bind_s (apply does_orThrow; intros; exact I).
  bind_rs (apply getNow_does).
  bind_s (apply does_prop).
  destruct (truthy _).
  - bind_s (apply fromSeconds_does).
    bind_rs (apply does_log). done_r.
  - bind_rs (apply does_log). done_r.
Qed.

(** *** QuestManager *)

Lemma unclaimed_defined quest b : unclaimed quest = Some b -> nullish quest = false.
Proof.
  unfold unclaimed. destruct (getProp quest "progress") eqn:E; [|discriminate].
  intros _. eapply getProp_nullish; eauto.
Qed.

(** The quests that [filterUnclaimed] keeps are those whose
    [progress.claimed] is falsy, in their order; every quest of the list
    has a readable [progress.claimed]. *)
Lemma filterUnclaimed_spec quests kept :
  filterUnclaimed quests = Some kept ->
  kept = List.filter (fun q => match unclaimed q with Some true => true | _ => false end) quests
  /\ Forall (fun q => exists b, unclaimed q = Some b) quests.
Proof.
  revert kept. induction quests as [|quest rest IH]; simpl; intros kept H.
  - inversion H. auto.
  - destruct (unclaimed quest) as [keep|] eqn:Hq; [|discriminate].
    destruct (filterUnclaimed rest) as [rest'|]; [|discriminate].
    destruct (IH rest' eq_refl) as [-> Hall].
    inversion H; subst. split; [|constructor; eauto].
    destruct keep; reflexivity.
Qed.

Lemma filterUnclaimed_kept quests kept :
  filterUnclaimed quests = Some kept ->
  Forall (fun q => In q quests /\ unclaimed q = Some true) kept.
Proof.
  intros H. apply filterUnclaimed_spec in H. destruct H as [-> _].
  apply List.Forall_forall. intros q Hq. apply List.filter_In in Hq.
  destruct Hq as [Hin Hq]. split; [exact Hin|].
  destruct (unclaimed q) as [[]|]; congruence.
Qed.

Lemma getQuestsList_does token fns :
  existsb (String.eqb "getQuestsList") fns = true ->
  does (getQuestsList env token) fns true (returning listed).
Proof.
  intros Hfn. unfold getQuestsList.
  bind_r (apply does_called; exact Hfn).
  apply does_tryCatch; [|intros; apply does_ret; exact I].
  bind_s (apply makeRequest_does).
  bind_s (apply defined_does).
  bind_s (apply statusAndSuccess_does).
  destruct (truthy _); [|apply does_ret; exact I].
  bind_s (apply does_prop) as list Hlist.
  destruct list as [| | | | |quests|]; try (apply does_throw; exact I).
  eapply does_bind_settling
    with (R1 := fun kept => filterUnclaimed quests = Some kept);
    [apply does_orTypeError; auto | intros kept Hkept].
  apply does_ret. simpl. eauto.
Qed.

Lemma completeQuest_does token questId fns :
  existsb (String.eqb "completeQuest") fns = true ->
  does (completeQuest env token questId) fns true (returning anything).
Proof.
  intros Hfn. unfold completeQuest.
  bind_r (apply does_called; exact Hfn).
  apply does_tryCatch; [|intros; done_r].
  bind_s (apply makeRequest_does).
  bind_s (apply defined_does).
  bind_s (apply does_prop).
  bind_s (apply does_prop).
  destruct (_ && _); [done_r|].
  destruct (_ && _).
  - bind_rs (apply does_log). done_r.
  - bind_rs (destruct (isFalse _); [apply does_log | done_r]). done_r.
Qed.

Lemma claimQuest_does token questId questData fns :
  existsb (String.eqb "claimQuest") fns = true ->
  does (claimQuest env token questId questData) fns true (returning anything).
Proof.
  intros Hfn. unfold claimQuest.
  bind_r (apply does_called; exact Hfn).
  apply does_tryCatch; [|intros; done_r].
  bind_s (apply makeRequest_does) as response Hresponse.
  destruct response; [|done_r].
  bind_s (apply does_prop).
  bind_s (apply does_orTypeError; intros; exact I).
  bind_s (apply does_prop).
  bind_s (apply does_prop).
  bind_rs (apply does_log). done_r.
Qed.

Lemma processQuest_does token quest fns :
  nullish quest = false ->
  existsb (String.eqb "processQuest") fns = true ->
  existsb (String.eqb "completeQuest") fns = true ->
  existsb (String.eqb "claimQuest") fns = true ->
  does (processQuest env token quest) fns true (returning anything).
Proof.
  intros Hq H1 H2 H3. unfold processQuest.
  bind_r (apply does_called; exact H1).
  bind_r (apply does_prop_defined; exact Hq).
  bind_r (apply completeQuest_does; exact H2) as completeResult Hc.
  destruct completeResult as [[payload|]|error].
  - done_r.
  - bind_r (apply claimQuest_does; exact H3) as claimResult Hcl.
    destruct claimResult; [done_r|].
    bind_r (apply does_prop_defined; exact Hq). apply does_log.
  - bind_r (apply does_prop_defined; exact Hq). apply does_log.
Qed.

Lemma forQuests_does token quests fns :
  Forall (fun q => nullish q = false) quests ->
  existsb (String.eqb "processQuest") fns = true ->
  existsb (String.eqb "completeQuest") fns = true ->
  existsb (String.eqb "claimQuest") fns = true ->
  does (forQuests env token quests) fns true (returning anything).
Proof.
  intros Hall H1 H2 H3. induction Hall as [|quest rest Hq _ IH]; simpl.
  - done_r.
  - bind_r (apply does_prop_defined; exact Hq).
    bind_r (apply does_log).
    bind_r (apply processQuest_does; assumption).
    bind_r (apply does_sleep).
    exact IH.
Qed.

Lemma listed_defined kept :
  listed (Success kept) -> Forall (fun q => nullish q = false) kept.
Proof.
  intros [quests H]. apply filterUnclaimed_kept in H.
  eapply Forall_impl; [exact H|]. simpl. intros q [_ Hq].
  eapply unclaimed_defined; eauto.
Qed.

Lemma processQuests_does token fns :
  existsb (String.eqb "getQuestsList") fns = true ->
  existsb (String.eqb "processQuest") fns = true ->
  existsb (String.eqb "completeQuest") fns = true ->
  existsb (String.eqb "claimQuest") fns = true ->
  does (processQuests env token) fns true (returning anything).
Proof.
  intros H0 H1 H2 H3. unfold processQuests.
  apply does_tryCatch; [|intros; apply does_log].
  bind_rs (apply getQuestsList_does; exact H0) as questsResult Hr.
  destruct questsResult as [kept|error].
  - apply does_settle, forQuests_does; auto using listed_defined.
  - apply does_settle, does_log.
Qed.

(** *** PawsClient *)

Lemma ensureWalletLinked_does token walletAddress fns :
  existsb (String.eqb "linkWallet") fns = true ->
  does (ensureWalletLinked env token walletAddress) fns true (returning anything).
Proof.
  intros Hfn. unfold ensureWalletLinked.
  bind_r (apply linkWallet_does; exact Hfn).
  destruct (truthy _); apply does_log.
Qed.

(** [ensureValidToken] once the cached value has been read. *)
Lemma refreshToken_does userId accountData userToken fns :
  existsb (String.eqb "authenticate") fns = true ->
  does (refresh ← (if negb (truthy userToken) then ret true else isExpired env userToken);
        if refresh : bool then
          log Warn [Lit "New token needed for user "; Val userId];;
          authResult ← authenticate env accountData;
          match authResult with
          | Failure error =>
              log Error [Lit "Login failed! "; Lit error];;
              ret JNull
          | Success (token, _) =>
              saveToken env userId token;;
              ret token
          end
        else ret userToken) fns true (returning anything).
Proof.
  intros Hfn.
  eapply does_bind_returning with (R1 := anything).
  { destruct (negb _); [done_r | apply isExpired_does]. }
  intros refresh _. destruct refresh; [|done_r].
  bind_r (apply does_log).
  bind_r (apply authenticate_does; exact Hfn) as authResult Ha.
  destruct authResult as [[token user]|error].
  - bind_r (apply saveToken_does). done_r.
  - bind_r (apply does_log). done_r.
Qed.

(** With a token object to read, [ensureValidToken] returns. *)
Lemma ensureValidToken_returns userId accountData fns st :
  existsb (String.eqb "authenticate") fns = true ->
  store st <> NullStore ->
  exists token st' new,
    run (ensureValidToken env userId accountData) st = (Ret token, st') /\
    trace st' = trace st ++ new /\
    Forall (fun e => allowed fns true e = true) new.
Proof.
  intros Hfn Hobj. unfold ensureValidToken. rewrite run_bind.
  unfold getToken at 1, run at 1.
  destruct (store st) as [|own proto] eqn:Hstore; [contradiction|].
  cbn [readProperty].
  destruct (does_run _ _ _ _ st (refreshToken_does userId accountData
              match own !! toPropertyKey env userId with
              | Some v => v
              | None =>
                  match proto with
                  | ObjectPrototype =>
                      if hasName (toPropertyKey env userId) objectPrototype
                      then inheritedMember else JUndefined
                  | Reparented JNull => JUndefined
                  | Reparented p => inherited env p (toPropertyKey env userId)
                  end
              end fns Hfn))
    as (token & st' & new & Hrun & Ht & Hall & _).
  exists token, st', new. auto.
Qed.

Lemma logUserInfo_does userInfo fns http :
  populated (allocation userInfo) ->
  does (logUserInfo userInfo) fns http (returning anything).
Proof.
  intros (Hh & Ht & Hp & Hd & Hn & _). unfold logUserInfo.
  repeat first [ bind_r (apply does_log)
               | bind_r (apply does_prop_defined; assumption) ].
  apply does_log.
Qed.

End Frames.

(** * Start-up *)

Lemma loadWallets_run env st :
  run (loadWallets env) st = (Ret (loadedWallets env), after st (walletWarnings env)).
Proof.
  unfold loadWallets, loadedWallets, walletWarnings, run, tryCatch.
  destruct (walletTxt env); simpl; rewrite ?after_nil; reflexivity.
Qed.

Lemma validateWalletFile_run env wallets content st :
  dataTxt env = Content content ->
  run (validateWalletFile env wallets) st =
  if Nat.eqb (length wallets) (length (fileLines content))
  then (Ret true, st)
  else (Ret false, after st [mismatchLog (length wallets) (length (fileLines content))]).
Proof.
  intros H. unfold validateWalletFile. rewrite H. simpl readFileSync.
  rewrite run_bind, run_ret.
  destruct (Nat.eqb _ _); reflexivity.
Qed.

(** [main] with the two files in step: the banner, then the cycles. *)
Lemma main_run env cycles wallets content st :
  dataTxt env = Content content ->
  length wallets = length (fileLines content) ->
  run (main env cycles wallets) st
  = run (mainLoop env cycles wallets (fileLines content)) (after st [EBanner]).
Proof.
  intros H Hlen. unfold main.
  rewrite run_bind, run_emit, run_bind.
  rewrite (validateWalletFile_run env wallets content _ H).
  rewrite Hlen, Nat.eqb_refl. simpl negb. cbv iota.
  rewrite run_bind, run_ret, H. reflexivity.
Qed.

Lemma callsTo_walletWarnings env fn : callsTo fn (walletWarnings env) = [].
Proof. unfold walletWarnings. destruct (walletTxt env); reflexivity. Qed.

Lemma requests_walletWarnings env : requests (walletWarnings env) = [].
Proof. unfold walletWarnings. destruct (walletTxt env); reflexivity. Qed.

(** C9.  When wallet.txt and data.txt do not hold the same number of
    entries, the program logs the mismatch and exits with status 1 before
    the first cycle: no request has been handed to axios, no method of the
    engine (authenticate, getUserInfo, linkWallet, the quest methods) has
    been entered, and the token map and token.json are untouched. *)
Theorem mismatch_refuses_to_start env cycles st content :
  dataTxt env = Content content ->
  length (loadedWallets env) <> length (fileLines content) ->
  exists new,
    run (start env cycles) st = (Exit 1, after st new) /\
    requests new = [] /\
    (forall fn, callsTo fn new = []).
Proof.
  intros Hdata Hlen.
  exists (walletWarnings env
          ++ [EBanner; mismatchLog (length (loadedWallets env)) (length (fileLines content))]).
  split; [|split].
  - unfold start. rewrite run_bind, loadWallets_run, run_tryCatch.
    unfold main. rewrite run_bind, run_emit, run_bind.
    rewrite (validateWalletFile_run env _ content _ Hdata).
    apply Nat.eqb_neq in Hlen. rewrite Hlen.
    rewrite !after_after. reflexivity.
  - rewrite requests_app, requests_walletWarnings. reflexivity.
  - intros fn. rewrite callsTo_app, callsTo_walletWarnings. reflexivity.
Qed.

(** * Transport: the retry policy *)

(** Whatever the policy, the loop hands at most [maxRetries] requests to
    axios. *)
Lemma makeRequestLoop_bound env config maxRetries retryDelay fuel : forall attempt st,
  exists new,
    snd (run (makeRequestLoop env fuel config attempt maxRetries retryDelay) st)
      = after st new /\
    (length (requests new) <= Z.to_nat (maxRetries + 1 - attempt))%nat.
Proof.
  induction fuel as [|fuel IH]; intros attempt st.
  - exists []. rewrite after_nil. split; [reflexivity | simpl; lia].
  - rewrite makeRequestLoop_step.
    destruct (Z.leb_spec attempt maxRetries) as [Hle|Hgt].
    2:{ exists []. rewrite after_nil. split; [reflexivity | simpl; lia]. }
    destruct (axios env (trace st) config) as [error|response].
    2:{ exists [EHttp config]. split; [reflexivity | simpl; lia]. }
    destruct (Z.eqb_spec attempt maxRetries) as [Heq|Hne].
    { exists [EHttp config]. split; [reflexivity | simpl; lia]. }
    destruct (IH (attempt + 1)
                 (after st [EHttp config; retryWarning attempt maxRetries retryDelay error;
                            ESleep retryDelay])) as (new & Hsnd & Hlen).
    exists ([EHttp config; retryWarning attempt maxRetries retryDelay error;
             ESleep retryDelay] ++ new).
    split; [rewrite Hsnd, after_after; reflexivity|].
    rewrite requests_app, length_app. simpl. lia.
Qed.

Lemma makeRequest_transport env config st :
  exists new,
    snd (run (makeRequest env config defaultMaxRetries defaultRetryDelay) st) = after st new /\
    Forall (transportEvent config) new /\
    (1 <= length (requests new) <= 3)%nat.
Proof.
  pose proof (makeRequest_cases env config st) as H.
  destruct (axios env (trace st) config) as [e1|r1].
  2:{ rewrite H. eexists. split; [reflexivity|].
      split; [repeat constructor | simpl; lia]. }
  destruct (axios env (trace st ++ failedAttempt config 1 e1) config) as [e2|r2].
  2:{ rewrite H. eexists. split; [reflexivity|].
      split; [repeat constructor | simpl; lia]. }
  destruct (axios env _ config) as [e3|r3];
    rewrite H; eexists; (split; [reflexivity|]);
    (split; [repeat constructor | simpl; lia]).
Qed.

(** C8.  A request with the default policy makes at most three attempts,
    five seconds apart.  The first attempt that succeeds gives the result
    of the call -- in particular when the first two throw and the third
    succeeds, after two warnings and two pauses of 5000 ms; when the third
    attempt fails too, its error is thrown to the caller.  (With any other
    policy the attempts are at most [maxRetries].) *)
Theorem makeRequest_three_attempts env config st :
  let request := makeRequest env config defaultMaxRetries defaultRetryDelay in
  match axios env (trace st) config with
  | inr r1 => run request st = (Ret (Some r1), after st [EHttp config])
  | inl e1 =>
      match axios env (trace st ++ failedAttempt config 1 e1) config with
      | inr r2 =>
          run request st
          = (Ret (Some r2), after st (failedAttempt config 1 e1 ++ [EHttp config]))
      | inl e2 =>
          match axios env (trace st ++ failedAttempt config 1 e1
                                    ++ failedAttempt config 2 e2) config with
          | inr r3 =>
              run request st
              = (Ret (Some r3),
                 after st (failedAttempt config 1 e1 ++ failedAttempt config 2 e2
                           ++ [EHttp config]))
          | inl e3 =>
              run request st
              = (Throw e3,
                 after st (failedAttempt config 1 e1 ++ failedAttempt config 2 e2
                           ++ [EHttp config]))
          end
      end
  end
  /\ (exists new,
        snd (run request st) = after st new /\
        Forall (transportEvent config) new /\
        (1 <= length (requests new) <= 3)%nat)
  /\ defaultMaxRetries = 3 /\ defaultRetryDelay = 5000
  /\ (forall maxRetries retryDelay,
        exists new,
          snd (run (makeRequest env config maxRetries retryDelay) st) = after st new /\
          (length (requests new) <= Z.to_nat maxRetries)%nat).
Proof.
  intros request. split; [apply makeRequest_cases|].
  split; [apply makeRequest_transport|]. split; [reflexivity|]. split; [reflexivity|].
  intros maxRetries retryDelay. unfold makeRequest.
  destruct (makeRequestLoop_bound env config maxRetries retryDelay
              (S (Z.to_nat maxRetries)) 1 st) as (new & Hsnd & Hlen).
  exists new. split; [exact Hsnd|].
  replace (maxRetries + 1 - 1) with maxRetries in Hlen by lia. exact Hlen.
Qed.

(** * The quest engine *)

Lemma callsTo_transport fn config new :
  Forall (transportEvent config) new -> callsTo fn new = [].
Proof.
  induction 1 as [|e new He _ IH]; [reflexivity|].
  change (e :: new) with ([e] ++ new). rewrite callsTo_app, IH.
  destruct e; simpl in He; try contradiction; reflexivity.
Qed.

Lemma transport_not_done config new title reward :
  Forall (transportEvent config) new -> ~ In (doneLog title reward) new.
Proof.
  intros Hall Hin. rewrite List.Forall_forall in Hall.
  apply Hall in Hin. exact Hin.
Qed.

Section Quests.

Context (env : Env).

(** [claimQuest] when the request is answered and the reward can be read. *)
Lemma claimQuest_answered token questId questData st response st1 title reward :
  run (makeRequest env (claimConfig token questId) defaultMaxRetries defaultRetryDelay)
      (after st [ECall "claimQuest" [token; questId; questData]])
    = (Ret (Some response), st1) ->
  questReward questData = Some reward ->
  getProp questData "title" = Some title ->
  run (claimQuest env token questId questData) st
  = (Ret (Success tt), after st1 [doneLog title reward]).
Proof.
  intros Hrun Hreward Htitle. unfold claimQuest, called.
  rewrite run_bind, run_emit, run_tryCatch.
  fold (claimConfig token questId). rewrite (run_bind_ret _ _ _ _ _ Hrun).
  unfold questReward in Hreward. unfold prop, run, bind.
  destruct (getProp questData "rewards") as [rewards|]; [|discriminate]. cbn.
  destruct (getIndex0 rewards) as [first|]; [|discriminate]. cbn.
  rewrite Hreward. cbn. rewrite Htitle. reflexivity.
Qed.

(** [claimQuest] when the request is answered but the quest has no first
    reward to read. *)
Lemma claimQuest_unrewarded token questId questData st response st1 :
  run (makeRequest env (claimConfig token questId) defaultMaxRetries defaultRetryDelay)
      (after st [ECall "claimQuest" [token; questId; questData]])
    = (Ret (Some response), st1) ->
  questReward questData = None ->
  exists error,
    run (claimQuest env token questId questData) st = (Ret (Failure error), st1).
Proof.
  intros Hrun Hreward. unfold claimQuest, called.
  rewrite run_bind, run_emit, run_tryCatch.
  fold (claimConfig token questId). rewrite (run_bind_ret _ _ _ _ _ Hrun).
  unfold questReward in Hreward. unfold prop, run, bind.
  destruct (getProp questData "rewards") as [rewards|]; [|eexists; reflexivity]. cbn.
  destruct (getIndex0 rewards) as [first|]; [|eexists; reflexivity]. cbn.
  rewrite Hreward. eexists; reflexivity.
Qed.

(** [claimQuest] when the transport gives up. *)
Lemma claimQuest_unanswered token questId questData st error st1 :
  run (makeRequest env (claimConfig token questId) defaultMaxRetries defaultRetryDelay)
      (after st [ECall "claimQuest" [token; questId; questData]])
    = (Throw error, st1) ->
  run (claimQuest env token questId questData) st = (Ret (Failure (message error)), st1).
Proof.
  intros Hrun. unfold claimQuest, called.
  rewrite run_bind, run_emit, run_tryCatch.
  fold (claimConfig token questId). rewrite (run_bind_throw _ _ _ _ _ Hrun).
  reflexivity.
Qed.

(** [completeQuest] on an answer: the four-way branch. *)
Lemma completeQuest_answered token questId st response st1 success payload :
  run (makeRequest env (completeConfig token questId) defaultMaxRetries defaultRetryDelay)
      (after st [ECall "completeQuest" [token; questId]])
    = (Ret (Some response), st1) ->
  getProp (data response) "success" = Some success ->
  getProp (data response) "data" = Some payload ->
  run (completeQuest env token questId) st =
  if ok2xx (status response) && truthy success then (Ret (Success (Completed payload)), st1)
  else if ok2xx (status response) && isTrue payload
       then (Ret (Success NeedsClaim), after st1 [needsClaimLog questId])
       else (Ret (Failure "Failed to complete quest"),
             if isFalse payload
             then after st1 [ELog Warn [Lit "Requirements not met to complete quest ";
                                        Val questId]]
             else st1).
Proof.
  intros Hrun Hs Hd. unfold completeQuest, called.
  rewrite run_bind, run_emit, run_tryCatch.
  fold (completeConfig token questId). rewrite (run_bind_ret _ _ _ _ _ Hrun).
  unfold defined, prop. simpl orTypeError. rewrite run_bind, run_ret.
  rewrite Hs. simpl orTypeError. rewrite run_bind, run_ret.
  rewrite Hd. simpl orTypeError. rewrite run_bind, run_ret.
  destruct (ok2xx (status response) && truthy success); [reflexivity|].
  destruct (ok2xx (status response) && isTrue payload); [reflexivity|].
  destruct (isFalse payload); reflexivity.
Qed.

End Quests.

Lemma processQuest_start env token quest questId st :
  getProp quest "_id" = Some questId ->
  run (processQuest env token quest) st =
  match run (completeQuest env token questId) (after st [ECall "processQuest" [token; quest]]) with
  | (Ret (Failure error), st1) =>
      run (bind (prop quest "title")
             (fun title => log Error [Lit "Error completing quest "; Val title; Lit ": ";
                                      Lit error])) st1
  | (Ret (Success (Completed _)), st1) => (Ret tt, st1)
  | (Ret (Success NeedsClaim), st1) =>
      match run (claimQuest env token questId quest) st1 with
      | (Ret (Failure error), st2) =>
          run (bind (prop quest "title")
                 (fun title => log Error [Lit "Error claiming quest reward "; Val title;
                                          Lit ": "; Lit error])) st2
      | (Ret (Success _), st2) => (Ret tt, st2)
      | (Throw e, st2) => (Throw e, st2)
      | (Exit c, st2) => (Exit c, st2)
      | (Pending, st2) => (Pending, st2)
      end
  | (Throw e, st1) => (Throw e, st1)
  | (Exit c, st1) => (Exit c, st1)
  | (Pending, st1) => (Pending, st1)
  end.
Proof.
  intros Hid. unfold processQuest, called.
  rewrite run_bind, run_emit. unfold prop at 1. rewrite Hid.
  simpl orTypeError. rewrite run_bind, run_ret, run_bind.
  destruct (run (completeQuest env token questId) _) as [[[[payload|]|error]|e|c|] st1];
    try reflexivity.
  rewrite run_bind.
  destruct (run (claimQuest env token questId quest) st1) as [[[[]|error]|e|c|] st2];
    reflexivity.
Qed.

(** C4 (as the code has it).  When the answer to completeQuest has status
    200 or 201, a falsy success flag and a body [data === true], the engine
    calls claimQuest exactly once for that quest; the quest is then marked
    done if the claim request is answered (and the reward of the quest can
    be read), and not if the transport gives up on it.  When the body is
    [data === false], claimQuest is never called. *)
Theorem needsClaim_claims_once env token quest questId st response st1 success payload :
  getProp quest "_id" = Some questId ->
  run (makeRequest env (completeConfig token questId) defaultMaxRetries defaultRetryDelay)
      (after st [ECall "processQuest" [token; quest]; ECall "completeQuest" [token; questId]])
    = (Ret (Some response), st1) ->
  getProp (data response) "success" = Some success ->
  getProp (data response) "data" = Some payload ->
  exists st' new,
    run (processQuest env token quest) st = (Ret tt, st') /\
    trace st' = trace st ++ new /\
    (ok2xx (status response) = true -> truthy success = false -> payload = JBool true ->
       callsTo "claimQuest" new = [[token; questId; quest]] /\
       let claim :=
         run (makeRequest env (claimConfig token questId) defaultMaxRetries defaultRetryDelay)
             (after st1 [needsClaimLog questId; ECall "claimQuest" [token; questId; quest]]) in
       ((exists answer, fst claim = Ret (Some answer)) ->
        (exists reward, questReward quest = Some reward) -> markedDone new) /\
       ((exists error, fst claim = Throw error) -> ~ markedDone new)) /\
    (payload = JBool false -> callsTo "claimQuest" new = []).
Proof.
  intros Hid Hrun Hsuccess Hpayload.
  assert (Hq : nullish quest = false) by (eapply getProp_nullish; eauto).
  destruct (getProp_defined quest "title" Hq) as [title Htitle].
  set (pq := ECall "processQuest" [token; quest]) in *.
  set (cq := ECall "completeQuest" [token; questId]) in *.
  set (cl := ECall "claimQuest" [token; questId; quest]) in *.
  destruct (makeRequest_transport env (completeConfig token questId) (after st [pq; cq]))
    as (new1 & Hst1 & Htr1 & _).
  rewrite Hrun in Hst1. simpl in Hst1. rewrite after_after in Hst1.
  pose proof (completeQuest_answered env token questId (after st [pq]) response st1
                success payload) as Hc.
  rewrite after_after in Hc. specialize (Hc Hrun Hsuccess Hpayload).
  pose proof (processQuest_start env token quest questId st Hid) as Hstart.
  fold pq in Hstart. rewrite Hc in Hstart. clear Hc.
  assert (Hcalls1 : callsTo "claimQuest" ([pq; cq] ++ new1) = []).
  { rewrite callsTo_app, (callsTo_transport _ _ _ Htr1). reflexivity. }
  destruct (ok2xx (status response) && truthy success) eqn:E1.
  { (* completed on the spot *)
    exists st1, ([pq; cq] ++ new1). rewrite Hstart, Hst1.
    split; [reflexivity|]. split; [reflexivity|]. split; [|auto].
    intros Hok Hfalsy _. rewrite Hok, Hfalsy in E1. discriminate. }
  destruct (ok2xx (status response) && isTrue payload) eqn:E2.
  2:{ (* failed or skipped *)
    unfold prop in Hstart. rewrite Htitle in Hstart. simpl orTypeError in Hstart.
    rewrite run_bind, run_ret in Hstart. unfold log in Hstart. rewrite run_emit in Hstart.
    eexists. exists ([pq; cq] ++ new1 ++
      (if isFalse payload
       then [ELog Warn [Lit "Requirements not met to complete quest "; Val questId]]
       else []) ++
      [ELog Error [Lit "Error completing quest "; Val title; Lit ": ";
                   Lit "Failed to complete quest"]]).
    split; [exact Hstart|]. split; [|split].
    - rewrite Hst1. destruct (isFalse payload); simpl; rewrite <- !List.app_assoc; reflexivity.
    - intros Hok _ ->. rewrite Hok in E2. discriminate.
    - intros _. rewrite (List.app_assoc [pq; cq] new1), callsTo_app, Hcalls1.
      destruct (isFalse payload); reflexivity. }
  (* to be claimed *)
  set (st2 := after st1 [needsClaimLog questId; cl]) in *.
  destruct (makeRequest_transport env (claimConfig token questId) st2)
    as (new2 & Hst3 & Htr2 & _).
  destruct (makeRequest_does env (claimConfig token questId) [] st2) as (_ & _ & _ & Hsettles).
  destruct (run (makeRequest env (claimConfig token questId) defaultMaxRetries
                   defaultRetryDelay) st2) as [o st3] eqn:Hclaim.
  simpl in Hst3, Hsettles. subst st3.
  assert (Hcalls : forall tail, callsTo "claimQuest" tail = [] ->
            callsTo "claimQuest" (([pq; cq] ++ new1) ++ [needsClaimLog questId; cl]
                                  ++ new2 ++ tail) = [[token; questId; quest]]).
  { intros tail Htail.
    rewrite (callsTo_app _ ([pq; cq] ++ new1)), Hcalls1.
    change ([needsClaimLog questId; cl] ++ new2 ++ tail)
      with ([needsClaimLog questId; cl] ++ (new2 ++ tail)).
    rewrite !callsTo_app, (callsTo_transport _ _ _ Htr2), Htail.
    reflexivity. }
  assert (Htrace : forall tail,
            trace (after (after st2 new2) tail)
            = trace st ++ ([pq; cq] ++ new1) ++ [needsClaimLog questId; cl] ++ new2 ++ tail).
  { intros tail. unfold st2. rewrite Hst1. simpl. rewrite <- !List.app_assoc. reflexivity. }
  assert (Hquiet : forall tail, (forall t r, ~ In (doneLog t r) tail) ->
            ~ markedDone (([pq; cq] ++ new1) ++ [needsClaimLog questId; cl] ++ new2 ++ tail)).
  { intros tail Htail (t & r & Hin).
    rewrite !in_app_iff in Hin. simpl in Hin.
    destruct Hin as [[[H|[H|[]]]|H]|[[H|[H|[]]]|[H|H]]]; try discriminate H.
    - exact (transport_not_done _ _ _ _ Htr1 H).
    - exact (transport_not_done _ _ _ _ Htr2 H).
    - exact (Htail _ _ H). }
  destruct o as [[answer|]|error|c|]; simpl in Hsettles; try contradiction.
  2:{ destruct Hsettles as [? Hs]; discriminate Hs. }
  - (* the claim is answered *)
    destruct (questReward quest) as [reward|] eqn:Hreward.
    + rewrite (claimQuest_answered env token questId quest (after st1 [needsClaimLog questId])
                 answer (after st2 new2) title reward) in Hstart;
        [| unfold st2 in Hclaim; rewrite after_after; exact Hclaim | exact Hreward | exact Htitle].
      eexists. eexists. split; [exact Hstart|]. split; [apply Htrace|]. split; [|intros ->; discriminate E2 || (simpl in E2; rewrite andb_false_r in E2; discriminate)].
      intros _ _ _. split; [apply Hcalls; reflexivity|]. split.
      * intros _ _. exists title, reward. rewrite !in_app_iff. simpl. auto 10.
      * intros [err Herr]. discriminate Herr.
    + destruct (claimQuest_unrewarded env token questId quest (after st1 [needsClaimLog questId])
                  answer (after st2 new2)) as [err Herr];
        [unfold st2 in Hclaim; rewrite after_after; exact Hclaim | exact Hreward |].
      rewrite Herr in Hstart. unfold prop in Hstart. rewrite Htitle in Hstart.
      simpl orTypeError in Hstart. rewrite run_bind, run_ret in Hstart.
      unfold log in Hstart. rewrite run_emit in Hstart.
      eexists. eexists. split; [exact Hstart|]. split; [apply Htrace|]. split; [|intros ->; simpl in E2; rewrite andb_false_r in E2; discriminate].
      intros _ _ _. split; [apply Hcalls; reflexivity|]. split.
      * intros _ [reward Hr]. discriminate Hr.
      * intros [e He]. discriminate He.
  - (* the transport gave up *)
    rewrite (claimQuest_unanswered env token questId quest (after st1 [needsClaimLog questId])
               error (after st2 new2)) in Hstart;
      [| unfold st2 in Hclaim; rewrite after_after; exact Hclaim].
    unfold prop in Hstart. rewrite Htitle in Hstart.
    simpl orTypeError in Hstart. rewrite run_bind, run_ret in Hstart.
    unfold log in Hstart. rewrite run_emit in Hstart.
    eexists. eexists. split; [exact Hstart|]. split; [apply Htrace|]. split; [|intros ->; simpl in E2; rewrite andb_false_r in E2; discriminate].
    intros _ _ _. split; [apply Hcalls; reflexivity|]. split.
    + intros [a Ha]. discriminate Ha.
    + intros _. apply Hquiet. intros t r [H|[]]. discriminate H.
Qed.

(** ** Which quests are processed *)

Lemma unclaimed_claimedOf quest :
  unclaimed quest = Some true <->
  exists claimed, claimedOf quest = Some claimed /\ truthy claimed = false.
Proof.
  unfold unclaimed, claimedOf.
  destruct (getProp quest "progress") as [progress|].
  - destruct (getProp progress "claimed") as [claimed|].
    + split.
      * intros [= H]. exists claimed. split; [reflexivity|].
        destruct (truthy claimed); [discriminate | reflexivity].
      * intros (c & [= <-] & ->). reflexivity.
    + split; [discriminate | intros (c & H & _); discriminate].
  - split; [discriminate | intros (c & H & _); discriminate].
Qed.

Section QuestCalls.

Context (env : Env).

Lemma completeQuest_calls token questId st :
  exists r st' new,
    run (completeQuest env token questId) st = (Ret r, st') /\
    trace st' = trace st ++ ECall "completeQuest" [token; questId] :: new /\
    Forall (fun e => allowed [] true e = true) new.
Proof.
  unfold completeQuest, called. rewrite run_bind, run_emit.
  match goal with
  | |- context [run ?m (after st ?evs)] =>
      assert (Hm : does m [] true (returning anything))
  end.
  { apply does_tryCatch; [|intros; done_r].
    bind_s (apply makeRequest_does).
    bind_s (apply defined_does).
    bind_s (apply does_prop).
    bind_s (apply does_prop).
    destruct (_ && _); [done_r|].
    destruct (_ && _).
    - bind_rs (apply does_log). done_r.
    - bind_rs (destruct (isFalse _); [apply does_log | done_r]). done_r. }
  destruct (Hm (after st [ECall "completeQuest" [token; questId]]))
    as (new & Htrace & Hall & Hret).
  match goal with
  | |- context [run ?m ?s] => destruct (run m s) as [o st'] eqn:Hrun
  end.
  simpl in Htrace, Hret. destruct o as [r| | |]; try contradiction.
  exists r, st', new. split; [reflexivity|]. split; [|exact Hall].
  rewrite Htrace, <- List.app_assoc. reflexivity.
Qed.

Lemma processQuest_calls token quest st :
  nullish quest = false ->
  exists st' new,
    run (processQuest env token quest) st = (Ret tt, st') /\
    trace st' = trace st ++ new /\
    callsTo "processQuest" new = [[token; quest]] /\
    callsTo "completeQuest" new = [[token; questIdOf quest]].
Proof.
  intros Hq. destruct (getProp_defined quest "_id" Hq) as [questId Hid].
  assert (Hidof : questIdOf quest = questId).
  { unfold questIdOf, getPropOpt. rewrite Hid. reflexivity. }
  unfold processQuest, called. rewrite run_bind, run_emit.
  unfold prop at 1. rewrite Hid. simpl orTypeError. rewrite run_bind, run_ret, run_bind.
  destruct (completeQuest_calls token questId (after st [ECall "processQuest" [token; quest]]))
    as (r & st1 & new1 & Hrun1 & Ht1 & Hall1).
  rewrite Hrun1.
  match goal with
  | |- context [run ?m st1] => assert (Hm : does m ["claimQuest"] true (returning anything))
  end.
  { destruct r as [[payload|]|error].
    - done_r.
    - bind_r (apply claimQuest_does; reflexivity) as claimResult Hcl.
      destruct claimResult; [done_r|].
      bind_r (apply does_prop_defined; exact Hq). apply does_log.
    - bind_r (apply does_prop_defined; exact Hq). apply does_log. }
  destruct (Hm st1) as (new2 & Ht2 & Hall2 & Hret).
  match goal with
  | |- context [run ?m st1] => destruct (run m st1) as [o st2] eqn:Hrun2
  end.
  simpl in Ht2, Hret. destruct o as [[]| | |]; try contradiction.
  exists st2, ([ECall "processQuest" [token; quest]]
               ++ [ECall "completeQuest" [token; questId]] ++ new1 ++ new2).
  split; [reflexivity|]. split; [|split].
  - rewrite Ht2, Ht1. simpl. rewrite <- !List.app_assoc. reflexivity.
  - rewrite !callsTo_app.
    rewrite (callsTo_allowed "processQuest" [] true new1 eq_refl Hall1).
    rewrite (callsTo_allowed "processQuest" ["claimQuest"] true new2 eq_refl Hall2).
    reflexivity.
  - rewrite !callsTo_app.
    rewrite (callsTo_allowed "completeQuest" [] true new1 eq_refl Hall1).
    rewrite (callsTo_allowed "completeQuest" ["claimQuest"] true new2 eq_refl Hall2).
    rewrite Hidof. reflexivity.
Qed.

Lemma forQuests_calls token quests : forall st,
  Forall (fun q => nullish q = false) quests ->
  exists st' new,
    run (forQuests env token quests) st = (Ret tt, st') /\
    trace st' = trace st ++ new /\
    callsTo "processQuest" new = map (fun quest => [token; quest]) quests /\
    callsTo "completeQuest" new = map (fun quest => [token; questIdOf quest]) quests.
Proof.
  induction quests as [|quest rest IH]; intros st Hall.
  - exists st, []. simpl. rewrite app_nil_r. auto.
  - inversion Hall as [|? ? Hq Hrest]; subst.
    destruct (getProp_defined quest "title" Hq) as [title Htitle].
    set (line := ELog Info [Lit "Processing quest: "; Val title]).
    destruct (processQuest_calls token quest (after st [line]) Hq)
      as (st1 & new1 & Hrun1 & Ht1 & Hp1 & Hc1).
    destruct (IH (after st1 [ESleep 2000]) Hrest) as (st2 & new2 & Hrun2 & Ht2 & Hp2 & Hc2).
    exists st2, ([line] ++ new1 ++ [ESleep 2000] ++ new2).
    split; [|split; [|split]].
    + simpl forQuests. unfold prop. rewrite Htitle. simpl orTypeError.
      rewrite run_bind, run_ret, run_bind. unfold log, sleep. rewrite run_emit.
      fold line. rewrite (run_bind_ret _ _ _ _ _ Hrun1), run_bind, run_emit.
      exact Hrun2.
    + rewrite Ht2. simpl. rewrite Ht1. simpl. rewrite <- !List.app_assoc. reflexivity.
    + rewrite !callsTo_app, Hp1, Hp2. reflexivity.
    + rewrite !callsTo_app, Hc1, Hc2. reflexivity.
Qed.

(** A list [getQuestsList] reports is the array of the answer, filtered. *)
Lemma getQuestsList_success token st kept st1 :
  run (getQuestsList env token) st = (Ret (Success kept), st1) ->
  exists response quests,
    run (makeRequest env (listConfig token) defaultMaxRetries defaultRetryDelay)
        (after st [ECall "getQuestsList" [token]]) = (Ret (Some response), st1) /\
    getProp (data response) "data" = Some (JArr quests) /\
    filterUnclaimed quests = Some kept.
Proof.
  unfold getQuestsList, called. rewrite run_bind, run_emit, run_tryCatch.
  fold (listConfig token). rewrite run_bind.
  destruct (run (makeRequest env (listConfig token) defaultMaxRetries defaultRetryDelay) _)
    as [[[response|]|e|c|] st0]; try discriminate.
  simpl defined. rewrite run_bind, run_ret, run_bind.
  unfold statusAndSuccess.
  destruct (Z.eqb (status response) 200).
  2:{ rewrite run_ret. simpl. discriminate. }
  unfold prop. destruct (getProp (data response) "success") as [ok|]; [|discriminate].
  simpl orTypeError. rewrite run_ret.
  destruct (truthy ok); [|discriminate].
  rewrite run_bind.
  destruct (getProp (data response) "data") as [[| | | | |quests|]|] eqn:Hdata;
    try discriminate.
  simpl orTypeError. rewrite run_ret, run_bind.
  destruct (filterUnclaimed quests) as [kept'|] eqn:Hkept; [|discriminate].
  simpl orTypeError. rewrite !run_ret. intros [= <- <-].
  exists response, quests. auto.
Qed.

End QuestCalls.

(** C10 (as the code has it).  Whatever list the service returns, the
    quests handed to processQuest, and from there to completeQuest, are
    exactly the quests of that list that the filter
    [!quest.progress.claimed] keeps, in their order: those whose
    [progress.claimed] is falsy -- [false], but also absent, [null], [0]
    or the empty string.  A quest whose [progress.claimed] is truthy, [true]
    in particular, is never processed; where the field is a boolean, the
    quests processed are those with [false].  When the list cannot be
    obtained, no quest is processed at all. *)
Theorem only_unclaimed_quests_are_processed env token st result st1 :
  run (getQuestsList env token) st = (Ret result, st1) ->
  exists st' new,
    run (processQuests env token) st = (Ret tt, st') /\
    trace st' = trace st1 ++ new /\
    match result with
    | Success kept =>
        (exists response quests,
           run (makeRequest env (listConfig token) defaultMaxRetries defaultRetryDelay)
               (after st [ECall "getQuestsList" [token]]) = (Ret (Some response), st1) /\
           getProp (data response) "data" = Some (JArr quests) /\
           kept = List.filter unclaimedb quests) /\
        callsTo "processQuest" new = map (fun quest => [token; quest]) kept /\
        callsTo "completeQuest" new = map (fun quest => [token; questIdOf quest]) kept /\
        Forall (fun quest =>
                  exists claimed, claimedOf quest = Some claimed /\ truthy claimed = false)
               kept /\
        (forall quest claimed,
           claimedOf quest = Some claimed -> truthy claimed = true -> ~ In quest kept) /\
        (forall quest b,
           In quest kept -> claimedOf quest = Some (JBool b) -> b = false)
    | Failure _ =>
        callsTo "processQuest" new = [] /\ callsTo "completeQuest" new = []
    end.
Proof.
  intros Hrun. unfold processQuests. rewrite run_tryCatch, (run_bind_ret _ _ _ _ _ Hrun).
  destruct result as [kept|error].
  2:{ exists (after st1 [ELog Error [Lit "Error getting quests list: "; Lit error]]).
      eexists. split; [reflexivity|]. split; [reflexivity|]. split; reflexivity. }
  destruct (getQuestsList_success env token st kept st1 Hrun)
    as (response & quests & Hreq & Hdata & Hkept).
  pose proof (filterUnclaimed_kept quests kept Hkept) as Hall.
  assert (Hdef : Forall (fun q => nullish q = false) kept).
  { eapply Forall_impl; [exact Hall|]. simpl. intros q [_ Hq].
    eapply unclaimed_defined; eauto. }
  assert (Hfalsy : forall quest claimed,
            In quest kept -> claimedOf quest = Some claimed -> truthy claimed = false).
  { intros quest claimed Hin Hclaimed. rewrite List.Forall_forall in Hall.
    destruct (Hall quest Hin) as [_ Hq]. apply unclaimed_claimedOf in Hq.
    destruct Hq as (claimed' & Hcl & Hf). congruence. }
  destruct (forQuests_calls env token kept st1 Hdef) as (st' & new & Hfor & Ht & Hp & Hc).
  exists st', new. rewrite Hfor. split; [reflexivity|]. split; [exact Ht|].
  split; [|split; [exact Hp|split; [exact Hc|split; [|split]]]].
  - exists response, quests. split; [exact Hreq|]. split; [exact Hdata|].
    apply filterUnclaimed_spec in Hkept. exact (proj1 Hkept).
  - eapply Forall_impl; [exact Hall|]. simpl. intros q [_ Hq].
    apply unclaimed_claimedOf in Hq. exact Hq.
  - intros quest claimed Hclaimed Htruthy Hin.
    rewrite (Hfalsy quest claimed Hin Hclaimed) in Htruthy. discriminate.
  - intros quest b Hin Hclaimed.
    specialize (Hfalsy quest (JBool b) Hin Hclaimed). exact Hfalsy.
Qed.

(** * Token expiry *)

Lemma isExpired_verdict env token st :
  exists line,
    run (isExpired env token) st
    = (Ret (expiryVerdict env token (clock env (trace st))), after st [line]).
Proof.
  unfold isExpired, expiryVerdict, tokenPayload.
  rewrite run_tryCatch, run_bind.
  destruct token as [| | | |s| |]; try (eexists; reflexivity).
  simpl splitToken. rewrite run_ret, run_bind.
  destruct (split "." s !! 1%nat) as [segment|]; [|eexists; reflexivity].
  simpl orTypeError. rewrite run_ret, run_bind.
  destruct (JSON_parse env (base64_toString env segment)) as [e|payload];
    [eexists; reflexivity|].
  simpl orThrow. rewrite run_ret, run_bind. unfold getNow at 1, run at 1.
  rewrite run_bind. unfold prop.
  destruct (getProp payload "exp") as [exp|]; [|eexists; reflexivity].
  simpl orTypeError. rewrite run_ret.
  destruct (truthy exp) eqn:Hexp; [|eexists; reflexivity].
  rewrite run_bind.
  destruct exp; try (eexists; reflexivity).
Qed.

(** A falsy value in the token map is never judged fresh. *)
Lemma falsy_token_expired env token now :
  truthy token = false -> expiryVerdict env token now = true.
Proof.
  unfold expiryVerdict, tokenPayload. destruct token; try reflexivity.
  simpl. destruct (String.eqb_spec s ""); [|discriminate]. subst. intros _. reflexivity.
Qed.

(** C3 (as the code has it).  [isExpired] never throws.  For a token whose
    middle segment decodes to a payload with a non-zero numeric [exp], it
    answers true exactly when [now > exp].  For a payload whose [exp] is
    absent or falsy (undefined, null, 0, false, the empty string) it answers
    false: the token counts as perpetual.  For a token whose middle segment
    does not decode it answers true, and so it does when the payload is
    [null] or its [exp] is truthy but not a number. *)
Theorem isExpired_answers env token st :
  let now := clock env (trace st) in
  let answer := fst (run (isExpired env token) st) in
  (forall payload exp,
     tokenPayload env token = Some payload ->
     getProp payload "exp" = Some (JNum exp) -> exp <> 0 ->
     exists b, answer = Ret b /\ (b = true <-> now > exp)) /\
  (forall payload exp,
     tokenPayload env token = Some payload ->
     getProp payload "exp" = Some exp -> truthy exp = false ->
     answer = Ret false) /\
  (tokenPayload env token = None -> answer = Ret true) /\
  (forall payload,
     tokenPayload env token = Some payload -> nullish payload = true ->
     answer = Ret true) /\
  (forall payload exp,
     tokenPayload env token = Some payload ->
     getProp payload "exp" = Some exp -> truthy exp = true ->
     (forall n, exp <> JNum n) -> answer = Ret true).
Proof.
  intros now answer. unfold answer.
  destruct (isExpired_verdict env token st) as [line ->]. simpl fst.
  fold now. unfold expiryVerdict.
  split; [|split; [|split; [|split]]].
  - intros payload exp -> -> Hexp. simpl.
    destruct (Z.eqb_spec exp 0) as [|_]; [contradiction|]. simpl.
    exists (Z.ltb exp now). split; [reflexivity|].
    rewrite Z.ltb_lt. lia.
  - intros payload exp -> -> ->. reflexivity.
  - intros ->. reflexivity.
  - intros payload -> Hnull. destruct payload; try discriminate; reflexivity.
  - intros payload exp -> -> -> Hnum.
    destruct exp; try reflexivity. exfalso. eapply Hnum. reflexivity.
Qed.

(** * Profile normalization: the defaults *)

(** C5 (as the code has it).  Whenever [extractUserData] accepts a payload,
    every entry of the allocation aggregate that the payload lacks
    (undefined or null, or the whole allocationData missing) is the
    documented zero-value structure -- for dogs,
    [{initial: 0, converted: 0, percent: 0}] -- and every entry it has is
    kept, so that no entry of the aggregate is ever undefined or null.
    The other fields are copied as the payload has them: balance, username,
    firstname, wallet, and the two claim-streak fields, which are undefined
    when the payload lacks them. *)
Theorem allocation_defaults raw u :
  extractUserData raw = Some u ->
  let allocationData := getPropOpt raw "allocationData" in
  let claimStreakData := getPropOpt raw "claimStreakData" in
  Forall (fun '(name, field, zero) =>
            (nullish (getPropOpt allocationData name) = true ->
             field (allocation u) = zero) /\
            (nullish (getPropOpt allocationData name) = false ->
             field (allocation u) = getPropOpt allocationData name) /\
            nullish (field (allocation u)) = false)
         allocationFields /\
  dogs0 = JObj [("initial", JNum 0); ("converted", JNum 0); ("percent", JNum 0)] /\
  lastClaimDate (claimStreak u) = getPropOpt claimStreakData "lastClaimDate" /\
  currentStreak (claimStreak u) = getPropOpt claimStreakData "claimStreak" /\
  exists gameData userInfo,
    getProp raw "gameData" = Some gameData /\
    getProp raw "userData" = Some userInfo /\
    getProp gameData "balance" = Some (balance u) /\
    getProp userInfo "username" = Some (username u) /\
    getProp userInfo "firstname" = Some (firstname u) /\
    getProp userInfo "wallet" = Some (wallet u).
Proof.
  intros H allocationData claimStreakData.
  destruct (extractUserData_inv raw u H)
    as (gameData & userInfo & Hg & Hu & Hb & Hn & Hf & Hw & Hc & Ha).
  fold allocationData in Ha. fold claimStreakData in Hc.
  split; [|split; [reflexivity|split; [rewrite Hc; reflexivity|
           split; [rewrite Hc; reflexivity|]]]].
  - rewrite Ha. unfold allocationFields.
    repeat constructor; simpl;
      auto using coalesce_absent, coalesce_present, coalesce_defined.
  - exists gameData, userInfo. auto 10.
Qed.

(** * What the methods leave alone *)

Section Preserves.

Context {A B : Type} (P : Event -> Prop).

Lemma preserves_ret (a : A) : preserves P (ret a).
Proof. intros st. exists []. rewrite after_nil. split; [reflexivity | constructor]. Qed.

Lemma preserves_throw (e : JsError) : preserves P (throw e : M A).
Proof. intros st. exists []. rewrite after_nil. split; [reflexivity | constructor]. Qed.

Lemma preserves_bind (m : M A) (k : A -> M B) :
  preserves P m -> (forall a, preserves P (k a)) -> preserves P (bind m k).
Proof.
  intros Hm Hk st. destruct (Hm st) as (new1 & Hs1 & Hall1).
  rewrite run_bind. destruct (run m st) as [o st1]. simpl in Hs1. subst st1.
  destruct o as [a|e|c|]; try (exists new1; split; [reflexivity | exact Hall1]).
  destruct (Hk a (after st new1)) as (new2 & Hs2 & Hall2).
  exists (new1 ++ new2). rewrite Hs2, after_after.
  split; [reflexivity | apply Forall_app; auto].
Qed.

Lemma preserves_tryCatch (body : M A) handler :
  preserves P body -> (forall e, preserves P (handler e)) ->
  preserves P (tryCatch body handler).
Proof.
  intros Hb Hh st. destruct (Hb st) as (new1 & Hs1 & Hall1).
  rewrite run_tryCatch. destruct (run body st) as [o st1]. simpl in Hs1. subst st1.
  destruct o as [a|e|c|]; try (exists new1; split; [reflexivity | exact Hall1]).
  destruct (Hh e (after st new1)) as (new2 & Hs2 & Hall2).
  exists (new1 ++ new2). rewrite Hs2, after_after.
  split; [reflexivity | apply Forall_app; auto].
Qed.

Lemma preserves_orTypeError (o : option A) msg : preserves P (orTypeError o msg).
Proof. destruct o; [apply preserves_ret | apply preserves_throw]. Qed.

Lemma preserves_orThrow (r : JsError + A) : preserves P (orThrow r).
Proof. destruct r; [apply preserves_throw | apply preserves_ret]. Qed.

End Preserves.

Lemma preserves_emit P e : P e -> preserves P (emit e).
Proof. intros He st. exists [e]. split; [reflexivity | repeat constructor; exact He]. Qed.

Lemma preserves_getNow P env : preserves P (getNow env).
Proof. intros st. exists []. rewrite after_nil. split; [reflexivity | constructor]. Qed.

Lemma preserves_getToken P env userId : preserves P (getToken env userId).
Proof.
  intros st. exists []. rewrite after_nil. unfold run, getToken.
  destruct (readProperty _ _ _); (split; [reflexivity | constructor]).
Qed.

(** The retry loop, for a predicate that holds of the request and of every
    log line and pause. *)
Lemma preserves_makeRequest P env config maxRetries retryDelay :
  P (EHttp config) -> (forall lvl msg, P (ELog lvl msg)) -> (forall ms, P (ESleep ms)) ->
  preserves P (makeRequest env config maxRetries retryDelay).
Proof.
  intros Hhttp Hlog Hsleep. unfold makeRequest.
  generalize (S (Z.to_nat maxRetries)) as fuel. generalize 1 as attempt.
  intros attempt fuel. revert attempt.
  induction fuel as [|fuel IH]; intros attempt st.
  - exists []. rewrite after_nil. split; [reflexivity | constructor].
  - rewrite makeRequestLoop_step.
    destruct (Z.leb attempt maxRetries).
    2:{ exists []. rewrite after_nil. split; [reflexivity | constructor]. }
    destruct (axios env (trace st) config) as [error|response].
    2:{ exists [EHttp config]. split; [reflexivity | repeat constructor; exact Hhttp]. }
    destruct (Z.eqb attempt maxRetries).
    { exists [EHttp config]. split; [reflexivity | repeat constructor; exact Hhttp]. }
    destruct (IH (attempt + 1)
                 (after st [EHttp config; retryWarning attempt maxRetries retryDelay error;
                            ESleep retryDelay])) as (new & Hs & Hall).
    exists ([EHttp config; retryWarning attempt maxRetries retryDelay error;
             ESleep retryDelay] ++ new).
    rewrite Hs, after_after. split; [reflexivity|].
    apply Forall_app. split; [|exact Hall].
    repeat constructor; [exact Hhttp | apply Hlog | apply Hsleep].
Qed.

(** Decomposing a method into its steps. *)
Ltac pres_step :=
  lazymatch goal with
  | |- preserves _ (ret _) => apply preserves_ret
  | |- preserves _ (throw _) => apply preserves_throw
  | |- preserves _ (orTypeError _ _) => apply preserves_orTypeError
  | |- preserves _ (orThrow _) => apply preserves_orThrow
  | |- preserves _ (getNow _) => apply preserves_getNow
  | |- preserves _ (getToken _ _) => apply preserves_getToken
  | |- preserves _ (emit _) => apply preserves_emit; simpl; auto
  | |- preserves _ (makeRequest _ _ _ _) => apply preserves_makeRequest; simpl; auto
  | |- preserves _ (tryCatch _ _) => apply preserves_tryCatch; [ | intros ? ]
  | |- preserves _ (bind _ _) => apply preserves_bind; [ | intros ? ]
  | |- preserves _ (match ?x with _ => _ end) => destruct x
  | |- preserves _ _ => solve [auto with preserves]
  end.

Ltac pres :=
  unfold defined, statusAndSuccess, splitToken, fromSeconds, prop, log, sleep, called;
  repeat pres_step.

Create HintDb preserves.

Section Quiet.

Context (env : Env).

(** X5.  [isExpired] never throws, requests nothing, enters no method of
    the engine and leaves the token map and token.json alone: all it adds
    to the trace is one log line. *)
Theorem isExpired_is_quiet token st :
  exists verdict line,
    run (isExpired env token) st = (Ret verdict, after st [line]) /\ offline line.
Proof.
  destruct (isExpired_verdict env token st) as [line Hrun].
  assert (Hquiet : preserves offline (isExpired env token)).
  { unfold isExpired. pres. }
  destruct (Hquiet st) as (new & Hs & Hall). rewrite Hrun in Hs. simpl in Hs.
  assert (Hnew : new = [line]).
  { apply (f_equal trace) in Hs. simpl in Hs. apply app_inv_head in Hs. congruence. }
  subst new. inversion Hall; subst.
  exists (expiryVerdict env token (clock env (trace st))), line. auto.
Qed.

Lemma authenticate_preserves initData :
  preserves (authEvent initData) (authenticate env initData).
Proof. unfold authenticate. pres. Qed.

Lemma getUserInfo_preserves token :
  preserves (authorized token) (getUserInfo env token).
Proof. unfold getUserInfo. pres. Qed.

Lemma linkWallet_preserves token wallet :
  preserves (authorized token) (linkWallet env token wallet).
Proof. unfold linkWallet. pres. Qed.

Lemma getQuestsList_preserves token :
  preserves (authorized token) (getQuestsList env token).
Proof. unfold getQuestsList. pres. Qed.

Lemma completeQuest_preserves token questId :
  preserves (authorized token) (completeQuest env token questId).
Proof. unfold completeQuest. pres. Qed.

Lemma claimQuest_preserves token questId questData :
  preserves (authorized token) (claimQuest env token questId questData).
Proof. unfold claimQuest. pres. Qed.

Hint Resolve getUserInfo_preserves linkWallet_preserves getQuestsList_preserves
  completeQuest_preserves claimQuest_preserves : preserves.

Lemma processQuest_preserves token quest :
  preserves (authorized token) (processQuest env token quest).
Proof. unfold processQuest. pres. Qed.

Hint Resolve processQuest_preserves : preserves.

Lemma forQuests_preserves token quests :
  preserves (authorized token) (forQuests env token quests).
Proof. induction quests as [|quest rest IH]; cbn [forQuests]; pres. Qed.

Hint Resolve forQuests_preserves : preserves.

Lemma processQuests_preserves token :
  preserves (authorized token) (processQuests env token).
Proof. unfold processQuests. pres. Qed.

Lemma ensureWalletLinked_preserves token walletAddress :
  preserves (authorized token) (ensureWalletLinked env token walletAddress).
Proof. unfold ensureWalletLinked. pres. Qed.

Lemma logUserInfo_preserves token userInfo :
  preserves (authorized token) (logUserInfo userInfo).
Proof. unfold logUserInfo. pres. Qed.

End Quiet.

#[local] Hint Resolve getUserInfo_preserves linkWallet_preserves getQuestsList_preserves
  completeQuest_preserves claimQuest_preserves processQuest_preserves forQuests_preserves
  processQuests_preserves ensureWalletLinked_preserves logUserInfo_preserves : preserves.

(** X6.  Once a token is known, what [processAccount] does with it --
    fetching the profile, linking the wallet, processing the quests --
    never writes token.json and never changes the token map, and every
    request it makes bears that token and goes to an endpoint of the
    service. *)
Theorem session_is_authorized env token walletAddress st :
  (exists new,
     snd (run (getUserInfo env token) st) = after st new /\
     Forall (authorized token) new) /\
  (exists new,
     snd (run (ensureWalletLinked env token walletAddress) st) = after st new /\
     Forall (authorized token) new) /\
  (exists new,
     snd (run (processQuests env token) st) = after st new /\
     Forall (authorized token) new).
Proof.
  split; [|split].
  - apply getUserInfo_preserves.
  - apply ensureWalletLinked_preserves.
  - apply processQuests_preserves.
Qed.

(** A computation that adds no event at all leaves the state as it is. *)
Lemma silent_snd {A} (m : M A) st : preserves (fun _ => False) m -> snd (run m st) = st.
Proof.
  intros Hm. destruct (Hm st) as (new & Hs & Hall).
  destruct new as [|e new]; [rewrite Hs; apply after_nil|].
  inversion Hall; contradiction.
Qed.

Lemma bind_silent_snd {A B} (m : M A) (k : A -> M B) st :
  (forall a, preserves (fun _ => False) (k a)) ->
  snd (run (bind m k) st) = snd (run m st).
Proof.
  intros Hk. rewrite run_bind. destruct (run m st) as [[a|e|c|] st1]; try reflexivity.
  apply silent_snd, Hk.
Qed.

Lemma tryCatch_silent_snd {A} (body : M A) handler st :
  (forall e, preserves (fun _ => False) (handler e)) ->
  snd (run (tryCatch body handler) st) = snd (run body st).
Proof.
  intros Hh. rewrite run_tryCatch. destruct (run body st) as [[a|e|c|] st1]; try reflexivity.
  apply silent_snd, Hh.
Qed.

Lemma transport_authEvent initData new :
  Forall (transportEvent
            (mkConfig "post" (API_CONFIG.BASE_URL ++ API_CONFIG.AUTH)
               (JObj [("data", JStr initData); ("referralCode", JStr "vuY5ILO1")]) None)) new ->
  Forall (authEvent initData) new.
Proof.
  intros H. eapply Forall_impl; [exact H|]. intros e. simpl.
  destruct e as [[]| | | | | | | |]; simpl; auto.
Qed.

(** X7.  [authenticate] never throws.  It hands axios between one and
    three requests, each the POST of the blob with the fixed referral code
    to the auth endpoint, without bearer; it never writes token.json and
    leaves the token map alone. *)
Theorem authenticate_requests env initData st :
  exists result new,
    run (authenticate env initData) st = (Ret result, after st new) /\
    Forall (authEvent initData) new /\
    (1 <= length (requests new) <= 3)%nat.
Proof.
  destruct (authenticate_does env initData ["authenticate"] eq_refl st) as (_ & _ & _ & Hret).
  destruct (run (authenticate env initData) st) as [o st'] eqn:Hrun.
  simpl in Hret. destruct o as [result| | |]; try contradiction.
  assert (Hsnd : snd (run (authenticate env initData) st) = st') by (rewrite Hrun; reflexivity).
  clear Hrun. revert Hsnd. unfold authenticate, called.
  rewrite run_bind, run_emit.
  rewrite tryCatch_silent_snd by (intros; pres).
  rewrite bind_silent_snd by (intros; pres).
  match goal with
  | |- context [makeRequest env ?config _ _] =>
      destruct (makeRequest_transport env config
                  (after st [ECall "authenticate" [JStr initData]]))
        as (new1 & Hs1 & Htr1 & Hcount)
  end.
  rewrite Hs1, after_after. intros <-.
  exists result, ([ECall "authenticate" [JStr initData]] ++ new1).
  split; [reflexivity|]. split.
  - apply Forall_app. split; [repeat constructor | apply transport_authEvent; exact Htr1].
  - rewrite requests_app. exact Hcount.
Qed.

(** * The token object *)

Lemma readProperty_own lookup s key v :
  ownProperties s !! key = Some v -> readProperty lookup s key = Some v.
Proof.
  destruct s as [|own proto]; simpl; [rewrite lookup_empty; discriminate|].
  intros ->. reflexivity.
Qed.

Lemma readProperty_object lookup s key : s <> NullStore -> is_Some (readProperty lookup s key).
Proof. destruct s; [contradiction | eexists; reflexivity]. Qed.

Lemma readProperty_some lookup s key v : readProperty lookup s key = Some v -> s <> NullStore.
Proof. destruct s; discriminate. Qed.

Lemma writeProperty_object s key token s' :
  writeProperty s key token = Some s' -> s <> NullStore /\ s' <> NullStore.
Proof.
  destruct s as [|own proto]; simpl; [discriminate|].
  intros [= <-]. split; [discriminate|].
  destruct (_ && _); [destruct token|]; discriminate.
Qed.

Lemma writeProperty_total s key token :
  s <> NullStore -> is_Some (writeProperty s key token).
Proof. destruct s; [contradiction | eexists; reflexivity]. Qed.

(** Any key but [__proto__] is stored. *)
Lemma writeProperty_ordinary s key token s' :
  writeProperty s key token = Some s' -> key <> "__proto__" ->
  ownProperties s' = <[key := token]> (ownProperties s).
Proof.
  destruct s as [|own proto]; simpl; [discriminate|].
  intros [= <-] Hkey.
  destruct (String.eqb_spec key "__proto__"); [contradiction|]. reflexivity.
Qed.

(** An assignment leaves the properties of other names alone. *)
Lemma writeProperty_other s key token s' k :
  writeProperty s key token = Some s' -> k <> key ->
  ownProperties s' !! k = ownProperties s !! k.
Proof.
  destruct s as [|own proto]; simpl; [discriminate|].
  intros [= <-] Hk.
  destruct (_ && _); [destruct token; reflexivity|].
  simpl. apply lookup_insert_ne. congruence.
Qed.

(** * Sessions *)

Section Sessions.

Context (env : Env).

Lemma saveToken_run userId token st :
  let key := toPropertyKey env userId in
  run (saveToken env userId token) st =
  match writeProperty (store st) key token with
  | None =>
      (Ret tt,
       after st [ELog Error [Lit "Error saving token: ";
                             Lit ("Cannot set properties of null (setting '" ++ key ++ "')")]])
  | Some s =>
      let m := ownProperties s in
      match writeFileSync env (trace st) with
      | None =>
          (Ret tt, mkState (trace st ++ [EWriteTokens m;
                                         ELog Info [Lit "Token saved for user "; Val userId]])
                           s (Some m))
      | Some error =>
          (Ret tt, mkState (trace st ++ [EWriteTokens m;
                                         ELog Error [Lit "Error saving token: ";
                                                     Lit (message error)]])
                           s (disk st))
      end
  end.
Proof.
  intros key. unfold saveToken, run, tryCatch, bind, setToken, writeTokens. fold key.
  destruct (writeProperty (store st) key token) as [s|]; [|reflexivity].
  unfold tokens. simpl.
  destruct (writeFileSync env (trace st)); simpl;
    unfold log, emit; simpl; rewrite <- List.app_assoc; reflexivity.
Qed.

Lemma fresh_token_truthy token st st1 :
  run (isExpired env token) st = (Ret false, st1) -> truthy token = true.
Proof.
  destruct (isExpired_verdict env token st) as [line ->].
  intros [= H _]. destruct (truthy token) eqn:E; [reflexivity|].
  rewrite (falsy_token_expired env token _ E) in H. discriminate.
Qed.

(** [ensureValidToken] once the read of the cached value has given [v]. *)
Lemma run_getToken {B} userId (k : JsVal -> M B) st v :
  readProperty (inherited env) (store st) (toPropertyKey env userId) = Some v ->
  run (bind (getToken env userId) k) st = run (k v) st.
Proof.
  intros Hread. rewrite run_bind. unfold getToken at 1, run at 1.
  rewrite Hread. reflexivity.
Qed.

Lemma ensureValidToken_cached userId accountData st token st1 :
  tokens st !! toPropertyKey env userId = Some token ->
  run (isExpired env token) st = (Ret false, st1) ->
  run (ensureValidToken env userId accountData) st = (Ret token, st1).
Proof.
  intros Hcached Hfresh. pose proof (fresh_token_truthy _ _ _ Hfresh) as Ht.
  unfold ensureValidToken.
  rewrite (run_getToken userId _ st token (readProperty_own _ _ _ _ Hcached)).
  rewrite Ht. simpl negb. cbv iota.
  rewrite (run_bind_ret _ _ _ _ _ Hfresh). reflexivity.
Qed.

(** What needs a refresh has a token object, before and after the test. *)
Lemma needsRefresh_store userId st st1 :
  needsRefresh env userId st st1 -> store st1 = store st /\ store st <> NullStore.
Proof.
  intros [token Hc _|token st1' Hc _ Hexp].
  - split; [reflexivity | exact (readProperty_some _ _ _ _ Hc)].
  - split; [|exact (readProperty_some _ _ _ _ Hc)].
    destruct (isExpired_verdict env token st) as [line Hrun].
    rewrite Hrun in Hexp. inversion Hexp; subst. reflexivity.
Qed.

Lemma ensureValidToken_refresh userId accountData st st1 :
  needsRefresh env userId st st1 ->
  run (ensureValidToken env userId accountData) st =
  match run (authenticate env accountData) (after st1 [newTokenLog userId]) with
  | (Ret (Failure error), st3) => (Ret JNull, after st3 [loginFailedLog error])
  | (Ret (Success (token, _)), st3) =>
      (Ret token, snd (run (saveToken env userId token) st3))
  | (Throw e, st3) => (Throw e, st3)
  | (Exit c, st3) => (Exit c, st3)
  | (Pending, st3) => (Pending, st3)
  end.
Proof.
  intros Hrefresh. unfold ensureValidToken.
  assert (Hstep : exists userToken,
            readProperty (inherited env) (store st) (toPropertyKey env userId)
              = Some userToken /\
            forall (k : bool -> M JsVal),
              run (bind (if negb (truthy userToken) then ret true
                         else isExpired env userToken) k) st
              = run (k true) st1).
  { destruct Hrefresh as [token Hc Hf|token st1 Hc Ht Hexp];
      exists token; (split; [exact Hc|]); intros k.
    - rewrite Hf. reflexivity.
    - rewrite Ht. simpl negb. cbv iota. rewrite (run_bind_ret _ _ _ _ _ Hexp). reflexivity. }
  destruct Hstep as (userToken & Hread & Hstep).
  rewrite (run_getToken userId _ st userToken Hread), Hstep. clear Hstep.
  rewrite run_bind. unfold log at 1. rewrite run_emit. fold (newTokenLog userId).
  rewrite run_bind.
  destruct (run (authenticate env accountData) (after st1 [newTokenLog userId]))
    as [[[[token user]|error]|e|c|] st3]; try reflexivity.
  rewrite run_bind.
  destruct (run (saveToken env userId token) st3) as [o st4] eqn:Hsave.
  pose proof (saveToken_does env userId token [] false st3) as (_ & _ & _ & Hret).
  rewrite Hsave in Hret. simpl in Hret. destruct o as [[]| | |]; try contradiction.
  reflexivity.
Qed.

(** A successful login leaves the token object to [saveToken] as
    [ensureValidToken] found it. *)
Lemma authenticate_store accountData st :
  store (snd (run (authenticate env accountData) st)) = store st.
Proof.
  destruct (authenticate_preserves env accountData st) as (new & -> & _). reflexivity.
Qed.

End Sessions.

Lemma authenticate_calls env initData st :
  exists r st' new,
    run (authenticate env initData) st = (Ret r, st') /\
    trace st' = trace st ++ ECall "authenticate" [JStr initData] :: new.
Proof.
  unfold authenticate, called. rewrite run_bind, run_emit.
  match goal with
  | |- context [run ?m (after st ?evs)] =>
      assert (Hm : does m [] true (returning anything))
  end.
  { apply does_tryCatch; [|intros; done_r].
    bind_s (apply makeRequest_does).
    bind_s (apply defined_does).
    bind_s (apply statusAndSuccess_does).
    destruct (truthy _); [|done_r].
    bind_s (apply does_prop).
    bind_s (apply does_orTypeError; intros; exact I) as tu Htu.
    destruct tu as [token userData].
    bind_s (apply does_orTypeError; intros; exact I).
    done_r. }
  destruct (Hm (after st [ECall "authenticate" [JStr initData]]))
    as (new & Htrace & _ & Hret).
  match goal with
  | |- context [run ?m ?s] => destruct (run m s) as [o st'] eqn:Hrun
  end.
  simpl in Htrace, Hret. destruct o as [r| | |]; try contradiction.
  exists r, st', new. split; [reflexivity|].
  rewrite Htrace, <- List.app_assoc. reflexivity.
Qed.

(** C6.  [ensureValidToken] returns the cached token, without calling
    authenticate or touching the network, whenever a token is cached for
    the user and [isExpired] answers false.  When what it reads for the user
    is falsy (nothing is cached) or is judged expired, it calls
    authenticate: a failure is logged and the result is [null], which makes
    [processAccount] return at once (the account is skipped, the batch goes
    on); on success the token map is written to token.json and the new
    token is returned, and for every user key but [__proto__] the map then
    holds the new token under that key. *)
Theorem ensureValidToken_contract env userId accountData st :
  let key := toPropertyKey env userId in
  (forall token st1,
     tokens st !! key = Some token ->
     run (isExpired env token) st = (Ret false, st1) ->
     run (ensureValidToken env userId accountData) st = (Ret token, st1) /\
     exists new, trace st1 = trace st ++ new /\
                 callsTo "authenticate" new = [] /\ requests new = []) /\
  (forall st1,
     needsRefresh env userId st st1 ->
     (exists r st3 new,
        run (authenticate env accountData) (after st1 [newTokenLog userId]) = (Ret r, st3) /\
        trace st3 = trace st1 ++ newTokenLog userId
                                 :: ECall "authenticate" [JStr accountData] :: new) /\
     (forall error st3,
        run (authenticate env accountData) (after st1 [newTokenLog userId])
          = (Ret (Failure error), st3) ->
        run (ensureValidToken env userId accountData) st
          = (Ret JNull, after st3 [loginFailedLog error])) /\
     (forall token user st3,
        run (authenticate env accountData) (after st1 [newTokenLog userId])
          = (Ret (Success (token, user)), st3) ->
        exists st4,
          run (ensureValidToken env userId accountData) st = (Ret token, st4) /\
          (key <> "__proto__" -> tokens st4 = <[key := token]> (tokens st3)) /\
          In (EWriteTokens (tokens st4)) (trace st4) /\
          (writeFileSync env (trace st3) = None -> disk st4 = Some (tokens st4)))) /\
  (forall walletAddress st0 userData firstName st',
     parseAccountData env accountData = inr userData ->
     getProp userData "id" = Some userId ->
     getProp userData "first_name" = Some firstName ->
     run (ensureValidToken env userId accountData)
         (after st0 [ECall "processAccount" [JStr accountData; walletAddress];
                     ELog Info [Lit "=== Processing account for "; Val firstName; Lit " ==="]])
       = (Ret JNull, st') ->
     run (processAccount env accountData walletAddress) st0 = (Ret tt, st')).
Proof.
  intros key. split; [|split].
  - intros token st1 Hcached Hfresh.
    split; [apply ensureValidToken_cached; assumption|].
    destruct (isExpired_does env token [] false st) as (new & Htrace & Hall & _).
    rewrite Hfresh in Htrace. simpl in Htrace.
    exists new. split; [exact Htrace|]. split.
    + exact (callsTo_allowed "authenticate" [] false new eq_refl Hall).
    + exact (requests_allowed [] new Hall).
  - intros st1 Hrefresh. split; [|split].
    + destruct (authenticate_calls env accountData (after st1 [newTokenLog userId]))
        as (r & st3 & new & Hrun & Htrace).
      exists r, st3, new. split; [exact Hrun|].
      rewrite Htrace. simpl. rewrite <- List.app_assoc. reflexivity.
    + intros error st3 Hauth.
      rewrite (ensureValidToken_refresh env userId accountData st st1 Hrefresh), Hauth.
      reflexivity.
    + intros token user st3 Hauth.
      rewrite (ensureValidToken_refresh env userId accountData st st1 Hrefresh), Hauth.
      eexists. split; [reflexivity|].
      destruct (needsRefresh_store env userId st st1 Hrefresh) as [Hs1 Hobj].
      pose proof (authenticate_store env accountData (after st1 [newTokenLog userId])) as Hs3.
      rewrite Hauth in Hs3. simpl in Hs3.
      destruct (writeProperty_total (store st3) key token) as [s Hw].
      { rewrite Hs3, Hs1. exact Hobj. }
      pose proof (saveToken_run env userId token st3) as Hsave. simpl in Hsave.
      fold key in Hsave. rewrite Hw in Hsave. rewrite Hsave.
      destruct (writeFileSync env (trace st3)) as [e|]; unfold tokens; simpl.
      * split; [intros Hkey; exact (writeProperty_ordinary _ _ _ _ Hw Hkey)|].
        split; [|discriminate].
        rewrite in_app_iff. right. simpl. auto.
      * split; [intros Hkey; exact (writeProperty_ordinary _ _ _ _ Hw Hkey)|].
        split; [|reflexivity].
        rewrite in_app_iff. right. simpl. auto.
  - intros walletAddress st0 userData firstName st' Hparse Hid Hname Hnull.
    unfold processAccount, called. rewrite run_bind, run_emit, Hparse.
    simpl orThrow. rewrite run_bind, run_ret.
    unfold prop. rewrite Hid. simpl orTypeError. rewrite run_bind, run_ret.
    rewrite Hname. simpl orTypeError. rewrite run_bind, run_ret.
    rewrite run_bind. unfold log at 1. rewrite run_emit, after_after. simpl app.
    rewrite (run_bind_ret _ _ _ _ _ Hnull). reflexivity.
Qed.

(** C7.  When writing token.json throws, [saveToken] logs the error and
    returns normally: for a token object and a user key other than
    [__proto__], the map in memory holds the new token under the user's
    key, the file is as it was, and [ensureValidToken] returns the token it
    has just acquired. *)
Theorem save_failure_is_swallowed env userId token st error :
  writeFileSync env (trace st) = Some error ->
  store st <> NullStore ->
  toPropertyKey env userId <> "__proto__" ->
  let key := toPropertyKey env userId in
  (exists st',
     run (saveToken env userId token) st = (Ret tt, st') /\
     tokens st' !! key = Some token /\
     disk st' = disk st /\
     last (trace st') = Some (ELog Error [Lit "Error saving token: "; Lit (message error)])) /\
  (forall st0 st1 accountData user,
     needsRefresh env userId st0 st1 ->
     run (authenticate env accountData) (after st1 [newTokenLog userId])
       = (Ret (Success (token, user)), st) ->
     exists st',
       run (ensureValidToken env userId accountData) st0 = (Ret token, st') /\
       tokens st' !! key = Some token /\
       disk st' = disk st).
Proof.
  intros Hwrite Hobj Hkey key.
  destruct (writeProperty_total (store st) key token Hobj) as [s Hw].
  pose proof (writeProperty_ordinary _ _ _ _ Hw Hkey) as Hown.
  pose proof (saveToken_run env userId token st) as Hsave. simpl in Hsave.
  fold key in Hsave. rewrite Hw, Hwrite in Hsave.
  split.
  - eexists. split; [exact Hsave|]. unfold tokens. simpl.
    split; [rewrite Hown; apply lookup_insert_eq|].
    split; [reflexivity|].
    change [EWriteTokens (ownProperties s);
            ELog Error [Lit "Error saving token: "; Lit (message error)]]
      with ([EWriteTokens (ownProperties s)]
            ++ [ELog Error [Lit "Error saving token: "; Lit (message error)]]).
    rewrite List.app_assoc. apply last_snoc.
  - intros st0 st1 accountData user Hrefresh Hauth.
    rewrite (ensureValidToken_refresh env userId accountData st0 st1 Hrefresh), Hauth.
    eexists. split; [reflexivity|]. rewrite Hsave. unfold tokens. simpl.
    split; [rewrite Hown; apply lookup_insert_eq | reflexivity].
Qed.

(** * Reading the input files *)

Lemma sapp_cons x (a b : string) : String x a +:+ b = String x (a +:+ b).
Proof. reflexivity. Qed.

Lemma sapp_nil_l (b : string) : "" +:+ b = b.
Proof. reflexivity. Qed.

Lemma sapp_assoc (a b c : string) : (a +:+ b) +:+ c = a +:+ (b +:+ c).
Proof.
  induction a as [|x a IH]; [reflexivity|].
  rewrite !sapp_cons, IH. reflexivity.
Qed.

Lemma sapp_nil_r (a : string) : a +:+ "" = a.
Proof.
  induction a as [|x a IH]; [reflexivity|].
  rewrite sapp_cons, IH. reflexivity.
Qed.

Lemma hasChar_cons c a s : hasChar c (String a s) = Ascii.eqb a c || hasChar c s.
Proof. reflexivity. Qed.

Lemma hasChar_app c a b : hasChar c (a +:+ b) = hasChar c a || hasChar c b.
Proof.
  induction a as [|x a IH]; [reflexivity|].
  rewrite sapp_cons, !hasChar_cons, IH, orb_assoc. reflexivity.
Qed.

Lemma removeCR_cons a s :
  removeCR (String a s) = if Ascii.eqb a CR then removeCR s else String a (removeCR s).
Proof. reflexivity. Qed.

Lemma removeCR_clean s : hasChar CR (removeCR s) = false.
Proof.
  induction s as [|a s IH]; [reflexivity|].
  rewrite removeCR_cons. destruct (Ascii.eqb a CR) eqn:E; [exact IH|].
  rewrite hasChar_cons, E, IH. reflexivity.
Qed.

Lemma removeCR_id s : hasChar CR s = false -> removeCR s = s.
Proof.
  induction s as [|a s IH]; [reflexivity|].
  rewrite hasChar_cons, removeCR_cons. intros H.
  apply orb_false_iff in H. destruct H as [Ha Hs].
  rewrite Ha, IH by exact Hs. reflexivity.
Qed.

Lemma removeCR_app a b : removeCR (a +:+ b) = removeCR a +:+ removeCR b.
Proof.
  induction a as [|x a IH]; [reflexivity|].
  rewrite sapp_cons, !removeCR_cons.
  destruct (Ascii.eqb x CR); rewrite IH; reflexivity.
Qed.

(** One step of cutting at line feeds. *)
Lemma splitGo_LF_cons a s cur :
  splitGo (String LF "") 0 cur (String a s) =
  if Ascii.eqb LF a
  then cur :: splitGo (String LF "") 0 "" s
  else splitGo (String LF "") 0 (cur +:+ String a "") s.
Proof. cbn [splitGo isPrefix]. destruct (Ascii.eqb LF a); reflexivity. Qed.

(** The pieces cut at line feeds hold no line feed, and no character that
    the text did not hold. *)
Lemma splitGo_LF_pieces s : forall cur,
  hasChar LF cur = false ->
  Forall (fun p => hasChar LF p = false) (splitGo (String LF "") 0 cur s).
Proof.
  induction s as [|a s IH]; intros cur Hcur.
  - constructor; [exact Hcur | constructor].
  - rewrite splitGo_LF_cons. destruct (Ascii.eqb LF a) eqn:E.
    + constructor; [exact Hcur|]. apply IH. reflexivity.
    + apply IH. rewrite hasChar_app, Hcur, hasChar_cons, Ascii.eqb_sym, E. reflexivity.
Qed.

Lemma splitGo_LF_keeps c s : forall cur,
  hasChar c cur = false -> hasChar c s = false ->
  Forall (fun p => hasChar c p = false) (splitGo (String LF "") 0 cur s).
Proof.
  induction s as [|a s IH]; intros cur Hcur Hs.
  - constructor; [exact Hcur | constructor].
  - rewrite hasChar_cons in Hs. apply orb_false_iff in Hs. destruct Hs as [Ha Hs].
    rewrite splitGo_LF_cons. destruct (Ascii.eqb LF a).
    + constructor; [exact Hcur|]. apply IH; [reflexivity | exact Hs].
    + apply IH; [|exact Hs]. rewrite hasChar_app, Hcur, hasChar_cons, Ha. reflexivity.
Qed.

(** Cutting a text that starts with a line. *)
Lemma splitGo_LF_line l rest : forall cur,
  hasChar LF l = false ->
  splitGo (String LF "") 0 cur (l +:+ String LF rest)
  = (cur +:+ l) :: splitGo (String LF "") 0 "" rest.
Proof.
  induction l as [|a l IH]; intros cur Hl.
  - rewrite sapp_nil_l, splitGo_LF_cons, Ascii.eqb_refl, sapp_nil_r. reflexivity.
  - rewrite hasChar_cons in Hl. apply orb_false_iff in Hl. destruct Hl as [Ha Hl].
    rewrite sapp_cons, splitGo_LF_cons, Ascii.eqb_sym, Ha.
    rewrite IH by exact Hl. rewrite sapp_assoc. reflexivity.
Qed.

Lemma fileLines_unfold content :
  fileLines content
  = filter (fun s => nonEmpty s = true) (splitGo (String LF "") 0 "" (removeCR content)).
Proof. reflexivity. Qed.

(** Every line read from an input file is clean. *)
Lemma fileLines_clean content : Forall cleanLine (fileLines content).
Proof.
  rewrite fileLines_unfold. apply List.Forall_forall. intros l Hl.
  apply list_elem_of_In, list_elem_of_filter in Hl. destruct Hl as [Hne Hin].
  apply list_elem_of_In in Hin.
  pose proof (splitGo_LF_pieces (removeCR content) "" eq_refl) as HLF.
  pose proof (splitGo_LF_keeps CR (removeCR content) "" eq_refl (removeCR_clean content))
    as HCR.
  rewrite List.Forall_forall in HLF, HCR.
  split; [|split].
  - intros ->. discriminate Hne.
  - apply HCR. exact Hin.
  - apply HLF. exact Hin.
Qed.

Lemma cleanLine_nonEmpty l : cleanLine l -> nonEmpty l = true.
Proof. intros (Hne & _). destruct l; [contradiction | reflexivity]. Qed.

(** Reading back a file of clean lines, ended by LF or by CR LF, gives the
    lines. *)
Lemma fileLines_writeLines_LF ls :
  Forall cleanLine ls -> fileLines (writeLines (String LF "") ls) = ls.
Proof.
  induction 1 as [|l ls Hl Hls IH]; [reflexivity|].
  pose proof Hl as (Hne & HCR & HLF).
  rewrite fileLines_unfold in *. cbn [writeLines].
  rewrite removeCR_app, (removeCR_id l HCR), sapp_cons, removeCR_cons, sapp_nil_l.
  change (Ascii.eqb LF CR) with false. cbv iota.
  rewrite splitGo_LF_line by exact HLF.
  rewrite filter_cons_True by (apply cleanLine_nonEmpty; exact Hl).
  rewrite sapp_nil_l, IH. reflexivity.
Qed.

Lemma fileLines_writeLines_CRLF ls :
  Forall cleanLine ls -> fileLines (writeLines (String CR (String LF "")) ls) = ls.
Proof.
  induction 1 as [|l ls Hl Hls IH]; [reflexivity|].
  pose proof Hl as (Hne & HCR & HLF).
  rewrite fileLines_unfold in *. cbn [writeLines].
  rewrite removeCR_app, (removeCR_id l HCR), !sapp_cons, !removeCR_cons, sapp_nil_l.
  rewrite Ascii.eqb_refl. change (Ascii.eqb LF CR) with false. cbv iota.
  rewrite splitGo_LF_line by exact HLF.
  rewrite filter_cons_True by (apply cleanLine_nonEmpty; exact Hl).
  rewrite sapp_nil_l, IH. reflexivity.
Qed.

(** X1.  [loadWallets] never throws, requests nothing and enters no method
    of the engine.  Every wallet address it returns is clean: not empty,
    without carriage return or line feed.  A missing wallet.txt gives the
    empty list without any log; an unreadable one gives the empty list
    after one error line. *)
Theorem loadWallets_is_safe env st :
  exists new,
    run (loadWallets env) st = (Ret (loadedWallets env), after st new) /\
    Forall cleanLine (loadedWallets env) /\
    Forall offline new /\
    (walletTxt env = Missing -> loadedWallets env = [] /\ new = []) /\
    (forall e, walletTxt env = Unreadable e ->
               loadedWallets env = [] /\
               new = [ELog Error [Lit "Error reading wallet file: "; Lit (message e)]]).
Proof.
  exists (walletWarnings env). split; [apply loadWallets_run|].
  unfold loadedWallets, walletWarnings.
  destruct (walletTxt env) as [|e|s]; repeat split;
    try discriminate; try (constructor; fail).
  - repeat constructor.
  - inversion H; subst. reflexivity.
  - apply fileLines_clean.
Qed.

(** X2.  A wallet.txt that holds clean addresses one per line, each line
    ended by LF or by CR LF, is read back as exactly these addresses, in
    order, without any log. *)
Theorem loadWallets_reads_back env st eol addresses :
  eol = String LF "" \/ eol = String CR (String LF "") ->
  Forall cleanLine addresses ->
  walletTxt env = Content (writeLines eol addresses) ->
  run (loadWallets env) st = (Ret addresses, st).
Proof.
  intros Heol Hclean Hfile. rewrite loadWallets_run.
  unfold loadedWallets, walletWarnings. rewrite Hfile, after_nil.
  destruct Heol as [-> | ->].
  - rewrite fileLines_writeLines_LF by exact Hclean. reflexivity.
  - rewrite fileLines_writeLines_CRLF by exact Hclean. reflexivity.
Qed.

(** * The countdown *)

Lemma pad2_twoDigits n : 0 <= n < 100 -> pad2 n = twoDigits n.
Proof.
  intros Hn.
  assert (Hall : forallb (fun k => String.eqb (pad2 (Z.of_nat k)) (twoDigits (Z.of_nat k)))
                         (seq 0 100) = true) by (vm_compute; reflexivity).
  rewrite forallb_forall in Hall.
  specialize (Hall (Z.to_nat n)).
  rewrite Z2Nat.id in Hall by lia.
  apply String.eqb_eq, Hall, in_seq. lia.
Qed.

(** X3.  Below a hundred hours, [formatTime] renders a number of seconds
    as HH:MM:SS, each part on two decimal digits: eight characters.  The
    hours are not wrapped at 24. *)
Theorem formatTime_two_digits seconds :
  0 <= seconds < 360000 ->
  formatTime seconds
  = twoDigits (seconds / 3600) +:+ ":" +:+ twoDigits (seconds mod 3600 / 60) +:+ ":"
    +:+ twoDigits (seconds mod 60)
  /\ String.length (formatTime seconds) = 8%nat.
Proof.
  intros Hs.
  assert (H1 : 0 <= seconds / 3600 < 100).
  { split; [apply Z.div_pos; lia | apply Z.div_lt_upper_bound; lia]. }
  assert (H2 : 0 <= seconds mod 3600 / 60 < 100).
  { pose proof (Z.mod_pos_bound seconds 3600 ltac:(lia)).
    split; [apply Z.div_pos; lia | apply Z.div_lt_upper_bound; lia]. }
  assert (H3 : 0 <= seconds mod 60 < 100).
  { pose proof (Z.mod_pos_bound seconds 60 ltac:(lia)). lia. }
  unfold formatTime. cbv zeta.
  rewrite (pad2_twoDigits _ H1), (pad2_twoDigits _ H2), (pad2_twoDigits _ H3).
  split; reflexivity.
Qed.

Lemma stdouts_app t1 t2 : stdouts (t1 ++ t2) = stdouts t1 ++ stdouts t2.
Proof. apply omap_app. Qed.

Lemma sleeps_app t1 t2 : sleeps (t1 ++ t2) = sleeps t1 ++ sleeps t2.
Proof. apply omap_app. Qed.

Lemma countdownLoop_step fuel remainingTime st :
  run (countdownLoop (S fuel) remainingTime) st =
  if Z.leb 0 remainingTime
  then run (countdownLoop fuel (remainingTime - 1)) (after st (countdownTick remainingTime))
  else (Ret tt, st).
Proof.
  cbn [countdownLoop]. destruct (Z.leb 0 remainingTime); [|reflexivity].
  unfold sleep. rewrite run_bind, run_emit, run_bind, run_emit, run_bind, run_emit.
  rewrite !after_after. reflexivity.
Qed.

Lemma countdownLoop_run n : forall fuel st,
  (S n < fuel)%nat ->
  run (countdownLoop fuel (Z.of_nat n)) st = (Ret tt, after st (countdownTicks n)).
Proof.
  induction n as [|n IH]; intros fuel st Hfuel.
  - destruct fuel as [|[|fuel]]; try lia.
    rewrite countdownLoop_step. change (Z.leb 0 (Z.of_nat 0)) with true. cbv iota.
    rewrite countdownLoop_step. reflexivity.
  - destruct fuel as [|fuel]; [lia|].
    rewrite countdownLoop_step.
    replace (Z.leb 0 (Z.of_nat (S n))) with true by (symmetry; apply Z.leb_le; lia).
    cbv iota. replace (Z.of_nat (S n) - 1) with (Z.of_nat n) by lia.
    rewrite IH by lia. rewrite after_after. reflexivity.
Qed.

Lemma countdownTicks_stdouts n :
  stdouts (countdownTicks n)
  = map (fun k => "Next cycle in: " +:+ formatTime k) (countdownFrom n).
Proof.
  unfold countdownTicks. induction (countdownFrom n) as [|k ks IH]; [reflexivity|].
  cbn [flat_map map]. rewrite stdouts_app, IH. reflexivity.
Qed.

Lemma countdownTicks_sleeps n : sleeps (countdownTicks n) = replicate (S n) 1000.
Proof.
  unfold countdownTicks.
  assert (H : forall ks, sleeps (flat_map countdownTick ks) = replicate (length ks) 1000).
  { induction ks as [|k ks IH]; [reflexivity|].
    cbn [flat_map]. rewrite sleeps_app, IH. reflexivity. }
  rewrite H. f_equal. induction n as [|n IH]; simpl; [reflexivity | rewrite IH; reflexivity].
Qed.

Lemma countdownTicks_offline n : Forall offline (countdownTicks n).
Proof.
  unfold countdownTicks. induction (countdownFrom n) as [|k ks IH]; [constructor|].
  cbn [flat_map]. apply Forall_app. split; [repeat constructor | exact IH].
Qed.

(** X4.  [countdown(seconds)], for whole seconds >= 0, returns after
    displaying every value from [seconds] down to 0 inclusive, one second
    apart: it pauses [seconds + 1] times, then clears the line.  It
    requests nothing and leaves the token map alone.  For a negative
    argument it only clears the line. *)
Theorem countdown_ticks seconds st :
  (0 <= seconds ->
   let n := Z.to_nat seconds in
   run (countdown seconds) st
     = (Ret tt, after st (countdownTicks n ++ [ECursorTo0; EClearLine])) /\
   stdouts (countdownTicks n ++ [ECursorTo0; EClearLine])
     = map (fun k => "Next cycle in: " +:+ formatTime k) (countdownFrom n) /\
   sleeps (countdownTicks n ++ [ECursorTo0; EClearLine]) = replicate (S n) 1000 /\
   Forall offline (countdownTicks n ++ [ECursorTo0; EClearLine])) /\
  (seconds < 0 ->
   run (countdown seconds) st = (Ret tt, after st [ECursorTo0; EClearLine])).
Proof.
  split.
  - intros Hs n. split; [|split; [|split]].
    + unfold countdown. rewrite run_bind.
      replace seconds with (Z.of_nat n) at 2 by (unfold n; lia).
      rewrite countdownLoop_run by (unfold n; lia).
      rewrite run_bind, run_emit, run_emit, !after_after. reflexivity.
    + rewrite stdouts_app, countdownTicks_stdouts, app_nil_r. reflexivity.
    + rewrite sleeps_app, countdownTicks_sleeps, app_nil_r. reflexivity.
    + apply Forall_app. split; [apply countdownTicks_offline | repeat constructor].
  - intros Hs. unfold countdown. rewrite run_bind, countdownLoop_step.
    replace (Z.leb 0 seconds) with false by (symmetry; apply Z.leb_gt; lia).
    rewrite run_bind, run_emit, run_emit, after_after. reflexivity.
Qed.

(** * The token store *)

Lemma assigned_object key before after :
  assigned key before after -> before <> NullStore -> after <> NullStore.
Proof.
  intros [-> | [token Hw]] Hobj; [exact Hobj|].
  exact (proj2 (writeProperty_object _ _ _ _ Hw)).
Qed.

Lemma assigned_other key before after k :
  assigned key before after -> k <> key ->
  ownProperties after !! k = ownProperties before !! k.
Proof.
  intros [-> | [token Hw]] Hk; [reflexivity|].
  exact (writeProperty_other _ _ _ _ _ Hw Hk).
Qed.

Lemma ensureValidToken_store env userId accountData st :
  let st' := snd (run (ensureValidToken env userId accountData) st) in
  (exists new, trace st' = trace st ++ new) /\
  assigned (toPropertyKey env userId) (store st) (store st').
Proof.
  intros st'. assert (Hst' : st' = snd (run (ensureValidToken env userId accountData) st))
    by reflexivity.
  clearbody st'. revert Hst'.
  unfold ensureValidToken. rewrite run_bind. unfold getToken at 1, run at 1.
  destruct (readProperty (inherited env) (store st) (toPropertyKey env userId))
    as [userToken|].
  2:{ intros ->. simpl. split; [exists []; rewrite app_nil_r; reflexivity | left; reflexivity]. }
  rewrite run_bind.
  assert (Hm1 : preserves (fun _ => True)
                  (if negb (truthy userToken) then ret true else isExpired env userToken)).
  { destruct (negb (truthy userToken)); [apply preserves_ret|].
    unfold isExpired. pres. }
  destruct (Hm1 st) as (newA & HsA & _).
  destruct (run (if negb (truthy userToken) then ret true else isExpired env userToken) st)
    as [o sA].
  simpl in HsA. subst sA.
  destruct o as [[|]|e|c|];
    try (intros ->; simpl; split; [eexists; reflexivity | left; reflexivity]).
  rewrite run_bind. unfold log at 1. rewrite run_emit, after_after, run_bind.
  assert (Hauth : preserves (fun _ => True) (authenticate env accountData)).
  { unfold authenticate. pres. }
  destruct (Hauth (after st (newA ++ [ELog Warn [Lit "New token needed for user "; Val userId]])))
    as (newB & HsB & _).
  destruct (run (authenticate env accountData) _) as [o sB].
  simpl in HsB. subst sB. rewrite after_after.
  destruct o as [[[token user]|error]|e|c|];
    try (intros ->; simpl; split; [eexists; reflexivity | left; reflexivity]).
  - rewrite run_bind.
    pose proof (saveToken_run env userId token
                  (after st ((newA ++ [ELog Warn [Lit "New token needed for user "; Val userId]])
                             ++ newB))) as Hsave.
    simpl in Hsave. rewrite Hsave.
    destruct (writeProperty (store st) (toPropertyKey env userId) token) as [s|] eqn:Hw.
    + destruct (writeFileSync env _); intros ->; simpl;
        (split; [rewrite <- !List.app_assoc; eexists; reflexivity
                | right; exists token; exact Hw]).
    + intros ->. simpl.
      split; [rewrite <- !List.app_assoc; eexists; reflexivity | left; reflexivity].
  - rewrite run_bind. unfold log at 1. rewrite run_emit, after_after. intros ->. simpl.
    split; [eexists; reflexivity | left; reflexivity].
Qed.

(** * The orchestrator *)

Section Orchestrator.

Context (env : Env).

Lemma processAccount_throws accountData walletAddress error st :
  credentialError env accountData = Some error ->
  run (processAccount env accountData walletAddress) st
  = (Throw error, after st [ECall "processAccount" [JStr accountData; walletAddress]]).
Proof.
  unfold credentialError, processAccount. intros H.
  rewrite run_bind. unfold called. rewrite run_emit.
  destruct (parseAccountData env accountData) as [e|userData].
  - inversion H; subst. reflexivity.
  - destruct userData; simpl in H; try discriminate; inversion H; reflexivity.
Qed.

(** With a token object and a readable blob, [processAccount] returns,
    and leaves a token object. *)
Lemma processAccount_returns accountData walletAddress st :
  credentialError env accountData = None ->
  store st <> NullStore ->
  exists st' new,
    run (processAccount env accountData walletAddress) st = (Ret tt, st') /\
    trace st' = trace st ++ ECall "processAccount" [JStr accountData; walletAddress] :: new /\
    Forall (fun e => allowed accountMethods true e = true) new /\
    store st' <> NullStore.
Proof.
  unfold credentialError. intros H Hobj.
  destruct (parseAccountData env accountData) as [e|userData] eqn:Hparse; [discriminate|].
  destruct (nullish userData) eqn:Hu; [discriminate|].
  destruct (getProp_defined userData "id" Hu) as [userId Hid].
  destruct (getProp_defined userData "first_name" Hu) as [firstName Hname].
  set (call := ECall "processAccount" [JStr accountData; walletAddress]).
  set (line := ELog Info [Lit "=== Processing account for "; Val firstName; Lit " ==="]).
  destruct (ensureValidToken_returns env userId accountData accountMethods
              (after st [call; line]) eq_refl Hobj)
    as (token & st1 & new1 & Hrun1 & Ht1 & Hall1).
  assert (Hobj1 : store st1 <> NullStore).
  { pose proof (ensureValidToken_store env userId accountData (after st [call; line]))
      as [_ Hassigned].
    rewrite Hrun1 in Hassigned. simpl in Hassigned.
    exact (assigned_object _ _ _ Hassigned Hobj). }
  assert (Hstart : forall k : JsVal -> M unit,
            run (called "processAccount" [JStr accountData; walletAddress];;
                 userData ← orThrow (parseAccountData env accountData);
                 userId ← prop userData "id";
                 firstName ← prop userData "first_name";
                 log Info [Lit "=== Processing account for "; Val firstName; Lit " ==="];;
                 token ← ensureValidToken env userId accountData;
                 k token) st
            = run (k token) st1).
  { intros k. unfold called. rewrite run_bind, run_emit, Hparse.
    simpl orThrow. rewrite run_bind, run_ret.
    unfold prop. rewrite Hid. simpl orTypeError. rewrite run_bind, run_ret.
    rewrite Hname. simpl orTypeError. rewrite run_bind, run_ret.
    rewrite run_bind. unfold log at 1. rewrite run_emit, after_after. simpl app.
    fold call line. rewrite (run_bind_ret _ _ _ _ _ Hrun1). reflexivity. }
  unfold processAccount. rewrite Hstart. clear Hstart.
  match goal with
  | |- context [run ?m st1] =>
      assert (Hm : does m accountMethods true (returning anything));
      [| assert (Hkeeps : preserves (authorized token) m) ]
  end.
  { destruct (negb (truthy token)); [done_r|].
    bind_r (apply getUserInfo_does; reflexivity) as userInfo Hi.
    eapply does_bind_returning with (R1 := anything).
    { destruct userInfo as [user|error]; [|apply does_log].
      destruct Hi as [raw Hraw].
      bind_r (apply logUserInfo_does; eapply extractUserData_populated; exact Hraw).
      bind_r (apply does_log).
      destruct (negb _); [|apply does_log].
      bind_r (apply does_log).
      apply ensureWalletLinked_does; reflexivity. }
    intros _ _.
    bind_r (apply does_log).
    apply processQuests_does; reflexivity. }
  { pres. }
  destruct (does_run _ _ _ _ st1 Hm) as ([] & st' & new & Hrun & Ht & Hall & _).
  exists st', (line :: new1 ++ new). split; [exact Hrun|]. split; [|split].
  - rewrite Ht, Ht1. cbn [after trace]. rewrite <- !List.app_assoc. reflexivity.
  - constructor; [reflexivity|]. apply Forall_app. split; assumption.
  - destruct (Hkeeps st1) as (new' & Hs & _). rewrite Hrun in Hs. simpl in Hs.
    rewrite Hs. exact Hobj1.
Qed.

Lemma callsTo_account_step accountData walletAddress new sleeps rest :
  Forall (fun e => allowed accountMethods true e = true) new ->
  Forall (fun e => allowed accountMethods true e = true) sleeps ->
  callsTo "processAccount"
    ((ECall "processAccount" [JStr accountData; walletAddress] :: new) ++ sleeps ++ rest)
  = [JStr accountData; walletAddress] :: callsTo "processAccount" rest.
Proof.
  intros Hnew Hsleeps.
  change (ECall "processAccount" [JStr accountData; walletAddress] :: new)
    with ([ECall "processAccount" [JStr accountData; walletAddress]] ++ new).
  rewrite !callsTo_app.
  rewrite (callsTo_allowed "processAccount" accountMethods true new eq_refl Hnew).
  rewrite (callsTo_allowed "processAccount" accountMethods true sleeps eq_refl Hsleeps).
  reflexivity.
Qed.

(** The pause between two accounts. *)
Lemma pause_run (b : bool) st :
  exists sleeps,
    run (if b then sleep 1000 else ret tt) st = (Ret tt, after st sleeps) /\
    Forall (fun e => allowed accountMethods true e = true) sleeps.
Proof.
  destruct b.
  - exists [ESleep 1000]. split; [reflexivity | repeat constructor].
  - exists []. rewrite after_nil. split; [reflexivity | constructor].
Qed.

(** A batch without malformed blob, run with a token object, is processed
    to its end. *)
Lemma forAccounts_returns wallets n blobs : forall i st,
  Forall (fun b => credentialError env b = None) blobs ->
  store st <> NullStore ->
  exists st' new,
    run (forAccounts env wallets n i blobs) st = (Ret tt, st') /\
    trace st' = trace st ++ new /\
    callsTo "processAccount" new = accountCalls wallets i blobs /\
    store st' <> NullStore.
Proof.
  induction blobs as [|blob rest IH]; intros i st Hall Hobj.
  - exists st, []. simpl. rewrite app_nil_r. auto.
  - inversion Hall as [|? ? Hblob Hrest]; subst.
    destruct (processAccount_returns blob (walletAt wallets i) st Hblob Hobj)
      as (st1 & new1 & Hrun1 & Ht1 & Hall1 & Hobj1).
    destruct (pause_run (Z.ltb (Z.of_nat i) (Z.of_nat n - 1)) st1)
      as (sleeps & Hrun2 & Hall2).
    destruct (IH (S i) (after st1 sleeps) Hrest Hobj1)
      as (st3 & new3 & Hrun3 & Ht3 & Hc3 & Hobj3).
    exists st3, ((ECall "processAccount" [JStr blob; walletAt wallets i] :: new1)
                 ++ sleeps ++ new3).
    split; [|split; [|split]].
    + simpl forAccounts. rewrite (run_bind_ret _ _ _ _ _ Hrun1).
      rewrite (run_bind_ret _ _ _ _ _ Hrun2). exact Hrun3.
    + rewrite Ht3. simpl. rewrite Ht1, <- !List.app_assoc. reflexivity.
    + rewrite callsTo_account_step by assumption. simpl. congruence.
    + exact Hobj3.
Qed.

(** A malformed blob ends the batch: the exception leaves the loop, the
    accounts behind it are not reached.  The accounts before it need a
    token object to read their token from. *)
Lemma forAccounts_stops wallets n pre bad post error : forall i st,
  Forall (fun b => credentialError env b = None) pre ->
  credentialError env bad = Some error ->
  (pre <> [] -> store st <> NullStore) ->
  exists st' new,
    run (forAccounts env wallets n i (pre ++ bad :: post)) st = (Throw error, st') /\
    trace st' = trace st ++ new /\
    tokens st' = tokens (snd (run (forAccounts env wallets n i pre) st)) /\
    callsTo "processAccount" new = accountCalls wallets i (pre ++ [bad]).
Proof.
  induction pre as [|blob rest IH]; intros i st Hall Hbad Hobj.
  - exists (after st [ECall "processAccount" [JStr bad; walletAt wallets i]]),
           [ECall "processAccount" [JStr bad; walletAt wallets i]].
    split; [|auto].
    simpl. rewrite (run_bind_throw _ _ _ _ _ (processAccount_throws _ _ _ _ Hbad)).
    reflexivity.
  - inversion Hall as [|? ? Hblob Hrest]; subst.
    destruct (processAccount_returns blob (walletAt wallets i) st Hblob
                (Hobj ltac:(discriminate)))
      as (st1 & new1 & Hrun1 & Ht1 & Hall1 & Hobj1).
    destruct (pause_run (Z.ltb (Z.of_nat i) (Z.of_nat n - 1)) st1)
      as (sleeps & Hrun2 & Hall2).
    destruct (IH (S i) (after st1 sleeps) Hrest Hbad (fun _ => Hobj1))
      as (st3 & new3 & Hrun3 & Ht3 & Htok3 & Hc3).
    exists st3, ((ECall "processAccount" [JStr blob; walletAt wallets i] :: new1)
                 ++ sleeps ++ new3).
    split; [|split; [|split]].
    + simpl. rewrite (run_bind_ret _ _ _ _ _ Hrun1).
      rewrite (run_bind_ret _ _ _ _ _ Hrun2). exact Hrun3.
    + rewrite Ht3. simpl. rewrite Ht1, <- !List.app_assoc. reflexivity.
    + rewrite Htok3. simpl forAccounts.
      rewrite (run_bind_ret _ _ _ _ _ Hrun1), (run_bind_ret _ _ _ _ _ Hrun2).
      reflexivity.
    + rewrite callsTo_account_step by assumption. simpl. congruence.
Qed.

End Orchestrator.

(** C1 (as the code has it).  A credential blob that cannot be read makes
    [processAccount] throw before it logs or requests anything.  Nothing
    catches the exception per account: it leaves the loop of [main] and
    reaches the handler installed at start-up, which logs its message and
    exits the process with status 1.  The accounts before the malformed
    one have been processed -- they read their token from the token object,
    which has to be one -- and those after it are never reached. *)
Theorem malformed_blob_ends_the_run env cycles st content pre bad post error :
  dataTxt env = Content content ->
  fileLines content = pre ++ bad :: post ->
  length (loadedWallets env) = length (fileLines content) ->
  Forall (fun b => credentialError env b = None) pre ->
  credentialError env bad = Some error ->
  (pre <> [] -> store st <> NullStore) ->
  exists st' new,
    run (start env (S cycles)) st = (Exit 1, st') /\
    trace st' = trace st ++ new /\
    callsTo "processAccount" new = accountCalls (loadedWallets env) 0 (pre ++ [bad]) /\
    last new = Some (ELog Error [Lit (message error)]).
Proof.
  intros Hdata Hlines Hlen Hpre Hbad Hobj.
  set (st1 := after (after st (walletWarnings env)) [EBanner]).
  set (st2 := after st1 [ELog Info [Lit "=== Starting New Cycle ==="]]).
  destruct (forAccounts_stops env (loadedWallets env) (length (pre ++ bad :: post))
              pre bad post error 0%nat st2 Hpre Hbad Hobj)
    as (st3 & new & Hrun & Htrace & _ & Hcalls).
  exists (after st3 [ELog Error [Lit (message error)]]),
         (walletWarnings env
          ++ [EBanner; ELog Info [Lit "=== Starting New Cycle ==="]]
          ++ new ++ [ELog Error [Lit (message error)]]).
  split; [|split; [|split]].
  - unfold start. rewrite run_bind, loadWallets_run, run_tryCatch.
    rewrite (main_run env _ _ content _ Hdata Hlen).
    simpl mainLoop. rewrite run_bind. unfold log at 1. rewrite run_emit.
    fold st1 st2. rewrite Hlines, run_bind, Hrun. reflexivity.
  - simpl. rewrite Htrace. unfold st2, st1. simpl.
    rewrite <- !List.app_assoc. reflexivity.
  - rewrite !callsTo_app, callsTo_walletWarnings, Hcalls. simpl.
    rewrite app_nil_r. reflexivity.
  - rewrite !List.app_assoc. apply last_snoc.
Qed.

(** X8.  Processing an account changes the token map at most under the
    key of that account's user: the token of every other user is what it
    was, whatever the service answers and even when the blob is
    malformed. *)
Theorem processAccount_keeps_other_tokens env accountData walletAddress st k :
  (forall userData userId,
     parseAccountData env accountData = inr userData ->
     getProp userData "id" = Some userId ->
     k <> toPropertyKey env userId) ->
  tokens (snd (run (processAccount env accountData walletAddress) st)) !! k
  = tokens st !! k.
Proof.
  intros Hother. unfold processAccount, called. rewrite run_bind, run_emit.
  destruct (parseAccountData env accountData) as [e|userData]; [reflexivity|].
  simpl orThrow. rewrite run_bind, run_ret. unfold prop at 1.
  destruct (getProp userData "id") as [userId|] eqn:Hid; [|reflexivity].
  specialize (Hother userData userId eq_refl Hid).
  simpl orTypeError. rewrite run_bind, run_ret. unfold prop at 1.
  destruct (getProp userData "first_name") as [firstName|]; [|reflexivity].
  simpl orTypeError. rewrite run_bind, run_ret, run_bind.
  unfold log at 1. rewrite run_emit, after_after, run_bind.
  pose proof (ensureValidToken_store env userId accountData
                (after st ([ECall "processAccount" [JStr accountData; walletAddress]]
                           ++ [ELog Info [Lit "=== Processing account for "; Val firstName;
                                          Lit " ==="]]))) as Hstore.
  destruct (run (ensureValidToken env userId accountData) _) as [o st1].
  simpl in Hstore. destruct Hstore as [_ Hassigned].
  assert (Hk : tokens st1 !! k = tokens st !! k).
  { exact (assigned_other _ _ _ k Hassigned Hother). }
  destruct o as [token|e|c|]; try exact Hk.
  match goal with
  | |- context [run ?m st1] => assert (Hrest : preserves (authorized token) m)
  end.
  { pres. }
  destruct (Hrest st1) as (new & Hs & _). rewrite Hs. exact Hk.
Qed.

Lemma isExpired_offline env token st :
  exists line,
    run (isExpired env token) st
    = (Ret (expiryVerdict env token (clock env (trace st))), after st [line]) /\
    offline line.
Proof.
  destruct (isExpired_verdict env token st) as [line Hrun].
  assert (Hquiet : preserves offline (isExpired env token)).
  { unfold isExpired. pres. }
  destruct (Hquiet st) as (new & Hs & Hall). rewrite Hrun in Hs. simpl in Hs.
  assert (Hnew : new = [line]).
  { apply (f_equal trace) in Hs. simpl in Hs. apply app_inv_head in Hs. congruence. }
  subst new. inversion Hall; subst. exists line. auto.
Qed.

(** X9.  A token that [saveToken] has stored -- in a token object, under
    a user key other than [__proto__] -- is what the next
    [ensureValidToken] of the same user returns, as long as [isExpired]
    does not judge it expired by then: no authentication, no request, no
    write, one log line -- whether or not the write to token.json had
    succeeded. *)
Theorem saved_token_is_reused env userId token accountData st :
  store st <> NullStore ->
  toPropertyKey env userId <> "__proto__" ->
  let st1 := snd (run (saveToken env userId token) st) in
  expiryVerdict env token (clock env (trace st1)) = false ->
  exists line,
    run (ensureValidToken env userId accountData) st1 = (Ret token, after st1 [line]) /\
    offline line.
Proof.
  intros Hobj Hkey st1 Hfresh.
  assert (Hcached : tokens st1 !! toPropertyKey env userId = Some token).
  { unfold st1. pose proof (saveToken_run env userId token st) as Hsave. simpl in Hsave.
    destruct (writeProperty_total (store st) (toPropertyKey env userId) token Hobj)
      as [s Hw].
    pose proof (writeProperty_ordinary _ _ _ _ Hw Hkey) as Hown.
    rewrite Hw in Hsave. rewrite Hsave.
    destruct (writeFileSync env (trace st)); unfold tokens; simpl;
      rewrite Hown; apply lookup_insert_eq. }
  destruct (isExpired_offline env token st1) as (line & Hrun & Hoff).
  rewrite Hfresh in Hrun. exists line. split; [|exact Hoff].
  exact (ensureValidToken_cached env userId accountData st1 token _ Hcached Hrun).
Qed.

(** * Start-up and the cycles *)

(** X10.  Without a readable data.txt the program does not start: after
    the banner it logs the message of the read error and exits with status
    1, whatever wallet.txt holds; no request has been made and no method of
    the engine entered. *)
Theorem start_without_data_file env cycles st error :
  fst (run (readFileSync (dataTxt env)) st) = Throw error ->
  exists new,
    run (start env cycles) st = (Exit 1, after st new) /\
    last new = Some (ELog Error [Lit (message error)]) /\
    requests new = [] /\
    (forall fn, callsTo fn new = []).
Proof.
  intros Hread.
  exists (walletWarnings env ++ [EBanner; ELog Error [Lit (message error)]]).
  split; [|split; [|split]].
  - unfold start. rewrite run_bind, loadWallets_run, run_tryCatch.
    unfold main. rewrite run_bind, run_emit, run_bind.
    unfold validateWalletFile. rewrite run_bind.
    destruct (dataTxt env) as [|e|content]; simpl in Hread; inversion Hread; subst;
      simpl readFileSync; unfold throw, run at 1; cbv iota beta;
      unfold log; rewrite run_bind, run_emit, !after_after; reflexivity.
  - change [EBanner; ELog Error [Lit (message error)]]
      with ([EBanner] ++ [ELog Error [Lit (message error)]]).
    rewrite List.app_assoc. apply last_snoc.
  - rewrite requests_app, requests_walletWarnings. reflexivity.
  - intros fn. rewrite callsTo_app, callsTo_walletWarnings. reflexivity.
Qed.

Lemma countdown_run seconds st :
  0 <= seconds ->
  run (countdown seconds) st
  = (Ret tt, after st (countdownTicks (Z.to_nat seconds) ++ [ECursorTo0; EClearLine])).
Proof.
  intros Hs. unfold countdown. rewrite run_bind.
  replace seconds with (Z.of_nat (Z.to_nat seconds)) at 2 by lia.
  rewrite countdownLoop_run by lia.
  rewrite run_bind, run_emit, run_emit, !after_after. reflexivity.
Qed.

Lemma callsTo_offline fn new : Forall offline new -> callsTo fn new = [].
Proof.
  induction 1 as [|e new He _ IH]; [reflexivity|].
  destruct e; simpl in He; try contradiction; exact IH.
Qed.

Lemma mainLoop_pending env wallets data :
  Forall (fun b => credentialError env b = None) data ->
  forall cycles st,
  store st <> NullStore ->
  exists st' new,
    run (mainLoop env cycles wallets data) st = (Pending, st') /\
    trace st' = trace st ++ new /\
    callsTo "processAccount" new = cycleCalls wallets data cycles.
Proof.
  intros Hdata. induction cycles as [|cycles IH]; intros st Hobj.
  - exists st, []. rewrite app_nil_r. repeat split; reflexivity.
  - set (st1 := after st [ELog Info [Lit "=== Starting New Cycle ==="]]).
    destruct (forAccounts_returns env wallets (length data) data 0%nat st1 Hdata Hobj)
      as (st2 & new2 & Hrun2 & Ht2 & Hc2 & Hobj2).
    set (st3 := after st2 [ELog Info [Lit "=== Cycle Completed ==="]]).
    set (ticks := countdownTicks (Z.to_nat (1440 * 60)) ++ [ECursorTo0; EClearLine]).
    destruct (IH (after st3 ticks) Hobj2) as (st' & new' & Hrun' & Ht' & Hc').
    exists st', ([ELog Info [Lit "=== Starting New Cycle ==="]] ++ new2
                 ++ [ELog Info [Lit "=== Cycle Completed ==="]] ++ ticks ++ new').
    split; [|split].
    + cbn [mainLoop]. unfold log. rewrite run_bind, run_emit. fold st1.
      rewrite (run_bind_ret _ _ _ _ _ Hrun2), run_bind, run_emit. fold st3.
      rewrite run_bind, (countdown_run (1440 * 60) st3) by lia.
      exact Hrun'.
    + rewrite Ht'. unfold st3, st1 in *. cbn [after trace] in *.
      rewrite Ht2. cbn [after trace]. rewrite <- !List.app_assoc. reflexivity.
    + rewrite !callsTo_app, Hc2, Hc'.
      rewrite (callsTo_offline "processAccount" ticks).
      2:{ apply Forall_app. split; [apply countdownTicks_offline | repeat constructor]. }
      reflexivity.
Qed.

(** X11.  With a token object (token.json did not hold [null]), data.txt
    and wallet.txt in step and every credential blob readable, the run
    never ends: whatever the number of cycles one waits for, the program is
    still running after them, and in each of them it has called
    [processAccount] once per account, in the order of data.txt, each with
    the wallet address of the same line. *)
Theorem well_formed_run_never_ends env cycles st content :
  store st <> NullStore ->
  dataTxt env = Content content ->
  length (loadedWallets env) = length (fileLines content) ->
  Forall (fun b => credentialError env b = None) (fileLines content) ->
  exists st' new,
    run (start env cycles) st = (Pending, st') /\
    trace st' = trace st ++ new /\
    callsTo "processAccount" new = cycleCalls (loadedWallets env) (fileLines content) cycles.
Proof.
  intros Hobj Hdata Hlen Hblobs.
  destruct (mainLoop_pending env (loadedWallets env) (fileLines content) Hblobs cycles
              (after (after st (walletWarnings env)) [EBanner]) Hobj)
    as (st' & new & Hrun & Ht & Hc).
  exists st', (walletWarnings env ++ [EBanner] ++ new).
  split; [|split].
  - unfold start. rewrite run_bind, loadWallets_run, run_tryCatch.
    rewrite (main_run env _ _ content _ Hdata Hlen), Hrun. reflexivity.
  - rewrite Ht. cbn [after trace]. rewrite <- !List.app_assoc. reflexivity.
  - rewrite !callsTo_app, callsTo_walletWarnings, Hc. reflexivity.
Qed.

(** * Linking the wallet *)

(** X12.  What [ensureWalletLinked] reports on an answer of the service:
    success only for status 201 with a truthy success flag.  For status
    201 with a falsy flag it reports an error whose text is [null]; for
    any other status the error is "Failed to link wallet".  It never
    throws. *)
Theorem link_report env token wallet st response st1 ok :
  run (makeRequest env (walletConfig token wallet) defaultMaxRetries defaultRetryDelay)
      (after st [ECall "linkWallet" [token; wallet]])
    = (Ret (Some response), st1) ->
  getProp (data response) "success" = Some ok ->
  run (ensureWalletLinked env token wallet) st
  = (Ret tt, after st1 [linkReport wallet (status response) ok]).
Proof.
  intros Hrun Hok. unfold ensureWalletLinked, linkWallet, called.
  rewrite !run_bind, run_emit, run_tryCatch.
  fold (walletConfig token wallet). rewrite (run_bind_ret _ _ _ _ _ Hrun).
  simpl defined. rewrite run_bind, run_ret, run_bind.
  unfold statusAndSuccess, linkReport, prop.
  destruct (Z.eqb (status response) 201).
  - rewrite Hok. simpl orTypeError. rewrite !run_ret. cbv iota beta. simpl link_success.
    destruct (truthy ok); reflexivity.
  - rewrite !run_ret. reflexivity.
Qed.

(** * The quest list *)

Lemma filterUnclaimed_strict quests quest :
  In quest quests -> claimedOf quest = None -> filterUnclaimed quests = None.
Proof.
  intros Hin Hbad.
  assert (Hq : unclaimed quest = None).
  { unfold claimedOf in Hbad. unfold unclaimed.
    destruct (getProp quest "progress") as [progress|]; [|reflexivity].
    rewrite Hbad. reflexivity. }
  induction quests as [|q rest IH]; [contradiction|].
  simpl. destruct Hin as [-> | Hin].
  - rewrite Hq. reflexivity.
  - destruct (unclaimed q); [|reflexivity]. rewrite (IH Hin). reflexivity.
Qed.

(** X13.  The quest list is all or nothing: when the service answers the
    list request with status 200 and a truthy success flag, but one quest
    of the array has no readable [progress.claimed], [processQuests] logs
    that the list could not be obtained and processes no quest at all,
    not even the well-formed ones. *)
Theorem one_unreadable_quest_voids_the_list env token st response st1 ok quests quest :
  run (makeRequest env (listConfig token) defaultMaxRetries defaultRetryDelay)
      (after st [ECall "getQuestsList" [token]])
    = (Ret (Some response), st1) ->
  status response = 200 ->
  getProp (data response) "success" = Some ok -> truthy ok = true ->
  getProp (data response) "data" = Some (JArr quests) ->
  In quest quests -> claimedOf quest = None ->
  exists error,
    run (processQuests env token) st
    = (Ret tt, after st1 [ELog Error [Lit "Error getting quests list: "; Lit error]]).
Proof.
  intros Hrun Hstatus Hok Htruthy Hdata Hin Hbad.
  eexists. unfold processQuests, getQuestsList, called.
  rewrite run_tryCatch, !run_bind, run_emit, run_tryCatch.
  fold (listConfig token). rewrite (run_bind_ret _ _ _ _ _ Hrun).
  simpl defined. rewrite run_bind, run_ret, run_bind.
  unfold statusAndSuccess, prop. rewrite Hstatus. simpl Z.eqb. cbv iota.
  rewrite Hok. simpl orTypeError. rewrite run_ret, Htruthy. cbv iota.
  rewrite run_bind, Hdata. simpl orTypeError. rewrite run_ret. cbv iota beta.
  rewrite run_bind, (filterUnclaimed_strict quests quest Hin Hbad).
  reflexivity.
Qed.

(** * The wallet gate of [processAccount] *)

Lemma run_bind_assoc {A B C} (m : M A) (f : A -> M B) (g : B -> M C) st :
  run (bind (bind m f) g) st = run (bind m (fun x => bind (f x) g)) st.
Proof.
  rewrite !run_bind. destruct (run m st) as [[a|e|c|] st1]; reflexivity.
Qed.

Lemma run_tryCatch_emit {A} e (f : unit -> M A) handler st :
  run (tryCatch (bind (emit e) f) handler) st = run (tryCatch (f tt) handler) (after st [e]).
Proof. rewrite !run_tryCatch, run_bind, run_emit. reflexivity. Qed.

Section WalletGate.

Context (env : Env).

Lemma ensureWalletLinked_calls token walletAddress st :
  exists st' new,
    run (ensureWalletLinked env token walletAddress) st = (Ret tt, st') /\
    trace st' = trace st ++ ECall "linkWallet" [token; walletAddress] :: new /\
    Forall (fun e => allowed [] true e = true) new.
Proof.
  unfold ensureWalletLinked, linkWallet, called.
  rewrite run_bind_assoc, run_bind, run_emit.
  match goal with
  | |- context [run ?m (after st ?evs)] =>
      assert (Hm : does m [] true (returning anything))
  end.
  { eapply does_bind_returning with (R1 := anything).
    - apply does_tryCatch; [|intros; done_r].
      bind_s (apply makeRequest_does).
      bind_s (apply defined_does).
      bind_s (apply statusAndSuccess_does).
      done_r.
    - intros linkResult _. destruct (truthy _); apply does_log. }
  destruct (does_run _ _ _ _ (after st [ECall "linkWallet" [token; walletAddress]]) Hm)
    as ([] & st' & new & Hrun & Ht & Hall & _).
  exists st', new. split; [exact Hrun|]. split; [|exact Hall].
  rewrite Ht. cbn [after trace]. rewrite <- List.app_assoc. reflexivity.
Qed.

Lemma processQuests_calls token st :
  exists st' new,
    run (processQuests env token) st = (Ret tt, st') /\
    trace st' = trace st ++ ECall "getQuestsList" [token] :: new /\
    Forall (fun e => allowed ["processQuest"; "completeQuest"; "claimQuest"] true e = true) new.
Proof.
  unfold processQuests, getQuestsList, called.
  match goal with
  | |- context [tryCatch (bind (bind ?m ?f) ?g) ?h] =>
      assert (Heq : run (tryCatch (bind (bind m f) g) h) st
                    = run (tryCatch (bind (f tt) g) h)
                          (after st [ECall "getQuestsList" [token]]))
  end.
  { rewrite !run_tryCatch, run_bind_assoc, run_bind, run_emit. reflexivity. }
  rewrite Heq. clear Heq.
  match goal with
  | |- context [run ?m (after st ?evs)] =>
      assert (Hm : does m ["processQuest"; "completeQuest"; "claimQuest"] true
                     (returning anything))
  end.
  { apply does_tryCatch; [|intros; apply does_log].
    eapply does_bind_settling with (R1 := listed).
    - apply does_settle. apply does_tryCatch; [|intros; apply does_ret; exact I].
      bind_s (apply makeRequest_does).
      bind_s (apply defined_does).
      bind_s (apply statusAndSuccess_does).
      destruct (truthy _); [|apply does_ret; exact I].
      bind_s (apply does_prop) as list Hlist.
      destruct list as [| | | | |quests|]; try (apply does_throw; exact I).
      eapply does_bind_settling with (R1 := fun kept => filterUnclaimed quests = Some kept);
        [apply does_orTypeError; auto | intros kept Hkept].
      apply does_ret. simpl. eauto.
    - intros questsResult Hr. destruct questsResult as [kept|error].
      + apply does_settle, forQuests_does; try reflexivity.
        apply listed_defined. exact Hr.
      + apply does_settle, does_log. }
  destruct (does_run _ _ _ _ (after st [ECall "getQuestsList" [token]]) Hm)
    as ([] & st' & new & Hrun & Ht & Hall & _).
  exists st', new. split; [exact Hrun|]. split; [|exact Hall].
  rewrite Ht. cbn [after trace]. rewrite <- List.app_assoc. reflexivity.
Qed.

(** The report of the profile and the wallet step. *)
Lemma walletStep_calls token walletAddress (profile : Result UserData) st :
  extracted profile ->
  exists st' new,
    run (match profile with
         | Success userInfo =>
             logUserInfo userInfo;;
             log Info [Lit "=== Wallet Information ==="];;
             if negb (truthy (wallet userInfo)) then
               log Warn [Lit "Account not linked to wallet. Starting linking process..."];;
               ensureWalletLinked env token walletAddress
             else log Info [Lit "Wallet Address: "; Val (wallet userInfo)]
         | Failure error => log Error [Lit "Error getting user info: "; Lit error]
         end)%js st = (Ret tt, st') /\
    trace st' = trace st ++ new /\
    callsTo "linkWallet" new = linkCalls token walletAddress profile /\
    callsTo "getQuestsList" new = [].
Proof.
  intros Hex. destruct profile as [user|error].
  2:{ eexists _, [_]. split; [reflexivity|]. repeat split; reflexivity. }
  destruct Hex as [raw Hraw].
  destruct (does_run _ _ _ _ st
              (logUserInfo_does user [] false (extractUserData_populated _ _ Hraw)))
    as ([] & st1 & new1 & Hrun1 & Ht1 & Hall1 & _).
  rewrite (run_bind_ret _ _ _ _ _ Hrun1). unfold log at 1. rewrite run_bind, run_emit.
  unfold linkCalls. destruct (truthy (wallet user)); simpl negb; cbv iota.
  - exists (after (after st1 [ELog Info [Lit "=== Wallet Information ==="]])
                  [ELog Info [Lit "Wallet Address: "; Val (wallet user)]]),
           (new1 ++ [ELog Info [Lit "=== Wallet Information ==="];
                     ELog Info [Lit "Wallet Address: "; Val (wallet user)]]).
    split; [reflexivity|]. split; [|split].
    + cbn [after trace]. rewrite Ht1, <- !List.app_assoc. reflexivity.
    + rewrite callsTo_app, (callsTo_allowed "linkWallet" [] false new1 eq_refl Hall1).
      reflexivity.
    + rewrite callsTo_app, (callsTo_allowed "getQuestsList" [] false new1 eq_refl Hall1).
      reflexivity.
  - unfold log at 1. rewrite run_bind, run_emit, after_after.
    destruct (ensureWalletLinked_calls token walletAddress
                (after st1 [ELog Info [Lit "=== Wallet Information ==="];
                            ELog Warn [Lit "Account not linked to wallet. Starting linking process..."]]))
      as (st2 & new2 & Hrun2 & Ht2 & Hall2).
    exists st2, (new1 ++ [ELog Info [Lit "=== Wallet Information ==="];
                          ELog Warn [Lit "Account not linked to wallet. Starting linking process..."]]
                 ++ [ECall "linkWallet" [token; walletAddress]] ++ new2).
    split; [exact Hrun2|]. split; [|split].
    + rewrite Ht2. cbn [after trace]. rewrite Ht1, <- !List.app_assoc. reflexivity.
    + rewrite !callsTo_app, (callsTo_allowed "linkWallet" [] false new1 eq_refl Hall1),
        (callsTo_allowed "linkWallet" [] true new2 eq_refl Hall2).
      reflexivity.
    + rewrite !callsTo_app, (callsTo_allowed "getQuestsList" [] false new1 eq_refl Hall1),
        (callsTo_allowed "getQuestsList" [] true new2 eq_refl Hall2).
      reflexivity.
Qed.

End WalletGate.

(** X14.  Once [processAccount] holds a token and the profile request has
    settled: it calls [linkWallet] exactly once, with the wallet address it
    was given, when the profile was fetched and names no wallet, and not at
    all when the profile names a wallet or could not be fetched; in every
    case it goes on to ask for the quest list exactly once, and returns. *)
Theorem wallet_is_linked_only_when_missing env accountData walletAddress st
    userData userId firstName token st1 profile st2 :
  parseAccountData env accountData = inr userData ->
  getProp userData "id" = Some userId ->
  getProp userData "first_name" = Some firstName ->
  run (ensureValidToken env userId accountData)
      (after st [ECall "processAccount" [JStr accountData; walletAddress];
                 ELog Info [Lit "=== Processing account for "; Val firstName; Lit " ==="]])
    = (Ret token, st1) ->
  truthy token = true ->
  run (getUserInfo env token) st1 = (Ret profile, st2) ->
  exists st' new,
    run (processAccount env accountData walletAddress) st = (Ret tt, st') /\
    trace st' = trace st2 ++ new /\
    callsTo "linkWallet" new = linkCalls token walletAddress profile /\
    callsTo "getQuestsList" new = [[token]].
Proof.
  intros Hparse Hid Hname Htoken Htruthy Hprofile.
  assert (Hex : extracted profile).
  { destruct (getUserInfo_does env token ["getUserInfo"] eq_refl st1) as (_ & _ & _ & Hret).
    rewrite Hprofile in Hret. exact Hret. }
  destruct (walletStep_calls env token walletAddress profile st2 Hex)
    as (stA & newA & HrunA & HtA & HlinkA & HlistA).
  destruct (processQuests_calls env token
              (after stA [ELog Info [Lit "=== Processing Quests ==="]]))
    as (st' & newQ & HrunQ & HtQ & HallQ).
  exists st', (newA ++ [ELog Info [Lit "=== Processing Quests ==="]]
               ++ [ECall "getQuestsList" [token]] ++ newQ).
  split; [|split; [|split]].
  - unfold processAccount, called. rewrite run_bind, run_emit, Hparse.
    simpl orThrow. rewrite run_bind, run_ret.
    unfold prop. rewrite Hid. simpl orTypeError. rewrite run_bind, run_ret.
    rewrite Hname. simpl orTypeError. rewrite run_bind, run_ret.
    rewrite run_bind. unfold log at 1. rewrite run_emit, after_after. simpl app.
    rewrite (run_bind_ret _ _ _ _ _ Htoken). rewrite Htruthy. simpl negb. cbv iota.
    rewrite (run_bind_ret _ _ _ _ _ Hprofile).
    rewrite (run_bind_ret _ _ _ _ _ HrunA).
    unfold log at 1. rewrite run_bind, run_emit. exact HrunQ.
  - rewrite HtQ. cbn [after trace]. rewrite HtA, <- !List.app_assoc. reflexivity.
  - rewrite !callsTo_app, HlinkA.
    rewrite (callsTo_allowed "linkWallet" ["processQuest"; "completeQuest"; "claimQuest"] true
               newQ eq_refl HallQ).
    simpl. rewrite app_nil_r. reflexivity.
  - rewrite !callsTo_app, HlistA.
    rewrite (callsTo_allowed "getQuestsList" ["processQuest"; "completeQuest"; "claimQuest"] true
               newQ eq_refl HallQ).
    reflexivity.
Qed.

(** * A failed login, and token.json at start-up *)

Lemma authEvent_noWrite initData new : Forall (authEvent initData) new -> Forall noWrite new.
Proof.
  intros H. eapply Forall_impl; [exact H|]. intros e. destruct e; simpl; auto.
Qed.

(** X15.  A failed login leaves the token store as it was: when
    [ensureValidToken] has to authenticate and the login fails, it returns
    [null] without having written token.json or changed the token map, so
    an expired token stays cached; the last line it logs is the failure. *)
Theorem failed_login_keeps_the_store env userId accountData st st1 error st3 :
  needsRefresh env userId st st1 ->
  run (authenticate env accountData) (after st1 [newTokenLog userId])
    = (Ret (Failure error), st3) ->
  exists new,
    run (ensureValidToken env userId accountData) st = (Ret JNull, after st new) /\
    Forall noWrite new /\
    last new = Some (loginFailedLog error).
Proof.
  intros Hrefresh Hauth.
  rewrite (ensureValidToken_refresh env userId accountData st st1 Hrefresh), Hauth.
  assert (H1 : exists newA, st1 = after st newA /\ Forall noWrite newA).
  { destruct Hrefresh as [token _ _|token st1 _ _ Hexp].
    - exists []. rewrite after_nil. split; [reflexivity | constructor].
    - destruct (isExpired_offline env token st) as (line & Hrun & Hoff).
      rewrite Hrun in Hexp. inversion Hexp; subst.
      exists [line]. split; [reflexivity|]. constructor; [|constructor].
      destruct line; simpl in Hoff; try contradiction; exact I. }
  destruct H1 as (newA & -> & HallA).
  destruct (authenticate_preserves env accountData (after (after st newA) [newTokenLog userId]))
    as (newB & HsB & HallB).
  rewrite Hauth in HsB. simpl in HsB. subst st3.
  exists (newA ++ [newTokenLog userId] ++ newB ++ [loginFailedLog error]).
  split; [|split].
  - rewrite !after_after, <- ?List.app_assoc. reflexivity.
  - repeat (apply Forall_app; split); try exact HallA; try (repeat constructor; fail).
    eapply authEvent_noWrite; exact HallB.
  - rewrite !List.app_assoc. apply last_snoc.
Qed.

(** Without a token.json that parses, the token object is the empty
    object. *)
Lemma loadTokens_default env tokenFile st :
  (forall content, tokenFile = Content content ->
                   exists error, JSON_parse env content = inl error) ->
  exists loaded,
    fst (run (loadTokens env tokenFile) st) = Ret loaded /\
    storeOf loaded = Some (ObjectStore ∅ ObjectPrototype).
Proof.
  intros Hfile. exists (JObj []). split; [|reflexivity].
  unfold loadTokens. rewrite run_tryCatch.
  destruct tokenFile as [|e|content]; try reflexivity.
  destruct (Hfile content eq_refl) as [error Herror].
  simpl readFileSync. rewrite run_bind, run_ret, Herror. reflexivity.
Qed.

(** X16.  [loadTokens] never throws and requests nothing.  A missing
    token.json gives the empty map without any log; a file that cannot be
    read, or that is not JSON, gives the empty map after one error line;
    any other file gives the value it parses to, whatever that value is. *)
Theorem loadTokens_never_fails env tokenFile st :
  exists loaded new,
    run (loadTokens env tokenFile) st = (Ret loaded, after st new) /\
    Forall offline new /\
    (tokenFile = Missing -> loaded = JObj [] /\ new = []) /\
    (forall error, tokenFile = Unreadable error ->
       loaded = JObj [] /\ new = [tokenFileLog error]) /\
    (forall content error,
       tokenFile = Content content -> JSON_parse env content = inl error ->
       loaded = JObj [] /\ new = [tokenFileLog error]) /\
    (forall content value,
       tokenFile = Content content -> JSON_parse env content = inr value ->
       loaded = value /\ new = []).
Proof.
  unfold loadTokens. rewrite run_tryCatch.
  destruct tokenFile as [|e|content].
  - exists (JObj []), []. rewrite after_nil.
    repeat split; try discriminate; try constructor.
  - exists (JObj []), [tokenFileLog e].
    split; [reflexivity|]. split; [repeat constructor|].
    repeat split; try discriminate; inversion H; reflexivity.
  - simpl readFileSync. rewrite run_bind, run_ret.
    destruct (JSON_parse env content) as [e|value] eqn:Hparse.
    + exists (JObj []), [tokenFileLog e].
      split; [reflexivity|]. split; [repeat constructor|].
      repeat split; try discriminate; inversion H; subst; congruence.
    + exists value, []. rewrite after_nil.
      split; [reflexivity|]. split; [constructor|].
      repeat split; try discriminate; inversion H; subst; congruence.
Qed.

(** * The statements on the sample installation *)

Import Sample.

(** C1, as stated, fails: the second of three accounts has a blob without
    [user=]; Ann's account is processed, the run then exits with status 1,
    and Bob's account, whose blob is well formed, is never processed. *)
Lemma malformed_blob_stops_the_batch :
  let r := run (start Sample.env 1) st0 in
  fileLines threeAccounts = [blobAnn; blobBad; blobBob] /\
  credentialError Sample.env blobBad
    = Some (mkError "Cannot read properties of undefined (reading 'split')") /\
  credentialError Sample.env blobBob = None /\
  fst r = Exit 1 /\
  callsTo "processAccount" (trace (snd r))
    = [[JStr blobAnn; JStr "UQA1"]; [JStr blobBad; JStr "UQB2"]].
Proof. vm_compute. repeat split; reflexivity. Qed.

Lemma malformed_blob_ends_the_run_witness :
  exists st' new,
    run (start Sample.env 1) st0 = (Exit 1, st') /\
    trace st' = trace st0 ++ new /\
    callsTo "processAccount" new
      = accountCalls (loadedWallets Sample.env) 0 ([blobAnn] ++ [blobBad]) /\
    last new = Some (ELog Error
                       [Lit (message (mkError
                          "Cannot read properties of undefined (reading 'split')"))]).
Proof.
  apply (malformed_blob_ends_the_run Sample.env 0 st0 threeAccounts
           [blobAnn] blobBad [blobBob]).
  - reflexivity.
  - vm_compute. reflexivity.
  - vm_compute. reflexivity.
  - constructor; [vm_compute; reflexivity | constructor].
  - vm_compute. reflexivity.
  - intros _. discriminate.
Defined.

Lemma mismatch_refuses_to_start_witness :
  length (loadedWallets envTwoWallets) = 2%nat /\
  length (fileLines threeAccounts) = 3%nat /\
  exists new,
    run (start envTwoWallets 1) st0 = (Exit 1, after st0 new) /\
    requests new = [] /\
    (forall fn, callsTo fn new = []).
Proof.
  split; [vm_compute; reflexivity|]. split; [vm_compute; reflexivity|].
  apply (mismatch_refuses_to_start envTwoWallets 1 st0 threeAccounts).
  - reflexivity.
  - vm_compute. discriminate.
Defined.

(** The retry scenario: the first two attempts throw, the third succeeds;
    the caller receives the answer after two warnings and two pauses of
    five seconds. *)
Lemma makeRequest_third_attempt :
  let config := listConfig tokenFresh in
  let hangUp := mkError "socket hang up" in
  run (makeRequest (withAxios serviceFlaky) config defaultMaxRetries defaultRetryDelay) st0
  = (Ret (Some (mkResponse 200 (JObj [("success", JBool true);
                                      ("data", JArr [questA; questB; questC])]))),
     after st0 [EHttp config; retryWarning 1 3 5000 hangUp; ESleep 5000;
                EHttp config; retryWarning 2 3 5000 hangUp; ESleep 5000;
                EHttp config]).
Proof.
  intros config hangUp.
  pose proof (proj1 (makeRequest_three_attempts (withAxios serviceFlaky) config st0)) as H.
  exact H.
Defined.

(** C2, on the code: the claim endpoint answers the request for quest q2
    with status 200, yet [claimQuest] reports a failure: the quest has an
    empty rewards array, reading [rewards[0].amount] for the log line
    throws inside the [try], and the handler turns the exception into
    [{ success: false }].  The quest is not marked done and
    [processQuest] logs an error for it. *)
Lemma claimQuest_fails_on_empty_rewards :
  let call := ECall "claimQuest" [tokenFresh; JStr "q2"; questB] in
  let r := run (claimQuest Sample.env tokenFresh (JStr "q2") questB) st0 in
  getProp questB "rewards" = Some (JArr []) /\
  axios Sample.env [call] (claimConfig tokenFresh (JStr "q2"))
    = inr (mkResponse 200 (JObj [("success", JBool true)])) /\
  fst r = Ret (Failure "Cannot read properties of undefined (reading 'amount')") /\
  trace (snd r) = [call; EHttp (claimConfig tokenFresh (JStr "q2"))] /\
  last (trace (snd (run (processQuest Sample.env tokenFresh questB) st0)))
    = Some (claimErrorLog (JStr "Boost")
              "Cannot read properties of undefined (reading 'amount')").
Proof. vm_compute. repeat split; reflexivity. Qed.

(** C3, as stated, fails: the payload of the token carries [exp = 0], the
    clock reads [now = 1700000000 > exp], and [isExpired] answers false. *)
Lemma isExpired_exp_zero_is_perpetual :
  tokenPayload Sample.env tokenExp0 = Some (JObj [("exp", JNum 0)]) /\
  clock Sample.env (trace st0) = 1700000000 /\
  1700000000 > 0 /\
  fst (run (isExpired Sample.env tokenExp0) st0) = Ret false.
Proof. vm_compute. repeat split; reflexivity. Qed.

Lemma isExpired_answers_witness :
  (exists b, fst (run (isExpired Sample.env tokenExp200) st0) = Ret b /\
             (b = true <-> clock Sample.env (trace st0) > 200)) /\
  fst (run (isExpired Sample.env tokenFresh) st0) = Ret false /\
  fst (run (isExpired Sample.env tokenPerpetual) st0) = Ret false /\
  fst (run (isExpired Sample.env tokenBroken) st0) = Ret true /\
  fst (run (isExpired Sample.env tokenNull) st0) = Ret true.
Proof.
  split; [|split; [|split; [|split]]].
  - apply (proj1 (isExpired_answers Sample.env tokenExp200 st0)
             (JObj [("exp", JNum 200)]) 200); [reflexivity | reflexivity | discriminate].
  - destruct (proj1 (isExpired_answers Sample.env tokenFresh st0)
                (JObj [("exp", JNum 2000000000)]) 2000000000 eq_refl eq_refl)
      as (b & Hb & Hiff); [discriminate|].
    rewrite Hb. destruct b; [|reflexivity].
    exfalso. assert (H : clock Sample.env (trace st0) > 2000000000) by (apply Hiff; reflexivity).
    vm_compute in H. discriminate.
  - apply (proj1 (proj2 (isExpired_answers Sample.env tokenPerpetual st0))
             (JObj []) JUndefined); reflexivity.
  - apply (proj1 (proj2 (proj2 (isExpired_answers Sample.env tokenBroken st0)))).
    reflexivity.
  - apply (proj1 (proj2 (proj2 (proj2 (isExpired_answers Sample.env tokenNull st0))))
             JNull); reflexivity.
Defined.

(** C4, as stated, fails: completeQuest is answered (200, success false,
    data true) and claimQuest is called once, but the claim endpoint is out
    of reach: the three attempts throw, the quest is not marked done, and
    an error is logged for it. *)
Lemma needsClaim_without_done :
  let env := withAxios serviceClaimDown in
  let r := run (processQuest env tokenFresh questA) st0 in
  axios env [ECall "processQuest" [tokenFresh; questA];
             ECall "completeQuest" [tokenFresh; JStr "q1"]]
        (completeConfig tokenFresh (JStr "q1"))
    = inr (mkResponse 200 (JObj [("success", JBool false); ("data", JBool true)])) /\
  fst r = Ret tt /\
  callsTo "claimQuest" (trace (snd r)) = [[tokenFresh; JStr "q1"; questA]] /\
  ~ markedDone (trace (snd r)) /\
  last (trace (snd r)) = Some (claimErrorLog (JStr "Follow") "connect ETIMEDOUT").
Proof.
  intros env r.
  split; [vm_compute; reflexivity|]. split; [vm_compute; reflexivity|].
  split; [vm_compute; reflexivity|]. split; [|vm_compute; reflexivity].
  intros (title & reward & Hin). vm_compute in Hin.
  repeat (destruct Hin as [Hin|Hin]; [discriminate Hin|]). exact Hin.
Qed.

Lemma needsClaim_claims_once_witness :
  exists st' new,
    run (processQuest Sample.env tokenFresh questA) st0 = (Ret tt, st') /\
    trace st' = trace st0 ++ new /\
    callsTo "claimQuest" new = [[tokenFresh; JStr "q1"; questA]] /\
    markedDone new.
Proof.
  destruct (needsClaim_claims_once Sample.env tokenFresh questA (JStr "q1") st0
              (mkResponse 200 (JObj [("success", JBool false); ("data", JBool true)]))
              (after st0 [ECall "processQuest" [tokenFresh; questA];
                          ECall "completeQuest" [tokenFresh; JStr "q1"];
                          EHttp (completeConfig tokenFresh (JStr "q1"))])
              (JBool false) (JBool true))
    as (st' & new & Hrun & Htrace & Hclaim & _).
  - reflexivity.
  - vm_compute. reflexivity.
  - reflexivity.
  - reflexivity.
  - destruct (Hclaim eq_refl eq_refl eq_refl) as (Hcalls & Hdone & _).
    exists st', new. split; [exact Hrun|]. split; [exact Htrace|].
    split; [exact Hcalls|]. apply Hdone.
    + eexists. vm_compute. reflexivity.
    + eexists. vm_compute. reflexivity.
Defined.

(** C5, as stated, fails: getUserInfo accepts a payload without
    claimStreakData and without firstname; in the profile it reports, the
    current streak, the last claim date and the first name are undefined,
    as well as the wallet. *)
Lemma profile_not_fully_populated :
  exists u,
    extractUserData rawBare = Some u /\
    fst (run (getUserInfo Sample.env tokenFresh) st0) = Ret (Success u) /\
    currentStreak (claimStreak u) = JUndefined /\
    lastClaimDate (claimStreak u) = JUndefined /\
    firstname u = JUndefined.
Proof. eexists. split; [reflexivity|]. vm_compute. repeat split; reflexivity. Qed.

Lemma allocation_defaults_witness :
  exists u,
    extractUserData rawNoDogs = Some u /\
    dogs (allocation u) = JObj [("initial", JNum 0); ("converted", JNum 0); ("percent", JNum 0)] /\
    hamster (allocation u) = JObj [("initial", JNum 7); ("converted", JNum 1)] /\
    total (allocation u) = JNum 8 /\
    nullish (notcoin (allocation u)) = false.
Proof.
  destruct (extractUserData rawNoDogs) as [u|] eqn:Hu; [|discriminate Hu].
  exists u. split; [reflexivity|].
  destruct (allocation_defaults rawNoDogs u Hu) as (Hall & _).
  rewrite List.Forall_forall in Hall.
  pose proof (Hall ("dogs", dogs, dogs0)) as Hdogs.
  pose proof (Hall ("hamster", hamster, hamster0)) as Hhamster.
  pose proof (Hall ("total", total, total0)) as Htotal.
  pose proof (Hall ("notcoin", notcoin, notcoin0)) as Hnotcoin.
  simpl in Hdogs, Hhamster, Htotal, Hnotcoin.
  split; [apply Hdogs; [tauto | reflexivity]|].
  split; [apply Hhamster; [tauto | reflexivity]|].
  split; [apply Htotal; [tauto | reflexivity]|].
  apply Hnotcoin. tauto.
Defined.

Lemma ensureValidToken_contract_witness :
  (* Ann's token is cached and fresh *)
  (run (ensureValidToken Sample.env (JNum 1) blobAnn) stCached
     = (Ret tokenFresh, after stCached [ELog Info [Lit "Token expires on: ";
                                                   LocalTime 2000000000]]) /\
   exists new,
     trace (after stCached [ELog Info [Lit "Token expires on: "; LocalTime 2000000000]])
       = trace stCached ++ new /\
     callsTo "authenticate" new = [] /\ requests new = []) /\
  (* nothing is cached: authenticate, store, write, return *)
  (exists st4,
     run (ensureValidToken Sample.env (JNum 1) blobAnn) st0 = (Ret tokenFresh, st4) /\
     tokens st4 = <["1" := tokenFresh]> (tokens st0) /\
     In (EWriteTokens (tokens st4)) (trace st4) /\
     disk st4 = Some (tokens st4)).
Proof.
  split.
  - apply (proj1 (ensureValidToken_contract Sample.env (JNum 1) blobAnn stCached)).
    + vm_compute. reflexivity.
    + vm_compute. reflexivity.
  - destruct (proj2 (proj2 (proj1 (proj2
                (ensureValidToken_contract Sample.env (JNum 1) blobAnn st0))
                st0 (refresh_falsy Sample.env (JNum 1) st0 JUndefined eq_refl eq_refl)))
              tokenFresh userBare
              (after st0 [newTokenLog (JNum 1); ECall "authenticate" [JStr blobAnn];
                          EHttp (mkConfig "post" (API_CONFIG.BASE_URL ++ API_CONFIG.AUTH)
                                   (JObj [("data", JStr blobAnn);
                                          ("referralCode", JStr "vuY5ILO1")]) None)]))
      as (st4 & Hrun & Htokens & Hwrite & Hdisk).
    + vm_compute. reflexivity.
    + exists st4. split; [exact Hrun|].
      split; [apply Htokens; intros Hkey; vm_compute in Hkey; discriminate Hkey|].
      split; [exact Hwrite|]. apply Hdisk. reflexivity.
Defined.

Lemma save_failure_is_swallowed_witness :
  let st := after st0 [newTokenLog (JNum 1); ECall "authenticate" [JStr blobAnn];
                       EHttp (mkConfig "post" (API_CONFIG.BASE_URL ++ API_CONFIG.AUTH)
                                (JObj [("data", JStr blobAnn);
                                       ("referralCode", JStr "vuY5ILO1")]) None)] in
  writeFileSync envReadOnly (trace st) = Some (mkError "EACCES: permission denied") /\
  (exists st',
     run (saveToken envReadOnly (JNum 1) tokenFresh) st = (Ret tt, st') /\
     tokens st' !! "1" = Some tokenFresh /\
     disk st' = None) /\
  (exists st',
     run (ensureValidToken envReadOnly (JNum 1) blobAnn) st0 = (Ret tokenFresh, st') /\
     tokens st' !! "1" = Some tokenFresh /\
     disk st' = None).
Proof.
  intros st. split; [reflexivity|].
  destruct (save_failure_is_swallowed envReadOnly (JNum 1) tokenFresh st
              (mkError "EACCES: permission denied") eq_refl) as [Hsave Hensure].
  { discriminate. }
  { intros Hkey. vm_compute in Hkey. discriminate Hkey. }
  split.
  - destruct Hsave as (st' & Hrun & Htok & Hdisk & _). exists st'. auto.
  - apply (Hensure st0 st0 blobAnn userBare).
    + apply (refresh_falsy envReadOnly (JNum 1) st0 JUndefined); reflexivity.
    + vm_compute. reflexivity.
Defined.

(** C10, as stated, fails: a quest whose [progress] has no [claimed] field
    is listed, kept by the filter and handed to completeQuest, although its
    [progress.claimed] is not [false]. *)
Lemma unmarked_quest_is_processed :
  let r := run (processQuests (withAxios serviceUnmarked) tokenFresh) st0 in
  claimedOf questUnmarked = Some JUndefined /\
  fst r = Ret tt /\
  callsTo "processQuest" (trace (snd r)) = [[tokenFresh; questUnmarked]] /\
  callsTo "completeQuest" (trace (snd r)) = [[tokenFresh; JStr "q8"]].
Proof. vm_compute. repeat split; reflexivity. Qed.

Lemma only_unclaimed_quests_are_processed_witness :
  exists st' new,
    run (processQuests Sample.env tokenFresh) st0 = (Ret tt, st') /\
    trace st'
    = trace (after st0 [ECall "getQuestsList" [tokenFresh]; EHttp (listConfig tokenFresh)])
      ++ new /\
    callsTo "processQuest" new = [[tokenFresh; questA]; [tokenFresh; questB]] /\
    callsTo "completeQuest" new = [[tokenFresh; JStr "q1"]; [tokenFresh; JStr "q2"]] /\
    claimedOf questC = Some (JBool true) /\
    ~ In [tokenFresh; questC] (callsTo "processQuest" new).
Proof.
  destruct (only_unclaimed_quests_are_processed Sample.env tokenFresh st0
              (Success [questA; questB])
              (after st0 [ECall "getQuestsList" [tokenFresh]; EHttp (listConfig tokenFresh)]))
    as (st' & new & Hrun & Ht & _ & Hp & Hc & _).
  - vm_compute. reflexivity.
  - exists st', new. split; [exact Hrun|]. split; [exact Ht|].
    split; [exact Hp|]. split; [exact Hc|].
    split; [reflexivity|]. rewrite Hp. simpl.
    intros [H|[H|[]]]; discriminate H.
Defined.

(** The token object on the sample installation: a user key [__proto__]
    is not stored, and the next call authenticates again; with [null] for
    a token object the first account ends the run. *)
Lemma proto_key_is_not_stored :
  let st1 := snd (run (saveToken Sample.env (JStr "__proto__") tokenFresh) st0) in
  tokens st1 = tokens st0 /\
  last (trace st1) = Some (ELog Info [Lit "Token saved for user "; Val (JStr "__proto__")]) /\
  callsTo "authenticate"
    (trace (snd (run (ensureValidToken Sample.env (JStr "__proto__") blobAnn) st1)))
  = [[JStr blobAnn]].
Proof. vm_compute. repeat split; reflexivity. Qed.

Lemma null_store_ends_the_run :
  run (processAccount Sample.env blobAnn (JStr "UQA1")) stNull
  = (Throw (mkError "Cannot read properties of null (reading '1')"),
     after stNull [ECall "processAccount" [JStr blobAnn; JStr "UQA1"];
                   ELog Info [Lit "=== Processing account for "; Val (JStr "Ann");
                              Lit " ==="]]) /\
  fst (run (start envHealthy 1) stNull) = Exit 1.
Proof. vm_compute. split; reflexivity. Qed.

(** * The further properties on the sample installation *)

Lemma loadWallets_reads_back_witness :
  run (loadWallets envCRLF) st0 = (Ret ["UQA1"; "UQB2"], st0).
Proof.
  apply (loadWallets_reads_back envCRLF st0 (String CR (String LF "")) ["UQA1"; "UQB2"]).
  - right. reflexivity.
  - repeat (constructor; [split; [discriminate | split; reflexivity]|]).
    constructor.
  - reflexivity.
Defined.

Lemma formatTime_two_digits_witness :
  formatTime 86399
  = twoDigits (86399 / 3600) +:+ ":" +:+ twoDigits (86399 mod 3600 / 60) +:+ ":"
    +:+ twoDigits (86399 mod 60)
  /\ String.length (formatTime 86399) = 8%nat.
Proof. apply (formatTime_two_digits 86399). lia. Defined.

Lemma processAccount_keeps_other_tokens_witness :
  tokens (snd (run (processAccount Sample.env blobAnn (JStr "UQA1")) stBob)) !! "2"
  = tokens stBob !! "2".
Proof.
  apply (processAccount_keeps_other_tokens Sample.env blobAnn (JStr "UQA1") stBob "2").
  intros userData userId Hparse Hid.
  vm_compute in Hparse. inversion Hparse; subst.
  vm_compute in Hid. inversion Hid; subst.
  vm_compute. discriminate.
Defined.

Lemma saved_token_is_reused_witness :
  exists line,
    run (ensureValidToken envReadOnly (JNum 1) blobAnn)
        (snd (run (saveToken envReadOnly (JNum 1) tokenFresh) st0))
    = (Ret tokenFresh,
       after (snd (run (saveToken envReadOnly (JNum 1) tokenFresh) st0)) [line]) /\
    offline line.
Proof.
  apply (saved_token_is_reused envReadOnly (JNum 1) tokenFresh blobAnn st0).
  - discriminate.
  - intros Hkey. vm_compute in Hkey. discriminate Hkey.
  - vm_compute. reflexivity.
Defined.

Lemma start_without_data_file_witness :
  exists new,
    run (start envNoData 3) st0 = (Exit 1, after st0 new) /\
    last new = Some (ELog Error [Lit "ENOENT: no such file or directory"]) /\
    requests new = [] /\
    (forall fn, callsTo fn new = []).
Proof.
  apply (start_without_data_file envNoData 3 st0
           (mkError "ENOENT: no such file or directory")).
  reflexivity.
Defined.

Lemma well_formed_run_never_ends_witness :
  exists st' new,
    run (start envHealthy 2) st0 = (Pending, st') /\
    trace st' = trace st0 ++ new /\
    callsTo "processAccount" new
    = cycleCalls (loadedWallets envHealthy) (fileLines twoAccounts) 2.
Proof.
  apply (well_formed_run_never_ends envHealthy 2 st0 twoAccounts).
  - discriminate.
  - reflexivity.
  - vm_compute. reflexivity.
  - replace (fileLines twoAccounts) with [blobAnn; blobBob] by (vm_compute; reflexivity).
    constructor; [vm_compute; reflexivity|].
    constructor; [vm_compute; reflexivity|].
    constructor.
Defined.

Lemma link_report_witness :
  run (ensureWalletLinked (withAxios serviceLinkRefused) tokenFresh (JStr "UQA1")) st0
  = (Ret tt,
     after (after st0 [ECall "linkWallet" [tokenFresh; JStr "UQA1"];
                       EHttp (walletConfig tokenFresh (JStr "UQA1"))])
           [ELog Error [Lit "Error linking wallet: "; Val JNull]]).
Proof.
  apply (link_report (withAxios serviceLinkRefused) tokenFresh (JStr "UQA1") st0
           (mkResponse 201 (JObj [("success", JBool false)]))
           (after st0 [ECall "linkWallet" [tokenFresh; JStr "UQA1"];
                       EHttp (walletConfig tokenFresh (JStr "UQA1"))])
           (JBool false)).
  - vm_compute. reflexivity.
  - reflexivity.
Defined.

Lemma one_unreadable_quest_voids_the_list_witness :
  exists error,
    run (processQuests (withAxios serviceBareQuest) tokenFresh) st0
    = (Ret tt,
       after (after st0 [ECall "getQuestsList" [tokenFresh]; EHttp (listConfig tokenFresh)])
             [ELog Error [Lit "Error getting quests list: "; Lit error]]).
Proof.
  apply (one_unreadable_quest_voids_the_list (withAxios serviceBareQuest) tokenFresh st0
           (mkResponse 200 (JObj [("success", JBool true);
                                  ("data", JArr [questA; questBare])]))
           (after st0 [ECall "getQuestsList" [tokenFresh]; EHttp (listConfig tokenFresh)])
           (JBool true) [questA; questBare] questBare).
  - vm_compute. reflexivity.
  - reflexivity.
  - reflexivity.
  - reflexivity.
  - reflexivity.
  - right. left. reflexivity.
  - reflexivity.
Defined.

Lemma wallet_is_linked_only_when_missing_witness :
  exists st' new,
    run (processAccount Sample.env blobAnn (JStr "UQA1")) stCached = (Ret tt, st') /\
    trace st'
    = trace (snd (run (getUserInfo Sample.env tokenFresh)
                      (snd (run (ensureValidToken Sample.env (JNum 1) blobAnn)
                                (after stCached
                                   [ECall "processAccount" [JStr blobAnn; JStr "UQA1"];
                                    ELog Info [Lit "=== Processing account for ";
                                               Val (JStr "Ann"); Lit " ==="]])))))
      ++ new /\
    callsTo "linkWallet" new = linkCalls tokenFresh (JStr "UQA1") (Success userBare) /\
    callsTo "getQuestsList" new = [[tokenFresh]].
Proof.
  apply (wallet_is_linked_only_when_missing Sample.env blobAnn (JStr "UQA1") stCached
           (JObj [("id", JNum 1); ("first_name", JStr "Ann")]) (JNum 1) (JStr "Ann")
           tokenFresh
           (snd (run (ensureValidToken Sample.env (JNum 1) blobAnn)
                     (after stCached
                        [ECall "processAccount" [JStr blobAnn; JStr "UQA1"];
                         ELog Info [Lit "=== Processing account for ";
                                    Val (JStr "Ann"); Lit " ==="]])))
           (Success userBare)).
  - vm_compute. reflexivity.
  - reflexivity.
  - reflexivity.
  - vm_compute. reflexivity.
  - reflexivity.
  - vm_compute. reflexivity.
Defined.

Lemma failed_login_keeps_the_store_witness :
  exists new,
    run (ensureValidToken (withAxios serviceNoLogin) (JNum 1) blobAnn) st0
    = (Ret JNull, after st0 new) /\
    Forall noWrite new /\
    last new = Some (loginFailedLog "Request failed with status code 401").
Proof.
  apply (failed_login_keeps_the_store (withAxios serviceNoLogin) (JNum 1) blobAnn st0 st0
           "Request failed with status code 401"
           (snd (run (authenticate (withAxios serviceNoLogin) blobAnn)
                     (after st0 [newTokenLog (JNum 1)])))).
  - apply (refresh_falsy (withAxios serviceNoLogin) (JNum 1) st0 JUndefined); reflexivity.
  - vm_compute. reflexivity.
Defined.
